(** * js-data-mongodb: the query translator and the operation executor

    A shallow embedding of [dist/js-data-mongodb.js].

    - JavaScript values are the inductive type [value]; an object is the
      list of its own enumerable properties in enumeration order
      (integer keys first, ascending, then the other keys in insertion
      order), so that [forOwn] is a fold over that list.
    - Numbers are the integer-valued ones; unary plus on anything else is
      the host's [toNumber].
    - A native ObjectID is an object tagged [_bsontype = 'ObjectID'].
    - The file is strict-mode code ('use strict' on line 1): assigning a
      property on a primitive throws a TypeError.
    - Property names are ordinary ones: [__proto__] and the names that
      [Object.prototype] and [Array.prototype] define ([constructor],
      [toString], [map], ...) are outside the model.
    - A call of the adapter is a function of the world, the state of the
      store and the trace of the hooks and driver calls made so far; it
      settles with a value or with the error thrown.  A promise chain
      runs in sequence.  The tasks of [Promise.all] are started by the
      callbacks that make them and all run; they are taken one after
      the other in the order in which they were started, where the code
      lets their steps interleave, and no statement rests on the order
      between two of them.
    - What the adapter is given from outside (the base adapter's hooks,
      loaders and list of reserved words, the driver, unary plus,
      [toString], [ObjectID.isValid], mout's [underscore]) is a field of
      the record [Host]. *)

From Stdlib Require Import String Ascii List ZArith NArith Bool Permutation.
From Stdlib Require Import DecimalString.
Import ListNotations.
Open Scope string_scope.
Open Scope list_scope.

(** ** Values *)

#[warnings="-register-all"]
Inductive value : Type :=
| VUndefined
| VNull
| VBool (b : bool)
| VNum (n : Z)
| VStr (s : string)
| VArr (elems : list value) (named : list (string * value))
| VObj (props : list (string * value)).

Definition obj := list (string * value).

(** An array literal: elements only, no named property. *)
Definition arr (l : list value) : value := VArr l [].

Inductive error : Type :=
| TypeError
| Error (msg : string).

Inductive result (A : Type) : Type :=
| Ok (a : A)
| Throw (e : error).
Arguments Ok {A} a.
Arguments Throw {A} e.

Definition rbind {A B} (r : result A) (k : A -> result B) : result B :=
  match r with
  | Ok a => k a
  | Throw e => Throw e
  end.

(** [if (v)]: JavaScript truthiness. *)
Definition truthy (v : value) : bool :=
  match v with
  | VUndefined | VNull => false
  | VBool b => b
  | VNum n => negb (n =? 0)%Z
  | VStr s => negb (s =? "")
  | VArr _ _ | VObj _ => true
  end.

(** js-data [utils.isObject]: the [toString] tag is '[object Object]'. *)
Definition isObject (v : value) : bool :=
  match v with VObj _ => true | _ => false end.

Definition isString (v : value) : bool :=
  match v with VStr _ => true | _ => false end.

(** ** Property keys and their order *)

Definition digit_of (c : ascii) : option N :=
  let n := N_of_ascii c in
  if ((48 <=? n) && (n <=? 57))%N then Some (n - 48)%N else None.

Fixpoint digits_value (s : string) (acc : N) : option N :=
  match s with
  | EmptyString => Some acc
  | String c s' =>
      match digit_of c with
      | Some d => digits_value s' (acc * 10 + d)%N
      | None => None
      end
  end.

(** The keys an engine stores as array indices: canonical decimal numerals
    below 2^32 - 1.  They are enumerated first, in ascending order. *)
Definition array_index (k : string) : option N :=
  match k with
  | EmptyString => None
  | String c rest =>
      if (Ascii.eqb c "0" && negb (rest =? ""))%bool then None
      else match digits_value k 0 with
           | Some n => if (n <? 4294967295)%N then Some n else None
           | None => None
           end
  end.

Fixpoint js_get (o : obj) (k : string) : option value :=
  match o with
  | [] => None
  | (k', v) :: o' => if k' =? k then Some v else js_get o' k
  end.

(** [o[k]] read on an object: an absent property reads as [undefined]. *)
Definition prop (o : obj) (k : string) : value :=
  match js_get o k with Some v => v | None => VUndefined end.

Fixpoint replace_prop (o : obj) (k : string) (v : value) : obj :=
  match o with
  | [] => []
  | (k', v') :: o' =>
      if k' =? k then (k', v) :: o' else (k', v') :: replace_prop o' k v
  end.

(** A new integer key goes before the first key that is not an integer
    key or is a larger one. *)
Fixpoint insert_index (o : obj) (n : N) (k : string) (v : value) : obj :=
  match o with
  | [] => [(k, v)]
  | (k', v') :: o' =>
      match array_index k' with
      | Some n' =>
          if (n <? n')%N then (k, v) :: o
          else (k', v') :: insert_index o' n k v
      | None => (k, v) :: o
      end
  end.

(** [o[k] = v] on an object. *)
Definition js_set (o : obj) (k : string) (v : value) : obj :=
  match js_get o k with
  | Some _ => replace_prop o k v
  | None =>
      match array_index k with
      | Some n => insert_index o n k v
      | None => o ++ [(k, v)]
      end
  end.

Definition index_key (i : nat) : string :=
  NilZero.string_of_uint (Nat.to_uint i).

Fixpoint indexed {A} (f : A -> value) (l : list A) (i : nat) : obj :=
  match l with
  | [] => []
  | x :: l' => (index_key i, f x) :: indexed f l' (S i)
  end.

Fixpoint chars (s : string) : list string :=
  match s with
  | EmptyString => []
  | String c s' => String c EmptyString :: chars s'
  end.

(** [Object.keys(v)] paired with the values [v[key]], as js-data's
    [forOwn] visits them.  [Object.keys] throws on [undefined] and [null],
    gives no key for a number or a boolean, and the indices for a string. *)
Definition own_entries (v : value) : result obj :=
  match v with
  | VUndefined | VNull => Throw TypeError
  | VBool _ | VNum _ => Ok []
  | VStr s => Ok (indexed VStr (chars s) 0)
  | VArr elems named => Ok (indexed (fun x => x) elems 0 ++ named)
  | VObj props => Ok props
  end.

(** [target.k = v] where [k] is not an integer key (the native operator
    names): a TypeError on a primitive in strict mode. *)
Definition assign_named (target : value) (k : string) (v : value) : result value :=
  match target with
  | VObj props => Ok (VObj (js_set props k v))
  | VArr elems named => Ok (VArr elems (js_set named k v))
  | _ => Throw TypeError
  end.

(** [target.push(x)]: only an array has a [push] method. *)
Definition push (target : value) (x : value) : result value :=
  match target with
  | VArr elems named => Ok (VArr (elems ++ [x]) named)
  | _ => Throw TypeError
  end.

(** js-data [utils.plainCopy]: a deep copy made of plain objects and
    arrays; an array keeps its elements only. *)
Fixpoint plainCopy (v : value) : value :=
  match v with
  | VArr elems _ => VArr (map plainCopy elems) []
  | VObj props => VObj (map (fun kv => match kv with (k, x) => (k, plainCopy x) end) props)
  | _ => v
  end.

Definition plainCopy_obj (o : obj) : obj :=
  map (fun kv => match kv with (k, x) => (k, plainCopy x) end) o.

(** ** Abstract queries *)

(** A selection query: its [where] property, an object when present, and
    its other top-level properties. *)
Record query : Type := Query {
  q_where : option obj;
  q_params : obj
}.

(** The query as the one object it is, for the hooks that are given it. *)
Definition query_value (q : query) : value :=
  VObj (match q_where q with
        | Some w => ("where", VObj w) :: q_params q
        | None => q_params q
        end).

(** ** getQuery (lines 286-396) *)

Inductive op_kind : Type :=
| OpEq
| OpSub (native : string)
| OrEq
| OrSub (native : string)
| OpUnknown.

(** The operator table, in the order of the [if]/[else if] chain. *)
Definition classify (op : string) : op_kind :=
  if (op =? "==") || (op =? "===") || (op =? "contains") then OpEq
  else if (op =? "!=") || (op =? "!==") || (op =? "notContains") then OpSub "$ne"
  else if op =? ">" then OpSub "$gt"
  else if op =? ">=" then OpSub "$gte"
  else if op =? "<" then OpSub "$lt"
  else if op =? "<=" then OpSub "$lte"
  else if op =? "in" then OpSub "$in"
  else if op =? "notIn" then OpSub "$nin"
  else if (op =? "|==") || (op =? "|===") || (op =? "|contains") then OrEq
  else if (op =? "|!=") || (op =? "|!==") || (op =? "|notContains") then OrSub "$ne"
  else if op =? "|>" then OrSub "$gt"
  else if op =? "|>=" then OrSub "$gte"
  else if op =? "|<" then OrSub "$lt"
  else if op =? "|<=" then OrSub "$lte"
  else if op =? "|in" then OrSub "$in"
  else if op =? "|notIn" then OrSub "$nin"
  else OpUnknown.

(** [x || dflt]. *)
Definition or_default (x dflt : value) : value :=
  if truthy x then x else dflt.

(** [mongoQuery.$or = mongoQuery.$or || []; mongoQuery.$or.push(clause)]. *)
Definition push_or (mongoQuery : obj) (clause : value) : result obj :=
  let cur := or_default (prop mongoQuery "$or") (arr []) in
  let mongoQuery := js_set mongoQuery "$or" cur in
  rbind (push cur clause) (fun cur' => Ok (js_set mongoQuery "$or" cur')).

(** The body of the inner [forOwn] callback (lines 312-391). *)
Definition apply_op (field : string) (mongoQuery : obj) (op : string) (v : value)
  : result obj :=
  match classify op with
  | OpEq => Ok (js_set mongoQuery field v)
  | OpSub native =>
      let cur := or_default (prop mongoQuery field) (VObj []) in
      let mongoQuery := js_set mongoQuery field cur in
      rbind (assign_named cur native v)
            (fun cur' => Ok (js_set mongoQuery field cur'))
  | OrEq => push_or mongoQuery (VObj [(field, v)])
  | OrSub native => push_or mongoQuery (VObj [(field, VObj [(native, v)])])
  | OpUnknown => Ok mongoQuery
  end.

Fixpoint forOwn_ops (field : string) (entries : obj) (mongoQuery : obj) : result obj :=
  match entries with
  | [] => Ok mongoQuery
  | (op, v) :: rest =>
      rbind (apply_op field mongoQuery op v) (forOwn_ops field rest)
  end.

(** The outer [forOwn] callback (lines 306-392): the operators are read
    from [criteria] as it was passed in, also when it is not an object. *)
Definition translate_field (field : string) (criteria : value) (mongoQuery : obj)
  : result obj :=
  rbind (own_entries criteria) (fun entries => forOwn_ops field entries mongoQuery).

Fixpoint translate_where (where_ : obj) (mongoQuery : obj) : result obj :=
  match where_ with
  | [] => Ok mongoQuery
  | (field, criteria) :: rest =>
      rbind (translate_field field criteria mongoQuery) (translate_where rest)
  end.

Section Translator.

(** [Adapter.reserved] of js-data-adapter: the top-level keywords that
    are not filters. *)
Variable reserved : list string.

(** Unary plus. *)
Variable toNumber : value -> value.

Definition is_reserved (keyword : string) : bool :=
  existsb (String.eqb keyword) reserved.

(** The first [forOwn] (lines 290-301): every top-level property that is
    not reserved moves into [where]. *)
Fixpoint fold_params (params : obj) (where_ : obj) : obj :=
  match params with
  | [] => where_
  | (keyword, config) :: rest =>
      if is_reserved keyword then fold_params rest where_
      else
        let clause := if isObject config then config
                      else VObj [("==", config)] in
        fold_params rest (js_set where_ keyword clause)
  end.

(** [query.where] after lines 287-301. *)
Definition normalized_where (q : query) : obj :=
  let where_ := match q_where q with
                | Some w => plainCopy_obj w
                | None => []
                end in
  fold_params (plainCopy_obj (q_params q)) where_.

(** Were [where] not reserved, line 293 would store the [where] object
    under itself and line 299 would delete it from the query: the next
    use of [query.where] (line 293, 295 or 305) throws a TypeError. *)
Definition getQuery (q : query) : result obj :=
  if is_reserved "where" then translate_where (normalized_where q) []
  else Throw TypeError.

(** ** getQueryOptions (lines 412-440) *)

Definition asc_pair (s : string) : value := arr [VStr s; VStr "asc"].

Definition wrap_field (v : value) : value :=
  match v with VStr s => asc_pair s | _ => v end.

(** The [for] loop of lines 423-427 on an object that carries a
    [length]: a string found at an index below it is wrapped. *)
Fixpoint wrap_indices (o : obj) (i n : nat) : obj :=
  match n with
  | O => o
  | S n' =>
      let o' := match js_get o (index_key i) with
                | Some (VStr s) => js_set o (index_key i) (asc_pair s)
                | _ => o
                end in
      wrap_indices o' (S i) n'
  end.

Definition length_bound (len : value) : nat :=
  match toNumber len with
  | VNum n => Z.to_nat n
  | _ => 0
  end.

Definition normalize_orderBy (orderBy : value) : value :=
  match orderBy with
  | VStr s => arr [asc_pair s]
  | VArr elems named => VArr (map wrap_field elems) named
  | VObj props =>
      match js_get props "length" with
      | Some len => VObj (wrap_indices props 0 (length_bound len))
      | None => orderBy
      end
  | _ => orderBy
  end.

Definition getQueryOptions (q : query) : obj :=
  let params := plainCopy_obj (q_params q) in
  let orderBy := or_default (prop params "orderBy") (prop params "sort") in
  let skip := or_default (prop params "skip") (prop params "offset") in
  let queryOptions : obj := [] in
  let queryOptions :=
    if truthy orderBy then js_set queryOptions "sort" (normalize_orderBy orderBy)
    else queryOptions in
  let queryOptions :=
    if truthy skip then js_set queryOptions "skip" (toNumber skip)
    else queryOptions in
  let limit := prop params "limit" in
  if truthy limit then js_set queryOptions "limit" (toNumber limit)
  else queryOptions.

End Translator.

(** ** Helpers of js-data, mout and bson *)

(** [v[k]]: a property read throws on [undefined] and [null] only. *)
Definition get_member (v : value) (k : string) : result value :=
  match v with
  | VUndefined | VNull => Throw TypeError
  | VObj o => Ok (prop o k)
  | VArr elems named =>
      match array_index k with
      | Some n => Ok (nth (N.to_nat n) elems VUndefined)
      | None => if k =? "length" then Ok (VNum (Z.of_nat (List.length elems)))
                else Ok (prop named k)
      end
  | VStr s =>
      match array_index k with
      | Some n => Ok (nth (N.to_nat n) (map VStr (chars s)) VUndefined)
      | None => if k =? "length" then Ok (VNum (Z.of_nat (String.length s)))
                else Ok VUndefined
      end
  | VBool _ | VNum _ => Ok VUndefined
  end.

(** The receiver of [.map] and [.forEach]: anything but an array has no
    such method. *)
Definition as_array (v : value) : result (list value) :=
  match v with
  | VArr elems _ => Ok elems
  | _ => Throw TypeError
  end.

(** [a === b].  Two objects met at different places of a document are
    different references. *)
Definition strict_eq (a b : value) : bool :=
  match a, b with
  | VUndefined, VUndefined => true
  | VNull, VNull => true
  | VBool x, VBool y => Bool.eqb x y
  | VNum x, VNum y => (x =? y)%Z
  | VStr x, VStr y => x =? y
  | _, _ => false
  end.

(** [items.indexOf(x) !== -1]. *)
Definition includes (items : list value) (x : value) : bool :=
  existsb (fun y => strict_eq y x) items.

(** mout [array/unique]: an item is dropped when an equal one follows. *)
Fixpoint unique (l : list value) : list value :=
  match l with
  | [] => []
  | x :: l' => if existsb (strict_eq x) l' then unique l' else x :: unique l'
  end.

(** js-data [utils.fillIn]: the properties of [src] that [dest] lacks. *)
Fixpoint fillIn (dest src : obj) : obj :=
  match src with
  | [] => dest
  | (k, v) :: src' =>
      match js_get dest k with
      | Some VUndefined | None => fillIn (js_set dest k v) src'
      | Some _ => fillIn dest src'
      end
  end.

(** js-data [utils.omit]. *)
Definition omit (props : value) (keys : list string) : result obj :=
  rbind (own_entries props) (fun entries =>
    Ok (fold_left (fun _props kv =>
                     if existsb (String.eqb (fst kv)) keys then _props
                     else js_set _props (fst kv) (snd kv))
                  entries [])).

(** [new bson.ObjectID(id)]: an object with the tag the driver goes by and
    the id it was made from. *)
Definition ObjectID (id : string) : value :=
  VObj [("_bsontype", VStr "ObjectID"); ("id", VStr id)].

Definition isObjectID (v : value) : bool :=
  match v with
  | VObj o => match js_get o "_bsontype" with
              | Some (VStr t) => t =? "ObjectID"
              | _ => false
              end
  | _ => false
  end.

(** ** Descriptors *)

Record mapper : Type := Mapper {
  name : string;
  table : option string;
  idAttribute : string;
  relationFields : list string
}.

Inductive relation_type : Type := belongsTo | hasOne | hasMany.

Record relation : Type := Relation {
  type : relation_type;
  foreignKey : option string;
  localKeys : option string;
  foreignKeys : option string;
  localField : string
}.

(** A key name of a descriptor, as a condition: set and not empty. *)
Definition is_set (k : option string) : bool :=
  match k with Some s => negb (s =? "") | None => false end.

Definition key_name (k : option string) : string :=
  match k with Some s => s | None => "undefined" end.

Definition is_hasMany (t : relation_type) : bool :=
  match t with hasMany => true | _ => false end.

(** The options of one call; an absent option falls back on the
    adapter's. *)
Record opts : Type := Opts {
  o_raw : option bool;
  o_translateId : option bool;
  o_findOpts : option obj;
  o_findOneOpts : option obj;
  o_updateOpts : option obj
}.

(** [{ raw: false }]. *)
Definition raw_false : opts := Opts (Some false) None None None None.

(** What js-data's [forEachRelation(mapper, opts, fn)] visits: the
    relations of [mapper] that [opts.with] selects, each with the mapper
    [def.getRelation()] and the options [__opts] of the nested read. *)
#[warnings="-register-all"]
Inductive plan : Type :=
| Plan (m : mapper) (o : opts) (rels : list (relation * plan)).

Definition plan_mapper (p : plan) : mapper :=
  match p with Plan m _ _ => m end.


(** ** The store and the call trace *)

Inductive event : Type :=
| Hook (op : string)
| FindOne (collection : string) (filter options : obj)
| Find (collection : string) (filter options : obj)
| UpdateOne (collection : string) (filter update options : obj)
| UpdateMany (collection : string) (filter update options : obj).

Inductive loader : Type := LoadHasOne | LoadHasMany | LoadBelongsTo.

Section Executor.

(** The state of the database. *)
Context {DB : Type}.

Record world : Type := World {
  db : DB;
  trace : list event
}.

(** A promise chain: it settles with a value or a rejection, and leaves
    the store and the calls made so far. *)
Definition M (A : Type) : Type := world -> result A * world.

Definition ret {A} (a : A) : M A := fun w => (Ok a, w).

Definition bind {A B} (c : M A) (k : A -> M B) : M B :=
  fun w => match c w with
           | (Ok a, w') => k a w'
           | (Throw e, w') => (Throw e, w')
           end.

Definition throw {A} (e : error) : M A := fun w => (Throw e, w).

Definition lift {A} (r : result A) : M A := fun w => (r, w).

Definition log (e : event) : M unit :=
  fun w => (Ok tt, World (db w) (trace w ++ [e])).

Definition read {A} (f : DB -> result A) : M A :=
  fun w => (f (db w), w).

Definition write {A} (f : DB -> result A * DB) : M A :=
  fun w => let (r, d) := f (db w) in (r, World d (trace w)).

Notation "x <- c ;; k" := (bind c (fun x => k))
  (at level 61, c at next level, right associativity).
Notation "c ;;; k" := (bind c (fun _ => k))
  (at level 61, right associativity).

(** The adapter instance and what it is given from outside: the base
    adapter, the driver, and the helpers of bson and mout. *)
Record Host : Type := {
  (** the adapter's own options *)
  raw : bool;
  translateId : bool;
  findOpts : obj;
  findOneOpts : obj;
  updateOpts : obj;
  (** [Adapter.reserved], unary plus, [toString()], [ObjectID.isValid],
      mout's [underscore] *)
  reserved : list string;
  toNumber : value -> value;
  js_toString : value -> string;
  ObjectID_isValid : string -> bool;
  underscore : string -> string;
  (** the promise [self.client] *)
  client : result unit;
  (** the driver *)
  native_findOne : string -> obj -> obj -> DB -> result (option obj);
  native_find : string -> obj -> obj -> DB -> result (list obj);
  native_updateOne : string -> obj -> obj -> obj -> DB -> result obj * DB;
  native_updateMany : string -> obj -> obj -> obj -> DB -> result obj * DB;
  (** the lifecycle hooks: what the named hook resolves to, given the
      values it is called with *)
  hook : string -> list value -> result value;
  (** the loaders of the base adapter, on a batch and on one record *)
  load : loader -> mapper -> relation -> plan -> list obj -> M (list obj);
  load1 : loader -> mapper -> relation -> plan -> obj -> M obj;
  makeHasManyForeignKeys : mapper -> relation -> obj -> value
}.

Variable self : Host.

Definition getOpt {A} (own : Host -> A) (given : opts -> option A) (o : opts) : A :=
  match given o with
  | Some x => x
  | None => own self
  end.

Definition getClient : M unit := lift (client self).

(** [resolve(self[op](...))]: the hook is called, then awaited. *)
Definition run_hook (op : string) (args : list value) : M value :=
  log (Hook op) ;;; lift (hook self op args).

(** [mapper.table || underscore(mapper.name)]. *)
Definition collection_of (m : mapper) : string :=
  if is_set (table m) then key_name (table m) else underscore self (name m).

(** ** toObjectID (lines 450-455) *)
Definition toObjectID (m : mapper) (id : value) : value :=
  match id with
  | VStr s =>
      if (idAttribute m =? "_id") && ObjectID_isValid self s then ObjectID s
      else id
  | _ => id
  end.

(** ** _translateId (lines 242-256) *)
Definition translate_record (_r : obj) : obj :=
  let __id := if truthy (prop _r "_id")
              then VStr (js_toString self (prop _r "_id"))
              else prop _r "_id" in
  js_set _r "_id" (if isString __id then __id else prop _r "_id").

Definition _translateId (r : list obj) (o : opts) : list obj :=
  if getOpt translateId o_translateId o then map translate_record r else r.

Definition _translateId1 (r : obj) (o : opts) : obj :=
  if getOpt translateId o_translateId o then translate_record r else r.

(** ** Responses *)

(** [new Adapter.Response(data, meta, op)]. *)
Definition Response (data : value) (meta : obj) (op : string) : obj :=
  js_set (fillIn [("data", data)] meta) "op" (VStr op).

(** [self.respond(response, opts)]. *)
Definition respond (response : obj) (o : opts) : value :=
  if getOpt raw o_raw o then VObj response else prop response "data".

(** [isUndefined(_response) ? response : _response]. *)
Definition reassign (given dflt : value) : value :=
  match given with VUndefined => dflt | _ => given end.

Definition with_fields (options : obj) : obj :=
  if truthy (prop options "fields") then options
  else js_set options "fields" (VObj []).

(** The keys a record lists under [def.localKeys], an array or the keys
    of a mapping. *)
Definition keys_of (itemKeys : value) : list value :=
  let itemKeys := or_default itemKeys (arr []) in
  match itemKeys with
  | VArr elems _ => elems
  | _ => match own_entries itemKeys with
         | Ok entries => map (fun kv => VStr (fst kv)) entries
         | Throw _ => []
         end
  end.

(** The query of the related records (lines 629-636 and 529-536). *)
Definition localKeys_query (relatedMapper : mapper) (localKeys_ : list value) : query :=
  Query (Some [(idAttribute relatedMapper,
                VObj [("in", arr (map (toObjectID relatedMapper)
                                      (filter truthy (unique localKeys_))))])])
        [].

(** Lines 642-646: the related records whose identifier [itemKeys]
    lists, in fetch order. *)
Fixpoint attached_to (relatedMapper : mapper) (itemKeys : list value)
         (relatedItems : list value) : result (list value) :=
  match relatedItems with
  | [] => Ok []
  | relatedItem :: rest =>
      rbind (get_member relatedItem (idAttribute relatedMapper)) (fun id =>
      rbind (attached_to relatedMapper itemKeys rest) (fun attached =>
        Ok (if includes itemKeys id then relatedItem :: attached else attached)))
  end.

(** Lines 638-648: [records.forEach], with [relatedItems.forEach] inside. *)
Fixpoint attach_all (relatedMapper : mapper) (def : relation)
         (relatedItems : value) (records : list obj) : result (list obj) :=
  match records with
  | [] => Ok []
  | item :: rest =>
      rbind (as_array relatedItems) (fun items =>
      rbind (attached_to relatedMapper
               (keys_of (prop item (key_name (localKeys def)))) items)
        (fun attached =>
      rbind (attach_all relatedMapper def relatedItems rest) (fun rest' =>
        Ok (js_set item (localField def) (arr attached) :: rest'))))
  end.

(** [Promise.all(tasks)].  Every task was started by the callback that
    made it and runs whatever becomes of the others; the first
    rejection is the rejection of the whole.  The tasks are taken one
    after the other, in the order in which they were started, where the
    code lets their steps interleave; a task that fails leaves the
    records to the next as it found them. *)
Fixpoint run_tasks {A} (tasks : list (A -> M A)) (a : A) : M A :=
  match tasks with
  | [] => ret a
  | t :: rest =>
      fun w => match t a w with
               | (Ok a', w') => run_tasks rest a' w'
               | (Throw e, w') => (Throw e, snd (run_tasks rest a w'))
               end
  end.

(** [self.findAll(relatedMapper, query, __opts)] as a callback calls
    it: the call translates the query (line 596) before it makes its
    promise, so it throws what [getQuery] throws; the read itself is
    the task. *)
Definition start_read (read_related : query -> M value) (q : query)
  : result (M value) :=
  rbind (getQuery (reserved self) q) (fun _ => Ok (read_related q)).

(** ** findAll (lines 586-675) *)

(** The callback of [forEachRelation] (lines 612-660): the task of one
    relation, started by the callback on the records as read, or the
    error the callback throws.  [read_related] is
    [self.findAll(relatedMapper, _, __opts)]. *)
Definition findAll_task (m : mapper) (records : list obj)
           (def : relation) (sub : plan) (read_related : query -> M value)
  : result (option (list obj -> M (list obj))) :=
  let relatedMapper := plan_mapper sub in
  if is_set (foreignKey def) &&
     (match type def with hasOne | hasMany => true | _ => false end)
  then
    if is_hasMany (type def)
    then Ok (Some (load self LoadHasMany m def sub))
    else Ok (Some (load self LoadHasOne m def sub))
  else if is_hasMany (type def) && is_set (localKeys def) then
    let localKeys_ :=
      flat_map (fun item => keys_of (prop item (key_name (localKeys def)))) records in
    rbind (start_read read_related (localKeys_query relatedMapper localKeys_))
          (fun reading =>
             Ok (Some (fun records =>
               relatedItems <- reading ;;
               lift (attach_all relatedMapper def relatedItems records))))
  else if is_hasMany (type def) && is_set (foreignKeys def) then
    Throw (Error "findAll eager load hasMany foreignKeys not supported!")
  else match type def with
       | belongsTo => Ok (Some (load self LoadBelongsTo m def sub))
       | _ => Ok None
       end.

(** The loop of [forEachRelation] (lines 612-660 and 514-554): each
    callback starts the task of its relation and pushes it on [tasks];
    the loop stops at the first callback that throws, and the tasks
    started by then stay started. *)
Fixpoint collect_tasks {A} (callback : relation -> plan -> result (option A))
         (rels : list (relation * plan)) : list A * option error :=
  match rels with
  | [] => ([], None)
  | (def, sub) :: rest =>
      match callback def sub with
      | Throw e => ([], Some e)
      | Ok task =>
          let started := collect_tasks callback rest in
          (match task with Some t => t :: fst started | None => fst started end,
           snd started)
      end
  end.

(** [forEachRelation(...); return Promise.all(tasks)] in a [then]
    (lines 612-661 and 514-556): what a callback throws rejects the
    chain; the tasks started before it are not waited for, but they run
    on, and what they ask of the store is asked. *)
Definition Promise_all {A} (started : list (A -> M A) * option error) (a : A) : M A :=
  match snd started with
  | None => run_tasks (fst started) a
  | Some e => fun w => (Throw e, snd (run_tasks (fst started) a w))
  end.

Fixpoint findAll (p : plan) (q : query) {struct p} : M value :=
  match p with
  | Plan m o rels =>
      let findOpts_ :=
        with_fields (fillIn (plainCopy_obj (getOpt findOpts o_findOpts o))
                            (getQueryOptions (toNumber self) q)) in
      mongoQuery <- lift (getQuery (reserved self) q) ;;
      getClient ;;;
      run_hook "beforeFindAll" [query_value q] ;;;
      log (Find (collection_of m) mongoQuery findOpts_) ;;;
      _records <- read (native_find self (collection_of m) mongoQuery findOpts_) ;;
      let records := _translateId _records o in
      records <- Promise_all
                   (collect_tasks
                      (fun def sub => findAll_task m records def sub (findAll sub))
                      rels)
                   records ;;
      let response := Response (arr (map VObj records)) [] "findAll" in
      let response := js_set response "found" (VNum (Z.of_nat (List.length records))) in
      let response := respond response o in
      _response <- run_hook "afterFindAll" [query_value q; response] ;;
      ret (reassign _response response)
  end.

(** ** find (lines 484-569) *)

(** The callback of [forEachRelation] (lines 514-554): the task of one
    relation, started by the callback, or the error the callback
    throws. *)
Definition find_task (m : mapper) (record : obj) (def : relation) (sub : plan)
  : result (option (obj -> M obj)) :=
  let relatedMapper := plan_mapper sub in
  if is_set (foreignKey def) &&
     (match type def with hasOne | hasMany => true | _ => false end)
  then
    match type def with
    | hasOne => Ok (Some (load1 self LoadHasOne m def sub))
    | _ => Ok (Some (load1 self LoadHasMany m def sub))
    end
  else if is_hasMany (type def) && is_set (localKeys def) then
    let localKeys_ := keys_of (prop record (key_name (localKeys def))) in
    rbind (start_read (findAll sub) (localKeys_query relatedMapper localKeys_))
          (fun reading =>
             Ok (Some (fun record =>
               relatedItems <- reading ;;
               ret (js_set record (localField def) relatedItems))))
  else if is_hasMany (type def) && is_set (foreignKeys def) then
    let keys := makeHasManyForeignKeys self m def record in
    rbind (start_read (findAll sub)
                      (Query (Some [(key_name (foreignKeys def),
                                     VObj [("contains", keys)])]) []))
          (fun reading =>
             Ok (Some (fun record =>
               relatedItems <- reading ;;
               ret (js_set record (localField def) relatedItems))))
  else match type def with
       | belongsTo => Ok (Some (load1 self LoadBelongsTo m def sub))
       | _ => Ok None
       end.

Definition find (p : plan) (id : value) : M value :=
  match p with
  | Plan m o rels =>
      let findOneOpts_ := with_fields (plainCopy_obj (getOpt findOneOpts o_findOneOpts o)) in
      getClient ;;;
      run_hook "beforeFind" [id] ;;;
      let mongoQuery := js_set [] (idAttribute m) (toObjectID m id) in
      log (FindOne (collection_of m) mongoQuery findOneOpts_) ;;;
      _record <- read (native_findOne self (collection_of m) mongoQuery findOneOpts_) ;;
      record <-
        match _record with
        | None => ret VUndefined
        | Some _record =>
            let record := _translateId1 _record o in
            record <- Promise_all (collect_tasks (find_task m record) rels) record ;;
            ret (VObj record)
        end ;;
      let response := Response record [] "find" in
      let response := js_set response "found" (VNum (if truthy record then 1 else 0)) in
      let response := respond response o in
      _response <- run_hook "afterFind" [id; response] ;;
      ret (reassign _response response)
  end.

Definition withoutRelations (m : mapper) (props : value) : result obj :=
  omit props (relationFields m).

(** ** update (lines 901-944) *)
Definition update (m : mapper) (id : value) (props : obj) (o : opts) : M value :=
  let updateOpts_ := plainCopy_obj (getOpt updateOpts o_updateOpts o) in
  record <- find (Plan m raw_false []) id ;;
  (if truthy record then ret tt else throw (Error "Not Found")) ;;;
  _props <- run_hook "beforeUpdate" [id; VObj props] ;;
  let props := reassign _props (VObj props) in
  _props <- lift (withoutRelations m props) ;;
  getClient ;;;
  let mongoQuery := js_set [] (idAttribute m) (toObjectID m id) in
  let set_ := [("$set", VObj _props)] in
  log (UpdateOne (collection_of m) mongoQuery set_ updateOpts_) ;;;
  cursor <- write (native_updateOne self (collection_of m) mongoQuery set_ updateOpts_) ;;
  record <- find (Plan m raw_false []) id ;;
  let cursor := js_set cursor "connection" VUndefined in
  let response := Response record cursor "update" in
  let response := js_set response "updated" (VNum 1) in
  let response := respond response o in
  _response <- run_hook "afterUpdate" [id; props; response] ;;
  ret (reassign _response response).

(** [var query = {}; query[mapper.idAttribute] = { 'in': ids }]. *)
Definition ids_query (m : mapper) (ids : list value) : query :=
  if idAttribute m =? "where" then Query (Some [("in", arr ids)]) []
  else Query None [(idAttribute m, VObj [("in", arr ids)])].

Fixpoint map_result {A B} (f : A -> result B) (l : list A) : result (list B) :=
  match l with
  | [] => Ok []
  | x :: l' => rbind (f x) (fun y => rbind (map_result f l') (fun ys => Ok (y :: ys)))
  end.

(** ** updateAll (lines 961-1014) *)

(** The [query] that [afterUpdateAll] is given is the one declared on
    line 995, the query by identifiers. *)
Definition updateAll (m : mapper) (props : obj) (q : query) (o : opts) : M value :=
  let updateOpts_ := js_set (plainCopy_obj (getOpt updateOpts o_updateOpts o))
                            "multi" (VBool true) in
  getClient ;;;
  let queryOptions := getQueryOptions (toNumber self) q in
  mongoQuery <- lift (getQuery (reserved self) q) ;;
  _props <- run_hook "beforeUpdateAll" [VObj props; query_value q] ;;
  let props := reassign _props (VObj props) in
  _props <- lift (withoutRelations m props) ;;
  let queryOptions := js_set queryOptions "$set" (VObj _props) in
  records <- findAll (Plan m raw_false []) q ;;
  records <- lift (as_array records) ;;
  ids <- lift (map_result (fun record =>
                 rbind (get_member record (idAttribute m)) (fun id =>
                   Ok (toObjectID m id))) records) ;;
  log (UpdateMany (collection_of m) mongoQuery queryOptions updateOpts_) ;;;
  cursor <- write (native_updateMany self (collection_of m) mongoQuery queryOptions updateOpts_) ;;
  records <- findAll (Plan m raw_false []) (ids_query m ids) ;;
  let cursor := js_set cursor "connection" VUndefined in
  let response := Response records cursor "update" in
  updated <- lift (get_member records "length") ;;
  let response := js_set response "updated" updated in
  let response := respond response o in
  _response <- run_hook "afterUpdateAll" [props; query_value (ids_query m ids); response] ;;
  ret (reassign _response response).

(** ** updateMany (lines 1023-1025) *)
Definition updateMany (m : mapper) (records : list obj) (o : opts) : M value :=
  throw (Error "not supported!").

End Executor.

Arguments world : clear implicits.
Arguments M : clear implicits.
Arguments Host : clear implicits.

(** ** A host to run the executor on: an in-memory store *)

(** js-data-adapter's list of reserved keywords. *)
Definition Adapter_reserved : list string :=
  ["orderBy"; "sort"; "limit"; "offset"; "skip"; "where"].

Definition toNumber_int (v : value) : value :=
  match v with
  | VBool b => VNum (if b then 1 else 0)
  | VNull => VNum 0
  | _ => v
  end.

Definition memory_db : Type := list (string * list obj).

Definition documents (collection : string) (d : memory_db) : list obj :=
  match List.find (fun c => fst c =? collection) d with
  | Some c => snd c
  | None => []
  end.

(** A filter of equalities and [$in] lists on primitive values. *)
Definition memory_matches (filter doc : obj) : bool :=
  forallb (fun kc : string * value =>
             match snd kc with
             | VObj [("$in", VArr l _)] => includes l (prop doc (fst kc))
             | c => strict_eq (prop doc (fst kc)) c
             end) filter.

Definition memory_find (collection : string) (filter options : obj) (d : memory_db)
  : result (list obj) :=
  Ok (List.filter (memory_matches filter) (documents collection d)).

Definition memory_findOne (collection : string) (filter options : obj) (d : memory_db)
  : result (option obj) :=
  Ok (List.find (memory_matches filter) (documents collection d)).

Definition memory_set (update doc : obj) : obj :=
  match js_get update "$set" with
  | Some (VObj fields) => fold_left (fun doc kv => js_set doc (fst kv) (snd kv)) fields doc
  | _ => doc
  end.

Definition memory_update (collection : string) (filter update options : obj)
           (d : memory_db) : result obj * memory_db :=
  (Ok [("modifiedCount",
        VNum (Z.of_nat (List.length (List.filter (memory_matches filter)
                                                 (documents collection d)))))],
   map (fun c : string * list obj =>
          if fst c =? collection
          then (fst c, map (fun doc => if memory_matches filter doc
                                       then memory_set update doc else doc) (snd c))
          else c) d).

(** bson's [ObjectID.isValid] on a string: twelve characters, or
    twenty-four hexadecimal digits. *)
Definition is_hex_digit (c : ascii) : bool :=
  let n := N_of_ascii c in
  ((48 <=? n) && (n <=? 57) || (65 <=? n) && (n <=? 70)
   || (97 <=? n) && (n <=? 102))%N.

Definition bson_isValid (s : string) : bool :=
  (String.length s =? 12)%nat
  || (String.length s =? 24)%nat && forallb is_hex_digit (list_ascii_of_string s).

(** bson's [toHexString] of the ObjectID made from a string: the
    twenty-four digits in lower case, or the two digits of each of the
    twelve characters. *)
Definition hex_digit (n : N) : ascii :=
  ascii_of_N (if (n <? 10)%N then 48 + n else 87 + n).

Definition hex_of_char (c : ascii) : string :=
  let n := N_of_ascii c in
  String (hex_digit (n / 16)) (String (hex_digit (n mod 16)) EmptyString).

Definition lower_case (c : ascii) : ascii :=
  let n := N_of_ascii c in
  if ((65 <=? n) && (n <=? 90))%N then ascii_of_N (n + 32) else c.

Definition bson_toHexString (s : string) : string :=
  if (String.length s =? 24)%nat
  then string_of_list_ascii (map lower_case (list_ascii_of_string s))
  else String.concat "" (map hex_of_char (list_ascii_of_string s)).

(** [toString()] of a value: a string is itself, a number its decimal
    digits, an array its elements joined by commas, an ObjectID its
    hexadecimal string, another object ['[object Object]'].  The code
    calls it on truthy values only (lines 247 and 251). *)
Fixpoint memory_toString (v : value) : string :=
  match v with
  | VUndefined => "undefined"
  | VNull => "null"
  | VBool b => if b then "true" else "false"
  | VNum n => NilZero.string_of_int (Z.to_int n)
  | VStr s => s
  | VArr elems _ =>
      String.concat ","
        (map (fun x => match x with
                       | VUndefined | VNull => ""
                       | _ => memory_toString x
                       end) elems)
  | VObj props =>
      if isObjectID (VObj props)
      then match js_get props "id" with
           | Some (VStr s) => bson_toHexString s
           | _ => "[object Object]"
           end
      else "[object Object]"
  end.

Definition memory_host : Host memory_db := {|
  raw := false;
  translateId := true;
  findOpts := [];
  findOneOpts := [];
  updateOpts := [];
  reserved := Adapter_reserved;
  toNumber := toNumber_int;
  js_toString := memory_toString;
  ObjectID_isValid := bson_isValid;
  underscore := fun s => s;
  client := Ok tt;
  native_findOne := memory_findOne;
  native_find := memory_find;
  native_updateOne := memory_update;
  native_updateMany := memory_update;
  hook := fun _ _ => Ok VUndefined;
  load := fun _ _ _ _ records => ret records;
  load1 := fun _ _ _ _ record => ret record;
  makeHasManyForeignKeys := fun _ _ _ => VUndefined
|}.

Definition no_opts : opts := Opts None None None None None.

(** The scenario of the hasMany-by-localKeys batch. *)
Definition parent_mapper : mapper := Mapper "parent" None "id" ["children"].
Definition child_mapper : mapper := Mapper "child" None "id" [].
Definition children_def : relation :=
  Relation hasMany None (Some "localKeys") None "children".
Definition parent1 : obj := [("id", VNum 1); ("localKeys", arr [VNum 10; VNum 20])].
Definition parent2 : obj := [("id", VNum 2); ("localKeys", arr [VNum 20; VNum 30])].
Definition child (n : Z) : obj := [("id", VNum n)].
Definition family_db : memory_db :=
  [("parent", [parent1; parent2]); ("child", [child 10; child 20; child 30; child 40])].

Definition scenario_query : query :=
  Query None [("status", VStr "active"); ("age", VObj [(">", VNum 18)]);
              ("orderBy", VStr "name"); ("limit", VNum 10)].

(** ** More stores and descriptors to run on *)

Definition mixed_where : obj :=
  [("age", VObj [(">", VNum 18); ("<=", VNum 65)]);
   ("status", VObj [("==", VStr "active")]);
   ("role", VObj [("|==", VStr "admin")]);
   ("team", VObj [("|in", arr [VStr "core"])])].

Definition family_world : world memory_db := World family_db [].

(** A many-to-many relation: the children that list the parent. *)
Definition tags_def : relation :=
  Relation hasMany None None (Some "parent_ids") "tags".

Definition tags_plan : plan :=
  Plan parent_mapper no_opts [(children_def, Plan child_mapper no_opts []);
                              (tags_def, Plan child_mapper no_opts [])].

(** Four users, three of them active. *)
Definition user_mapper : mapper := Mapper "user" None "id" [].

Definition user (id : Z) (status : string) : obj :=
  [("id", VNum id); ("status", VStr status)].

Definition users_db : memory_db :=
  [("user", [user 1 "active"; user 2 "inactive"; user 3 "active"; user 4 "active"])].

Definition updated_user (id : Z) (status : string) : obj :=
  user id status ++ [("flag", VBool true)].

Definition users_db' : memory_db :=
  [("user", [updated_user 1 "active"; user 2 "inactive";
             updated_user 3 "active"; updated_user 4 "active"])].

Definition active_query : query := Query None [("status", VStr "active")].



(** A collection keyed by [_id], with the children of the scenario. *)
Definition user_by_oid : mapper := Mapper "account" None "_id" ["children"].


(** * The vocabulary of the statements *)

Definition where_of (q : query) : obj :=
  match q_where q with Some w => w | None => [] end.

(** Two criteria that the translation cannot tell apart. *)
Definition same_clauses (x y : value) : Prop :=
  isObject x = isObject y
  /\ (isObject x = false -> x = y)
  /\ forall field mongoQuery,
       translate_field field x mongoQuery = translate_field field y mongoQuery.

Definition same_entries (o o' : obj) : Prop :=
  Forall2 (fun kv kv' => fst kv = fst kv' /\ same_clauses (snd kv) (snd kv')) o o'.

(** [c'] is the criteria object [c] without one pair [(op, v)]. *)
Inductive criteria_without (op : string) (v : value) : value -> value -> Prop :=
| criteria_without_pair (c1 c2 : obj) :
    criteria_without op v (VObj (c1 ++ (op, v) :: c2)) (VObj (c1 ++ c2)).

(** The same query without one pair, under [where] or at the top level. *)
Inductive query_without (op : string) (v : value) : query -> query -> Prop :=
| without_in_where (w1 w2 : obj) (field : string) (c c' : value) (params : obj) :
    criteria_without op v c c' ->
    query_without op v (Query (Some (w1 ++ (field, c) :: w2)) params)
                       (Query (Some (w1 ++ (field, c') :: w2)) params)
| without_in_params (where_ : option obj) (p1 p2 : obj) (field : string)
                    (c c' : value) :
    criteria_without op v c c' ->
    query_without op v (Query where_ (p1 ++ (field, c) :: p2))
                       (Query where_ (p1 ++ (field, c') :: p2)).

Definition value_of (cur : option value) : value :=
  match cur with Some x => x | None => VUndefined end.

(** The effect of one operator on the native value of its field. *)
Definition field_step (cur : option value) (op : string) (v : value)
  : result (option value) :=
  match classify op with
  | OpEq => Ok (Some v)
  | OpSub native =>
      rbind (assign_named (or_default (value_of cur) (VObj [])) native v)
            (fun x => Ok (Some x))
  | _ => Ok cur
  end.

Fixpoint field_steps (cur : option value) (entries : obj) : result (option value) :=
  match entries with
  | [] => Ok cur
  | (op, v) :: rest => rbind (field_step cur op v) (fun cur' => field_steps cur' rest)
  end.

Definition field_value (cur : option value) (criteria : value) : result (option value) :=
  rbind (own_entries criteria) (field_steps cur).

(** The clause one operator appends to the disjunction. *)
Definition or_clause (field op : string) (v : value) : list value :=
  match classify op with
  | OrEq => [VObj [(field, v)]]
  | OrSub native => [VObj [(field, VObj [(native, v)])]]
  | _ => []
  end.

Definition or_clauses (field : string) (entries : obj) : list value :=
  flat_map (fun kv => or_clause field (fst kv) (snd kv)) entries.

Definition field_or_clauses (fc : string * value) : list value :=
  match own_entries (snd fc) with
  | Ok entries => or_clauses (fst fc) entries
  | Throw _ => []
  end.

Definition or_elems (cur : option value) : list value :=
  match cur with Some (VArr l _) => l | _ => [] end.

Definition or_after (cur : option value) (clauses : list value) : option value :=
  match clauses with
  | [] => cur
  | _ => Some (arr (or_elems cur ++ clauses))
  end.

(** [$or] is absent or a plain array: what it is when no field is named
    [$or]. *)
Definition or_inv (cur : option value) : Prop :=
  cur = None \/ exists l, cur = Some (arr l).

(** Two disjunctions with the same clauses. *)
Definition same_disjunction (a b : option value) : Prop :=
  match a, b with
  | None, None => True
  | Some (VArr l named), Some (VArr l' named') => Permutation l l' /\ named = named'
  | _, _ => False
  end.

(** Two outcomes of a translation that agree on every field. *)
Definition same_filter (r r' : result obj) : Prop :=
  match r, r' with
  | Ok d, Ok d' =>
      (forall k, k <> "$or" -> js_get d k = js_get d' k)
      /\ same_disjunction (js_get d "$or") (js_get d' "$or")
  | Throw _, Throw _ => True
  | _, _ => False
  end.

Definition is_comparison (op : string) : bool :=
  match classify op with OpSub _ => true | _ => false end.

Definition is_equality (op : string) : bool :=
  match classify op with OpEq => true | _ => false end.

(** The operand of the last operator of [entries] that maps to the
    native key [native]. *)
Definition last_operand (entries : obj) (native : string) (init : option value)
  : option value :=
  fold_left (fun acc kv =>
               match classify (fst kv) with
               | OpSub n => if n =? native then Some (snd kv) else acc
               | _ => acc
               end) entries init.

(** The envelope of a single read that matched nothing. *)
Definition not_found_envelope : obj :=
  [("data", VUndefined); ("op", VStr "find"); ("found", VNum 0)].

Definition found_envelope (record : obj) : obj :=
  js_set (Response (VObj record) [] "find") "found" (VNum 1).

Definition findAll_envelope (records : list obj) : obj :=
  js_set (Response (arr (map VObj records)) [] "findAll")
         "found" (VNum (Z.of_nat (List.length records))).

Definition by_foreignKeys (def : relation) : bool :=
  is_hasMany (type def) && negb (is_set (foreignKey def)) &&
  negb (is_set (localKeys def)) && is_set (foreignKeys def).

Definition unsupported : error :=
  Error "findAll eager load hasMany foreignKeys not supported!".

Definition family_plan (o o' : opts) : plan :=
  Plan parent_mapper o [(children_def, Plan child_mapper o' [])].

Definition in_filter (key : string) (ids : list value) : obj :=
  [(key, VObj [("$in", arr ids)])].


Section Vocabulary.

Context {DB : Type} (self : Host DB).

Definition find_options (o : opts) : obj :=
  with_fields (plainCopy_obj (getOpt self findOpts o_findOpts o)).

Definition findAll_options (o : opts) (q : query) : obj :=
  with_fields (fillIn (plainCopy_obj (getOpt self findOpts o_findOpts o))
                      (getQueryOptions (toNumber self) q)).













End Vocabulary.

(** * The write path *)

(** ** _translateId on what a write returns (lines 242-256)

    [r] is [cursor.ops] or the cursor itself, whatever the driver put
    there.  An element that is [undefined] or [null] has no [_id] to
    read; on another primitive the assignment of line 248 throws. *)
Definition translate_element {DB : Type} (self : Host DB) (_r : value) : result value :=
  match _r with
  | VObj props => Ok (VObj (translate_record self props))
  | VArr elems named => Ok (VArr elems (translate_record self named))
  | _ => Throw TypeError
  end.

Definition _translateId_any {DB : Type} (self : Host DB) (r : value) (o : opts)
  : result value :=
  if getOpt self translateId o_translateId o then
    match r with
    | VArr elems named =>
        rbind (map_result (translate_element self) elems)
              (fun elems' => Ok (VArr elems' named))
    | VObj props => Ok (VObj (translate_record self props))
    | _ => Ok r
    end
  else Ok r.

(** [isArray(r) ? r[0] : r]. *)
Definition first_record (r : value) : value :=
  match r with VArr elems _ => nth 0 elems VUndefined | _ => r end.

(** The options of a call that writes: those of a read, and the driver
    options of the write. *)
Record write_opts : Type := WriteOpts {
  o_read : opts;
  o_insertOpts : option obj;
  o_insertManyOpts : option obj;
  o_removeOpts : option obj
}.

Section Writer.

Context {DB : Type}.

(** The adapter's options for writes, and the driver's inserts and
    removals ([insertOne] or [insert], [deleteOne] or [remove], ...,
    whichever the collection has). *)
Record Writes : Type := {
  insertOpts : obj;
  insertManyOpts : obj;
  removeOpts : obj;
  native_insertOne : string -> obj -> obj -> DB -> result obj * DB;
  native_insertMany : string -> list obj -> obj -> DB -> result obj * DB;
  native_deleteOne : string -> obj -> obj -> DB -> result obj * DB;
  native_deleteMany : string -> obj -> obj -> DB -> result obj * DB
}.

Variable self : Host DB.
Variable writes : Writes.

Notation "x <- c ;; k" := (bind c (fun x => k))
  (at level 61, c at next level, right associativity).
Notation "c ;;; k" := (bind c (fun _ => k))
  (at level 61, right associativity).

Definition getOpt_w {A} (own : Writes -> A) (given : write_opts -> option A)
           (o : write_opts) : A :=
  match given o with
  | Some x => x
  | None => own writes
  end.

(** Lines 715-718 and 773-776: [r], translated in place, as [pick]
    reads it, and the cursor once its [connection] is cleared.  [r] is
    the cursor's [ops], or the cursor itself when it has none. *)
Definition cursor_records (cursor : obj) (o : opts) (pick : value -> value)
  : result (value * obj) :=
  if truthy (prop cursor "ops") then
    rbind (_translateId_any self (prop cursor "ops") o) (fun r =>
      Ok (pick r, js_set (js_set cursor "ops" r) "connection" VUndefined))
  else
    let cursor := js_set (_translateId1 self cursor o) "connection" VUndefined in
    Ok (pick (VObj cursor), cursor).

(** ** create (lines 691-731) *)
Definition create (m : mapper) (props : obj) (o : write_opts) : M DB value :=
  let insertOpts_ := plainCopy_obj (getOpt_w insertOpts o_insertOpts o) in
  getClient self ;;;
  _props <- run_hook self "beforeCreate" [VObj props] ;;
  let props := reassign _props (VObj props) in
  _props <- lift (withoutRelations m props) ;;
  cursor <- write (native_insertOne writes (collection_of self m) _props insertOpts_) ;;
  rc <- lift (cursor_records cursor (o_read o) first_record) ;;
  let record := fst rc in
  let response := Response record (snd rc) "create" in
  let response := js_set response "created" (VNum (if truthy record then 1 else 0)) in
  let response := respond self response (o_read o) in
  _response <- run_hook self "afterCreate" [props; response] ;;
  ret (reassign _response response).

(** ** createMany (lines 748-789) *)
Definition createMany (m : mapper) (props : value) (o : write_opts) : M DB value :=
  let props := or_default props (VObj []) in
  let insertManyOpts_ := plainCopy_obj (getOpt_w insertManyOpts o_insertManyOpts o) in
  getClient self ;;;
  _props <- run_hook self "beforeCreateMany" [props] ;;
  let props := reassign _props props in
  records <- lift (as_array props) ;;
  _props <- lift (map_result (withoutRelations m) records) ;;
  cursor <- write (native_insertMany writes (collection_of self m) _props insertManyOpts_) ;;
  rc <- lift (cursor_records cursor (o_read o) (fun r => r)) ;;
  let records := fst rc in
  let response := Response records (snd rc) "createMany" in
  created <- lift (get_member records "length") ;;
  let response := js_set response "created" created in
  let response := respond self response (o_read o) in
  _response <- run_hook self "afterCreateMany" [props; response] ;;
  ret (reassign _response response).

(** ** destroy (lines 805-836) *)
Definition destroy (m : mapper) (id : value) (o : write_opts) : M DB value :=
  let removeOpts_ := plainCopy_obj (getOpt_w removeOpts o_removeOpts o) in
  getClient self ;;;
  run_hook self "beforeDestroy" [id] ;;;
  let mongoQuery := js_set [] (idAttribute m) (toObjectID self m id) in
  cursor <- write (native_deleteOne writes (collection_of self m) mongoQuery removeOpts_) ;;
  let cursor := js_set cursor "connection" VUndefined in
  let response := Response VUndefined cursor "destroy" in
  let response := respond self response (o_read o) in
  _response <- run_hook self "afterDestroy" [id; response] ;;
  ret (reassign _response response).

(** ** destroyAll (lines 852-884)

    The query is translated inside the chain, after the
    [beforeDestroyAll] hook. *)
Definition destroyAll (m : mapper) (q : query) (o : write_opts) : M DB value :=
  let removeOpts_ := fillIn (plainCopy_obj (getOpt_w removeOpts o_removeOpts o))
                            (getQueryOptions (toNumber self) q) in
  getClient self ;;;
  run_hook self "beforeDestroyAll" [query_value q] ;;;
  mongoQuery <- lift (getQuery (reserved self) q) ;;
  cursor <- write (native_deleteMany writes (collection_of self m) mongoQuery removeOpts_) ;;
  let cursor := js_set cursor "connection" VUndefined in
  let response := Response VUndefined cursor "destroyAll" in
  let response := respond self response (o_read o) in
  _response <- run_hook self "afterDestroyAll" [query_value q; response] ;;
  ret (reassign _response response).

End Writer.

Arguments Writes : clear implicits.

(** ** Inserts and removals of the in-memory store *)

Definition memory_add (collection : string) (docs : list obj) (d : memory_db)
  : memory_db :=
  if existsb (fun c : string * list obj => fst c =? collection) d
  then map (fun c : string * list obj =>
              if fst c =? collection then (fst c, snd c ++ docs) else c) d
  else d ++ [(collection, docs)].

Definition memory_insertOne (collection : string) (doc options : obj) (d : memory_db)
  : result obj * memory_db :=
  (Ok [("insertedCount", VNum 1); ("ops", arr [VObj doc]); ("connection", VStr "socket")],
   memory_add collection [doc] d).

Definition memory_insertMany (collection : string) (docs : list obj) (options : obj)
           (d : memory_db) : result obj * memory_db :=
  (Ok [("insertedCount", VNum (Z.of_nat (List.length docs)));
       ("ops", arr (map VObj docs)); ("connection", VStr "socket")],
   memory_add collection docs d).

(** The first document that matches goes. *)
Fixpoint remove_first (filter : obj) (docs : list obj) : list obj :=
  match docs with
  | [] => []
  | doc :: rest =>
      if memory_matches filter doc then rest else doc :: remove_first filter rest
  end.

Definition memory_delete (one : bool) (collection : string) (filter options : obj)
           (d : memory_db) : result obj * memory_db :=
  let d' :=
    map (fun c : string * list obj =>
           if fst c =? collection
           then (fst c,
                 if one then remove_first filter (snd c)
                 else List.filter (fun doc => negb (memory_matches filter doc)) (snd c))
           else c) d in
  (Ok [("deletedCount",
        VNum (Z.of_nat (List.length (documents collection d))
              - Z.of_nat (List.length (documents collection d'))));
       ("connection", VStr "socket")],
   d').

Definition memory_writes : Writes memory_db := {|
  insertOpts := [];
  insertManyOpts := [];
  removeOpts := [];
  native_insertOne := memory_insertOne;
  native_insertMany := memory_insertMany;
  native_deleteOne := memory_delete true;
  native_deleteMany := memory_delete false
|}.

Definition no_write_opts : write_opts := WriteOpts no_opts None None None.

(** ** More vocabulary *)

(** A value that is not an object: it can hold no property. *)
Definition is_primitive (v : value) : bool :=
  match v with VArr _ _ | VObj _ => false | _ => true end.

(** The top-level properties of a query that are not reserved words. *)
Definition unreserved (reserved : list string) (params : obj) : obj :=
  List.filter (fun kv => negb (is_reserved reserved (fst kv))) params.

(** The properties that [getQueryOptions] reads. *)
Definition option_params : list string :=
  ["orderBy"; "sort"; "skip"; "offset"; "limit"].

(** The in-memory host when the connection to the store has failed. *)
Definition connection_refused : error := Error "connect ECONNREFUSED".

Definition offline_host : Host memory_db := {|
  raw := false;
  translateId := true;
  findOpts := [];
  findOneOpts := [];
  updateOpts := [];
  reserved := Adapter_reserved;
  toNumber := toNumber_int;
  js_toString := memory_toString;
  ObjectID_isValid := bson_isValid;
  underscore := fun s => s;
  client := Throw connection_refused;
  native_findOne := memory_findOne;
  native_find := memory_find;
  native_updateOne := memory_update;
  native_updateMany := memory_update;
  hook := fun _ _ => Ok VUndefined;
  load := fun _ _ _ _ records => ret records;
  load1 := fun _ _ _ _ record => ret record;
  makeHasManyForeignKeys := fun _ _ _ => VUndefined
|}.

(** A related record that [item] lists under [def.localKeys]. *)
Definition listed_by (related : mapper) (def : relation) (item relatedItem : obj)
  : bool :=
  includes (keys_of (prop item (key_name (localKeys def))))
           (prop relatedItem (idAttribute related)).

(** * Reading back what was written *)

Lemma js_get_replace_prop o k v k' :
  js_get (replace_prop o k v) k' =
  if k =? k' then match js_get o k with Some _ => Some v | None => None end
  else js_get o k'.
Proof.
  induction o as [|[k0 v0] o IH]; simpl.
  - destruct (k =? k'); reflexivity.
  - destruct (String.eqb_spec k0 k) as [->|Hne]; simpl.
    + destruct (k =? k'); reflexivity.
    + rewrite IH. destruct (String.eqb_spec k k') as [->|Hne'].
      * destruct (String.eqb_spec k0 k'); [contradiction|reflexivity].
      * reflexivity.
Qed.

Lemma js_get_insert_index o n k v k' :
  js_get o k = None ->
  js_get (insert_index o n k v) k' =
  if k =? k' then Some v else js_get o k'.
Proof.
  induction o as [|[k0 v0] o IH]; simpl; intros Hk.
  - reflexivity.
  - destruct (String.eqb_spec k0 k) as [->|Hne]; [discriminate|].
    destruct (array_index k0) as [n'|]; [destruct (n <? n')%N|]; simpl;
      try reflexivity.
    rewrite (IH Hk). destruct (String.eqb_spec k k') as [->|Hne']; [|reflexivity].
    destruct (String.eqb_spec k0 k'); [contradiction|reflexivity].
Qed.

Lemma js_get_app o o' k :
  js_get (o ++ o') k = match js_get o k with Some v => Some v | None => js_get o' k end.
Proof.
  induction o as [|[k0 v0] o IH]; simpl; [reflexivity|].
  destruct (k0 =? k); [reflexivity|apply IH].
Qed.

Lemma js_get_js_set o k v k' :
  js_get (js_set o k v) k' = if k =? k' then Some v else js_get o k'.
Proof.
  unfold js_set. destruct (js_get o k) as [x|] eqn:Hk.
  - rewrite js_get_replace_prop, Hk. reflexivity.
  - destruct (array_index k) as [n|].
    + apply js_get_insert_index, Hk.
    + rewrite js_get_app. simpl.
      destruct (String.eqb_spec k k') as [->|Hne].
      * rewrite Hk. reflexivity.
      * destruct (js_get o k'); reflexivity.
Qed.

Lemma prop_js_set_same o k v : prop (js_set o k v) k = v.
Proof. unfold prop. rewrite js_get_js_set, String.eqb_refl. reflexivity. Qed.

Lemma prop_js_set_other o k v k' : k <> k' -> prop (js_set o k v) k' = prop o k'.
Proof.
  intros Hne. unfold prop. rewrite js_get_js_set.
  destruct (String.eqb_spec k k'); [contradiction|reflexivity].
Qed.

Lemma js_get_fillIn_kept src : forall dest k v,
  js_get dest k = Some v -> v <> VUndefined -> js_get (fillIn dest src) k = Some v.
Proof.
  induction src as [|[k0 v0] src IH]; simpl; intros dest k v Hk Hv; [exact Hk|].
  destruct (js_get dest k0) as [x|] eqn:H0.
  - destruct x; try (apply IH; assumption).
    apply IH; [|assumption]. rewrite js_get_js_set.
    destruct (String.eqb_spec k0 k) as [->|]; [|exact Hk].
    rewrite Hk in H0. injection H0 as ->. contradiction.
  - apply IH; [|assumption]. rewrite js_get_js_set.
    destruct (String.eqb_spec k0 k) as [->|]; [|exact Hk].
    rewrite Hk in H0. discriminate.
Qed.

Lemma Response_data data meta op :
  data <> VUndefined -> prop (Response data meta op) "data" = data.
Proof.
  intros Hd. unfold Response, prop. rewrite js_get_js_set. simpl.
  rewrite (js_get_fillIn_kept meta [("data", data)] "data" data); auto.
Qed.

(** * Properties of the query translator *)

Lemma is_reserved_In reserved keyword :
  is_reserved reserved keyword = true <-> In keyword reserved.
Proof.
  unfold is_reserved. rewrite existsb_exists. split.
  - intros [x [Hx He]]. apply String.eqb_eq in He. subst. exact Hx.
  - intros H. exists keyword. split; [exact H|apply String.eqb_refl].
Qed.

Lemma is_reserved_not_In reserved keyword :
  ~ In keyword reserved -> is_reserved reserved keyword = false.
Proof.
  intros H. destruct (is_reserved reserved keyword) eqn:E; [|reflexivity].
  apply is_reserved_In in E. contradiction.
Qed.

(** C1. The query [{status: 'active', age: {'>': 18}, orderBy: 'name',
    limit: 10}]: the two keys that are not reserved are folded into
    [where] as [{status: {'==': 'active'}, age: {'>': 18}}], the native
    filter is [{status: 'active', age: {$gt: 18}}] and the native options
    are [{sort: [['name', 'asc']], limit: 10}]. *)
Theorem scenario_translation (reserved : list string) (toNumber : value -> value) :
  In "where" reserved -> In "orderBy" reserved -> In "limit" reserved ->
  ~ In "status" reserved -> ~ In "age" reserved ->
  toNumber (VNum 10) = VNum 10 ->
  normalized_where reserved scenario_query =
    [("status", VObj [("==", VStr "active")]); ("age", VObj [(">", VNum 18)])]
  /\ getQuery reserved scenario_query =
       Ok [("status", VStr "active"); ("age", VObj [("$gt", VNum 18)])]
  /\ getQueryOptions toNumber scenario_query =
       [("sort", arr [arr [VStr "name"; VStr "asc"]]); ("limit", VNum 10)].
Proof.
  intros Hwh Ho Hl Hs Ha Hn.
  apply is_reserved_In in Hwh, Ho, Hl. apply is_reserved_not_In in Hs, Ha.
  assert (Hw : normalized_where reserved scenario_query =
               [("status", VObj [("==", VStr "active")]);
                ("age", VObj [(">", VNum 18)])]).
  { unfold normalized_where, scenario_query. simpl.
    rewrite Hs, Ha, Ho, Hl. reflexivity. }
  split; [exact Hw|]. split.
  - unfold getQuery. rewrite Hwh, Hw. reflexivity.
  - unfold getQueryOptions, scenario_query. simpl.
    unfold js_set, prop. simpl. rewrite Hn. reflexivity.
Qed.

(** ** Operators outside the table *)

Lemma forOwn_ops_app field c1 c2 mongoQuery :
  forOwn_ops field (c1 ++ c2) mongoQuery =
  rbind (forOwn_ops field c1 mongoQuery) (forOwn_ops field c2).
Proof.
  revert mongoQuery. induction c1 as [|[op v] c1 IH]; intros mq; simpl; [reflexivity|].
  destruct (apply_op field mq op v); simpl; [apply IH|reflexivity].
Qed.

Lemma apply_op_unknown field mongoQuery op v :
  classify op = OpUnknown -> apply_op field mongoQuery op v = Ok mongoQuery.
Proof. intros H. unfold apply_op. rewrite H. reflexivity. Qed.

Lemma same_clauses_refl x : same_clauses x x.
Proof. repeat split; auto. Qed.

Lemma same_clauses_drop op v c1 c2 :
  classify op = OpUnknown ->
  same_clauses (VObj (c1 ++ (op, v) :: c2)) (VObj (c1 ++ c2)).
Proof.
  intros H. split; [reflexivity|]. split; [discriminate|].
  intros field mq. unfold translate_field. simpl.
  rewrite !forOwn_ops_app.
  destruct (forOwn_ops field c1 mq) as [mq'|]; simpl; [|reflexivity].
  rewrite (apply_op_unknown _ _ _ _ H). reflexivity.
Qed.

Lemma same_entries_refl o : same_entries o o.
Proof.
  induction o; constructor; [split; [reflexivity|apply same_clauses_refl]|assumption].
Qed.

Lemma same_entries_app o1 o1' o2 o2' :
  same_entries o1 o1' -> same_entries o2 o2' -> same_entries (o1 ++ o2) (o1' ++ o2').
Proof. apply Forall2_app. Qed.

Lemma same_entries_get o o' k :
  same_entries o o' ->
  match js_get o k, js_get o' k with
  | Some _, Some _ | None, None => True
  | _, _ => False
  end.
Proof.
  induction 1 as [|[k1 v1] [k2 v2] o o' [Hk _] _ IH]; simpl; [exact I|].
  simpl in Hk. subst k2. destruct (k1 =? k); [exact I|exact IH].
Qed.

Lemma same_entries_replace o o' k v v' :
  same_entries o o' -> same_clauses v v' ->
  same_entries (replace_prop o k v) (replace_prop o' k v').
Proof.
  intros H Hv. induction H as [|[k1 v1] [k2 v2] o o' [Hk Hc] Ho IH]; simpl;
    [constructor|].
  simpl in Hk, Hc. subst k2. destruct (k1 =? k).
  - constructor; [split; [reflexivity|exact Hv]|exact Ho].
  - constructor; [split; [reflexivity|exact Hc]|exact IH].
Qed.

Lemma same_entries_insert o o' n k v v' :
  same_entries o o' -> same_clauses v v' ->
  same_entries (insert_index o n k v) (insert_index o' n k v').
Proof.
  intros H Hv. induction H as [|[k1 v1] [k2 v2] o o' [Hk Hc] Ho IH]; simpl.
  - constructor; [split; [reflexivity|exact Hv]|constructor].
  - simpl in Hk, Hc. subst k2.
    assert (Hcons : same_entries ((k, v) :: (k1, v1) :: o) ((k, v') :: (k1, v2) :: o')).
    { constructor; [split; [reflexivity|exact Hv]|].
      constructor; [split; [reflexivity|exact Hc]|exact Ho]. }
    destruct (array_index k1) as [n'|]; [destruct (n <? n')%N|]; try exact Hcons.
    constructor; [split; [reflexivity|exact Hc]|exact IH].
Qed.

Lemma same_entries_set o o' k v v' :
  same_entries o o' -> same_clauses v v' ->
  same_entries (js_set o k v) (js_set o' k v').
Proof.
  intros H Hv. unfold js_set. pose proof (same_entries_get o o' k H) as Hg.
  destruct (js_get o k), (js_get o' k); try contradiction.
  - apply same_entries_replace; assumption.
  - destruct (array_index k).
    + apply same_entries_insert; assumption.
    + apply same_entries_app; [assumption|].
      constructor; [split; [reflexivity|exact Hv]|constructor].
Qed.

Lemma same_entries_fold reserved params params' :
  same_entries params params' ->
  forall w w', same_entries w w' ->
    same_entries (fold_params reserved params w) (fold_params reserved params' w').
Proof.
  induction 1 as [|[k1 v1] [k2 v2] p p' [Hk Hc] _ IH]; simpl; intros w w' Hw;
    [exact Hw|].
  simpl in Hk, Hc. subst k2. destruct (is_reserved reserved k1); [apply IH, Hw|].
  apply IH. apply same_entries_set; [exact Hw|].
  destruct Hc as [Hi [Heq Htr]]. rewrite <- Hi.
  destruct (isObject v1) eqn:E.
  - split; [congruence|]. split; [congruence|exact Htr].
  - rewrite (Heq eq_refl). apply same_clauses_refl.
Qed.

Lemma same_entries_translate w w' :
  same_entries w w' ->
  forall mongoQuery, translate_where w mongoQuery = translate_where w' mongoQuery.
Proof.
  induction 1 as [|[k1 v1] [k2 v2] o o' [Hk [_ [_ Hc]]] _ IH]; simpl; intros mq;
    [reflexivity|].
  simpl in Hk, Hc. subst k2. rewrite Hc.
  destruct (translate_field k1 v2 mq); simpl; [apply IH|reflexivity].
Qed.

Lemma plainCopy_obj_app o1 o2 :
  plainCopy_obj (o1 ++ o2) = plainCopy_obj o1 ++ plainCopy_obj o2.
Proof. apply map_app. Qed.

Lemma same_entries_copy op v field c c' o1 o2 :
  classify op = OpUnknown ->
  criteria_without op v c c' ->
  same_entries (plainCopy_obj (o1 ++ (field, c) :: o2))
               (plainCopy_obj (o1 ++ (field, c') :: o2)).
Proof.
  intros H [c1 c2]. rewrite !plainCopy_obj_app. simpl.
  apply same_entries_app; [apply same_entries_refl|].
  constructor; [|apply same_entries_refl]. split; [reflexivity|]. simpl.
  rewrite !map_app. simpl. apply same_clauses_drop, H.
Qed.

(** C8. An operator that is not in the table emits no clause and raises
    no error, and the native filter is the one of the query without that
    pair. *)
Theorem unrecognized_operator_ignored (reserved : list string) (op : string) (v : value) :
  classify op = OpUnknown ->
  (forall field mongoQuery, apply_op field mongoQuery op v = Ok mongoQuery)
  /\ (forall q q', query_without op v q q' ->
                   getQuery reserved q = getQuery reserved q').
Proof.
  intros H. split; [intros; apply apply_op_unknown, H|].
  intros q q' Hq. unfold getQuery, normalized_where.
  destruct (is_reserved reserved "where"); [|reflexivity].
  apply same_entries_translate.
  destruct Hq as [w1 w2 field c c' params Hc | where_ p1 p2 field c c' Hc]; simpl.
  - apply same_entries_fold; [apply same_entries_refl|].
    apply (same_entries_copy op v); assumption.
  - apply same_entries_fold; [|apply same_entries_refl].
    apply (same_entries_copy op v); assumption.
Qed.

(** ** What one field contributes to the native filter *)

Lemma or_after_inv cur clauses : or_inv cur -> or_inv (or_after cur clauses).
Proof.
  intros H. destruct clauses; [exact H|]. right. eexists. reflexivity.
Qed.

Lemma or_after_app cur a b :
  or_after (or_after cur a) b = or_after cur (a ++ b).
Proof.
  destruct a as [|x a]; [reflexivity|].
  destruct b as [|y b]; simpl.
  - rewrite app_nil_r. reflexivity.
  - rewrite <- app_assoc. reflexivity.
Qed.

Lemma push_or_spec mongoQuery clause :
  or_inv (js_get mongoQuery "$or") ->
  exists d', push_or mongoQuery clause = Ok d'
             /\ js_get d' "$or" = or_after (js_get mongoQuery "$or") [clause]
             /\ forall k, k <> "$or" -> js_get d' k = js_get mongoQuery k.
Proof.
  intros Hinv. unfold push_or, prop.
  assert (Hcur : or_default (value_of (js_get mongoQuery "$or")) (arr [])
                 = arr (or_elems (js_get mongoQuery "$or"))).
  { destruct Hinv as [->|[l ->]]; reflexivity. }
  change (match js_get mongoQuery "$or" with Some v => v | None => VUndefined end)
    with (value_of (js_get mongoQuery "$or")).
  rewrite Hcur. simpl. eexists. split; [reflexivity|]. split.
  - rewrite js_get_js_set. reflexivity.
  - intros k Hk. rewrite !js_get_js_set.
    destruct (String.eqb_spec "$or" k); [congruence|reflexivity].
Qed.

Lemma apply_op_ok field mongoQuery op v d' :
  field <> "$or" ->
  or_inv (js_get mongoQuery "$or") ->
  apply_op field mongoQuery op v = Ok d' ->
  field_step (js_get mongoQuery field) op v = Ok (js_get d' field)
  /\ js_get d' "$or" = or_after (js_get mongoQuery "$or") (or_clause field op v)
  /\ forall k, k <> field -> k <> "$or" -> js_get d' k = js_get mongoQuery k.
Proof.
  intros Hf Hinv. unfold apply_op, field_step, or_clause, prop.
  change (match js_get mongoQuery field with Some v => v | None => VUndefined end)
    with (value_of (js_get mongoQuery field)).
  assert (Hne : forall k, ("$or" =? k) = true -> k <> field) by
    (intros k Hk; apply String.eqb_eq in Hk; congruence).
  destruct (classify op) as [|native| |native|].
  - intros H. injection H as <-. rewrite !js_get_js_set, String.eqb_refl.
    split; [reflexivity|]. split.
    + destruct (String.eqb_spec field "$or"); [contradiction|reflexivity].
    + intros k Hk _. rewrite js_get_js_set.
      destruct (String.eqb_spec field k); [congruence|reflexivity].
  - destruct (assign_named _ native v) as [cur'|]; simpl; [|discriminate].
    intros H. injection H as <-. rewrite !js_get_js_set, String.eqb_refl.
    split; [reflexivity|]. split.
    + destruct (String.eqb_spec field "$or"); [contradiction|reflexivity].
    + intros k Hk _. rewrite !js_get_js_set.
      destruct (String.eqb_spec field k); [congruence|reflexivity].
  - destruct (push_or_spec mongoQuery (VObj [(field, v)]) Hinv) as [d [-> [Ho Hk]]].
    intros H. injection H as <-. rewrite (Hk field Hf).
    split; [reflexivity|]. split; [exact Ho|]. intros k _ Hk'. apply Hk, Hk'.
  - destruct (push_or_spec mongoQuery (VObj [(field, VObj [(native, v)])]) Hinv)
      as [d [-> [Ho Hk]]].
    intros H. injection H as <-. rewrite (Hk field Hf).
    split; [reflexivity|]. split; [exact Ho|]. intros k _ Hk'. apply Hk, Hk'.
  - intros H. injection H as <-. repeat split.
Qed.

Lemma apply_op_throw field mongoQuery op v e :
  or_inv (js_get mongoQuery "$or") ->
  apply_op field mongoQuery op v = Throw e ->
  field_step (js_get mongoQuery field) op v = Throw e.
Proof.
  intros Hinv. unfold apply_op, field_step, prop.
  change (match js_get mongoQuery field with Some v => v | None => VUndefined end)
    with (value_of (js_get mongoQuery field)).
  destruct (classify op) as [|native| |native|]; try discriminate.
  - destruct (assign_named _ native v); simpl; [discriminate|].
    intros H. injection H as <-. reflexivity.
  - destruct (push_or_spec mongoQuery (VObj [(field, v)]) Hinv) as [d [-> _]].
    discriminate.
  - destruct (push_or_spec mongoQuery (VObj [(field, VObj [(native, v)])]) Hinv)
      as [d [-> _]].
    discriminate.
Qed.

Lemma forOwn_ops_ok field entries : forall mongoQuery d',
  field <> "$or" ->
  or_inv (js_get mongoQuery "$or") ->
  forOwn_ops field entries mongoQuery = Ok d' ->
  field_steps (js_get mongoQuery field) entries = Ok (js_get d' field)
  /\ js_get d' "$or" = or_after (js_get mongoQuery "$or") (or_clauses field entries)
  /\ forall k, k <> field -> k <> "$or" -> js_get d' k = js_get mongoQuery k.
Proof.
  induction entries as [|[op v] rest IH]; simpl; intros mq d' Hf Hinv H.
  - injection H as <-. repeat split.
  - destruct (apply_op field mq op v) as [d1|] eqn:H1; [simpl in H|discriminate].
    destruct (apply_op_ok _ _ _ _ _ Hf Hinv H1) as [Hs [Ho Hk]].
    assert (Hinv1 : or_inv (js_get d1 "$or")) by (rewrite Ho; apply or_after_inv, Hinv).
    destruct (IH d1 d' Hf Hinv1 H) as [Hs' [Ho' Hk']].
    rewrite Hs. simpl. split; [exact Hs'|]. split.
    + rewrite Ho', Ho. unfold or_clauses. simpl. apply or_after_app.
    + intros k Hkf Hko. rewrite (Hk' k Hkf Hko). apply Hk; assumption.
Qed.

Lemma forOwn_ops_throw field entries : forall mongoQuery e,
  field <> "$or" ->
  or_inv (js_get mongoQuery "$or") ->
  forOwn_ops field entries mongoQuery = Throw e ->
  field_steps (js_get mongoQuery field) entries = Throw e.
Proof.
  induction entries as [|[op v] rest IH]; simpl; intros mq e Hf Hinv H;
    [discriminate|].
  destruct (apply_op field mq op v) as [d1|e1] eqn:H1; simpl in H.
  - destruct (apply_op_ok _ _ _ _ _ Hf Hinv H1) as [Hs [Ho Hk]].
    assert (Hinv1 : or_inv (js_get d1 "$or")) by (rewrite Ho; apply or_after_inv, Hinv).
    rewrite Hs. simpl. apply (IH d1 e Hf Hinv1 H).
  - injection H as <-. rewrite (apply_op_throw _ _ _ _ _ Hinv H1). reflexivity.
Qed.

Lemma translate_field_ok field criteria mongoQuery d' :
  field <> "$or" ->
  or_inv (js_get mongoQuery "$or") ->
  translate_field field criteria mongoQuery = Ok d' ->
  field_value (js_get mongoQuery field) criteria = Ok (js_get d' field)
  /\ js_get d' "$or" = or_after (js_get mongoQuery "$or")
                                (field_or_clauses (field, criteria))
  /\ forall k, k <> field -> k <> "$or" -> js_get d' k = js_get mongoQuery k.
Proof.
  unfold translate_field, field_value, field_or_clauses. simpl.
  destruct (own_entries criteria) as [entries|]; simpl; [|discriminate].
  apply forOwn_ops_ok.
Qed.

Lemma translate_field_throw field criteria mongoQuery e :
  field <> "$or" ->
  or_inv (js_get mongoQuery "$or") ->
  translate_field field criteria mongoQuery = Throw e ->
  field_value (js_get mongoQuery field) criteria = Throw e.
Proof.
  unfold translate_field, field_value.
  destruct (own_entries criteria) as [entries|]; simpl;
    [apply forOwn_ops_throw|].
  intros _ _ H. injection H as <-. reflexivity.
Qed.

(** ** The keys of the normalized [where] *)

Lemma js_get_None o k : js_get o k = None <-> ~ In k (map fst o).
Proof.
  induction o as [|[k0 v0] o IH]; simpl; [tauto|].
  destruct (String.eqb_spec k0 k) as [->|Hne].
  - split; [discriminate|]. intros H. exfalso. apply H. left. reflexivity.
  - rewrite IH. tauto.
Qed.

Lemma keys_replace_prop o k v : map fst (replace_prop o k v) = map fst o.
Proof.
  induction o as [|[k0 v0] o IH]; simpl; [reflexivity|].
  destruct (String.eqb_spec k0 k) as [->|]; simpl; [reflexivity|].
  rewrite IH. reflexivity.
Qed.

Lemma keys_insert_index o n k v :
  Permutation (k :: map fst o) (map fst (insert_index o n k v)).
Proof.
  induction o as [|[k0 v0] o IH]; simpl; [reflexivity|].
  destruct (array_index k0) as [n'|]; [destruct (n <? n')%N|]; simpl;
    try reflexivity.
  rewrite perm_swap. apply perm_skip, IH.
Qed.

Lemma keys_js_set o k v :
  Permutation (map fst (js_set o k v))
              (if in_dec string_dec k (map fst o) then map fst o else k :: map fst o).
Proof.
  unfold js_set. destruct (js_get o k) as [x|] eqn:Hk.
  - destruct (in_dec string_dec k (map fst o)) as [|Hout].
    + rewrite keys_replace_prop. reflexivity.
    + apply js_get_None in Hout. congruence.
  - destruct (in_dec string_dec k (map fst o)) as [Hin|].
    + apply js_get_None in Hk. contradiction.
    + destruct (array_index k).
      * symmetry. apply keys_insert_index.
      * rewrite map_app. simpl. symmetry. apply Permutation_cons_append.
Qed.

Lemma NoDup_js_set o k v : NoDup (map fst o) -> NoDup (map fst (js_set o k v)).
Proof.
  intros H. apply (Permutation_NoDup (Permutation_sym (keys_js_set o k v))).
  destruct (in_dec string_dec k (map fst o)); [exact H|].
  constructor; assumption.
Qed.

Lemma In_keys_js_set o k v x :
  In x (map fst (js_set o k v)) -> x = k \/ In x (map fst o).
Proof.
  intros H. apply (Permutation_in _ (keys_js_set o k v)) in H.
  destruct (in_dec string_dec k (map fst o)); [right; exact H|].
  destruct H; [left; congruence|right; assumption].
Qed.

Lemma keys_plainCopy_obj o : map fst (plainCopy_obj o) = map fst o.
Proof.
  unfold plainCopy_obj. rewrite map_map. apply map_ext. intros [k x]. reflexivity.
Qed.

Lemma fold_params_keys reserved params : forall w,
  NoDup (map fst w) ->
  NoDup (map fst (fold_params reserved params w))
  /\ forall x, In x (map fst (fold_params reserved params w)) ->
               In x (map fst w) \/ In x (map fst params).
Proof.
  induction params as [|[k c] rest IH]; simpl; intros w Hnd; [auto|].
  destruct (is_reserved reserved k).
  - destruct (IH w Hnd) as [H1 H2]. split; [exact H1|].
    intros x Hx. destruct (H2 x Hx); auto.
  - destruct (IH _ (NoDup_js_set w k
                      (if isObject c then c else VObj [("==", c)]) Hnd)) as [H1 H2].
    split; [exact H1|]. intros x Hx. destruct (H2 x Hx) as [H|H]; [|auto].
    apply In_keys_js_set in H as [->|H]; auto.
Qed.

Lemma normalized_where_keys reserved q :
  NoDup (map fst (where_of q)) ->
  ~ In "$or" (map fst (where_of q)) ->
  ~ In "$or" (map fst (q_params q)) ->
  NoDup (map fst (normalized_where reserved q))
  /\ ~ In "$or" (map fst (normalized_where reserved q)).
Proof.
  intros Hnd Hw Hp. unfold normalized_where.
  assert (E : match q_where q with Some w => plainCopy_obj w | None => [] end
              = plainCopy_obj (where_of q)).
  { unfold where_of. destruct (q_where q); reflexivity. }
  rewrite E.
  destruct (fold_params_keys reserved (plainCopy_obj (q_params q))
                             (plainCopy_obj (where_of q))) as [H1 H2].
  { rewrite keys_plainCopy_obj. exact Hnd. }
  split; [exact H1|]. intros X. apply H2 in X. rewrite !keys_plainCopy_obj in X.
  tauto.
Qed.

(** ** The filter of a read by identifiers *)

Lemma js_set_empty k v : js_set [] k v = [(k, v)].
Proof. unfold js_set. simpl. destruct (array_index k); reflexivity. Qed.

Lemma js_set_single k v v' : js_set [(k, v)] k v' = [(k, v')].
Proof. unfold js_set. simpl. rewrite String.eqb_refl. reflexivity. Qed.

Lemma translate_in_clause key ids :
  translate_where [(key, VObj [("in", arr ids)])] [] = Ok (in_filter key ids).
Proof.
  unfold in_filter. simpl. unfold translate_field, apply_op, prop. simpl.
  rewrite js_set_empty. simpl. rewrite js_set_single. reflexivity.
Qed.

Lemma ids_query_filter reserved (m : mapper) (ids : list value) :
  In "where" reserved ->
  ~ In (idAttribute m) reserved ->
  getQuery reserved (ids_query m ids) = Ok (in_filter (idAttribute m) (map plainCopy ids)).
Proof.
  intros Hw Hid. unfold ids_query.
  destruct (String.eqb_spec (idAttribute m) "where") as [E|_].
  { rewrite E in Hid. contradiction. }
  unfold getQuery, normalized_where. simpl.
  rewrite (proj2 (is_reserved_In reserved "where") Hw).
  rewrite (is_reserved_not_In reserved _ Hid). simpl.
  rewrite js_set_empty. apply translate_in_clause.
Qed.

(** ** What the whole [where] translates to *)

Lemma translate_where_ok where_ : forall mongoQuery d',
  NoDup (map fst where_) ->
  ~ In "$or" (map fst where_) ->
  or_inv (js_get mongoQuery "$or") ->
  translate_where where_ mongoQuery = Ok d' ->
  (forall field criteria,
      In (field, criteria) where_ ->
      field_value (js_get mongoQuery field) criteria = Ok (js_get d' field))
  /\ js_get d' "$or" = or_after (js_get mongoQuery "$or")
                                (flat_map field_or_clauses where_)
  /\ forall k, ~ In k (map fst where_) -> k <> "$or" ->
               js_get d' k = js_get mongoQuery k.
Proof.
  induction where_ as [|[f c] rest IH]; simpl; intros mq d' Hnd Hor Hinv H.
  - injection H as <-. repeat split. intros ? ? [].
  - apply NoDup_cons_iff in Hnd as [Hf Hnd].
    assert (Hfo : f <> "$or") by (intros ->; apply Hor; left; reflexivity).
    assert (Hor' : ~ In "$or" (map fst rest)) by (intros X; apply Hor; right; exact X).
    destruct (translate_field f c mq) as [d1|] eqn:H1; [simpl in H|discriminate].
    destruct (translate_field_ok _ _ _ _ Hfo Hinv H1) as [Hv [Ho Hk]].
    assert (Hinv1 : or_inv (js_get d1 "$or")) by (rewrite Ho; apply or_after_inv, Hinv).
    destruct (IH d1 d' Hnd Hor' Hinv1 H) as [Hv' [Ho' Hk']].
    split; [|split].
    + intros field criteria [E|Hin].
      * injection E as <- <-. rewrite (Hk' f Hf Hfo). exact Hv.
      * assert (Hne : field <> f).
        { intros ->. apply Hf. apply in_map_iff. exists (f, criteria). auto. }
        assert (Hno : field <> "$or").
        { intros ->. apply Hor'. apply in_map_iff. exists ("$or", criteria). auto. }
        rewrite <- (Hk field Hne Hno). apply Hv', Hin.
    + rewrite Ho', Ho. apply or_after_app.
    + intros k Hk0 Hko. rewrite (Hk' k); [apply Hk| |]; auto.
Qed.

Lemma translate_where_throw where_ : forall mongoQuery e,
  NoDup (map fst where_) ->
  ~ In "$or" (map fst where_) ->
  or_inv (js_get mongoQuery "$or") ->
  translate_where where_ mongoQuery = Throw e ->
  exists field criteria,
    In (field, criteria) where_
    /\ field_value (js_get mongoQuery field) criteria = Throw e.
Proof.
  induction where_ as [|[f c] rest IH]; simpl; intros mq e Hnd Hor Hinv H;
    [discriminate|].
  apply NoDup_cons_iff in Hnd as [Hf Hnd].
  assert (Hfo : f <> "$or") by (intros ->; apply Hor; left; reflexivity).
  assert (Hor' : ~ In "$or" (map fst rest)) by (intros X; apply Hor; right; exact X).
  destruct (translate_field f c mq) as [d1|e1] eqn:H1; simpl in H.
  - destruct (translate_field_ok _ _ _ _ Hfo Hinv H1) as [Hv [Ho Hk]].
    assert (Hinv1 : or_inv (js_get d1 "$or")) by (rewrite Ho; apply or_after_inv, Hinv).
    destruct (IH d1 e Hnd Hor' Hinv1 H) as [field [criteria [Hin Hthrow]]].
    exists field, criteria. split; [right; exact Hin|].
    rewrite <- (Hk field); [exact Hthrow| |].
    + intros ->. apply Hf. apply in_map_iff. exists (f, criteria). auto.
    + intros ->. apply Hor'. apply in_map_iff. exists ("$or", criteria). auto.
  - injection H as <-. exists f, c. split; [left; reflexivity|].
    apply (translate_field_throw _ _ _ _ Hfo Hinv H1).
Qed.

Lemma same_disjunction_after a b :
  Permutation a b -> same_disjunction (or_after None a) (or_after None b).
Proof.
  intros H. destruct a as [|x a], b as [|y b]; simpl; auto.
  - apply Permutation_nil in H. discriminate.
  - apply Permutation_sym, Permutation_nil in H. discriminate.
Qed.

Lemma translate_where_permutation w w' :
  NoDup (map fst w) ->
  ~ In "$or" (map fst w) ->
  Permutation w w' ->
  same_filter (translate_where w []) (translate_where w' []).
Proof.
  intros Hnd Hor Hp.
  assert (Hnd' : NoDup (map fst w')).
  { apply (Permutation_NoDup (Permutation_map fst Hp) Hnd). }
  assert (Hor' : ~ In "$or" (map fst w')).
  { intros X. apply Hor.
    apply (Permutation_in _ (Permutation_sym (Permutation_map fst Hp)) X). }
  assert (Hinv : or_inv (js_get [] "$or")) by (left; reflexivity).
  unfold same_filter.
  destruct (translate_where w []) as [d|e] eqn:H1;
    destruct (translate_where w' []) as [d'|e'] eqn:H2.
  - destruct (translate_where_ok _ _ _ Hnd Hor Hinv H1) as [Hv [Ho Hk]].
    destruct (translate_where_ok _ _ _ Hnd' Hor' Hinv H2) as [Hv' [Ho' Hk']].
    split.
    + intros k Hko. destruct (in_dec string_dec k (map fst w)) as [Hin|Hout].
      * apply in_map_iff in Hin as [[f c] [E Hin]]. simpl in E. subst f.
        pose proof (Hv k c Hin) as X.
        pose proof (Hv' k c (Permutation_in _ Hp Hin)) as X'.
        rewrite X in X'. injection X'. auto.
      * rewrite (Hk k Hout Hko). symmetry. apply Hk'; [|exact Hko].
        intros X. apply Hout.
        apply (Permutation_in _ (Permutation_sym (Permutation_map fst Hp)) X).
    + rewrite Ho, Ho'. apply same_disjunction_after.
      apply Permutation_flat_map, Hp.
  - destruct (translate_where_throw _ _ _ Hnd' Hor' Hinv H2) as [f [c [Hin Ht]]].
    destruct (translate_where_ok _ _ _ Hnd Hor Hinv H1) as [Hv _].
    rewrite (Hv f c (Permutation_in _ (Permutation_sym Hp) Hin)) in Ht. discriminate.
  - destruct (translate_where_throw _ _ _ Hnd Hor Hinv H1) as [f [c [Hin Ht]]].
    destruct (translate_where_ok _ _ _ Hnd' Hor' Hinv H2) as [Hv _].
    rewrite (Hv f c (Permutation_in _ Hp Hin)) in Ht. discriminate.
  - exact I.
Qed.

(** C2 (amended). Among fields none of which is named [$or], the order
    in which the entries of [where] are processed does not matter to the
    field-indexed part of the native filter: in any permutation the
    translation fails or succeeds alike, every field key holds the same
    native value, and the [$or] list holds the same clauses, which stand
    in processing order. *)
Theorem filter_order_independent (reserved : list string) (q : query) (w' : obj) :
  In "where" reserved ->
  NoDup (map fst (where_of q)) ->
  ~ In "$or" (map fst (where_of q)) ->
  ~ In "$or" (map fst (q_params q)) ->
  Permutation (normalized_where reserved q) w' ->
  same_filter (getQuery reserved q) (translate_where w' []).
Proof.
  intros Hwh Hnd Hw Hp Hperm. apply is_reserved_In in Hwh.
  destruct (normalized_where_keys reserved q Hnd Hw Hp) as [H1 H2].
  unfold getQuery. rewrite Hwh.
  apply translate_where_permutation; assumption.
Qed.

(** ** Several operators on one field *)

Lemma field_steps_no_equality entries :
  Forall (fun kv => is_equality (fst kv) = false) entries ->
  forall sub, exists sub',
    field_steps (Some (VObj sub)) entries = Ok (Some (VObj sub'))
    /\ forall native, js_get sub' native = last_operand entries native (js_get sub native).
Proof.
  induction 1 as [|[op v] rest Hop _ IH]; intros sub; simpl.
  - exists sub. split; reflexivity.
  - unfold field_step, is_equality, last_operand in *. simpl in Hop.
    cbn [fold_left fst snd].
    destruct (classify op) as [|n| | |] eqn:Hc; try discriminate; simpl;
      try apply IH.
    destruct (IH (js_set sub n v)) as [sub' [Hs Hl]].
    exists sub'. split; [exact Hs|]. intros native. rewrite Hl.
    rewrite js_get_js_set. reflexivity.
Qed.

Lemma field_steps_no_equality_new entries :
  Forall (fun kv => is_equality (fst kv) = false) entries ->
  existsb (fun kv => is_comparison (fst kv)) entries = true ->
  exists sub,
    field_steps None entries = Ok (Some (VObj sub))
    /\ forall native, js_get sub native = last_operand entries native None.
Proof.
  induction 1 as [|[op v] rest Hop HF IH]; simpl; [discriminate|].
  unfold field_step, is_equality, is_comparison, last_operand in *. simpl in Hop.
  cbn [fold_left fst snd].
  destruct (classify op) as [|n| | |] eqn:Hc; try discriminate; simpl;
    try apply IH.
  intros _.
  destruct (field_steps_no_equality rest HF (js_set [] n v)) as [sub [Hs Hl]].
  exists sub. split; [exact Hs|]. intros native.
  unfold last_operand in Hl. rewrite Hl, js_get_js_set. reflexivity.
Qed.

(** ** One field next to any other field

    What follows asks nothing of the other fields of [where]: one of them
    may be named [$or] and hold anything under that key. *)

Lemma push_or_frame mongoQuery clause d' :
  push_or mongoQuery clause = Ok d' ->
  forall k, k <> "$or" -> js_get d' k = js_get mongoQuery k.
Proof.
  unfold push_or. destruct (push _ clause) as [cur'|]; simpl; [|discriminate].
  intros H k Hk. injection H as <-. rewrite !js_get_js_set.
  destruct (String.eqb_spec "$or" k); [congruence|reflexivity].
Qed.

Lemma apply_op_frame field mongoQuery op v d' :
  apply_op field mongoQuery op v = Ok d' ->
  forall k, k <> field -> k <> "$or" -> js_get d' k = js_get mongoQuery k.
Proof.
  unfold apply_op. destruct (classify op) as [|native| |native|].
  - intros H k Hk _. injection H as <-. rewrite js_get_js_set.
    destruct (String.eqb_spec field k); [congruence|reflexivity].
  - destruct (assign_named _ native v) as [cur'|]; simpl; [|discriminate].
    intros H k Hk _. injection H as <-. rewrite !js_get_js_set.
    destruct (String.eqb_spec field k); [congruence|reflexivity].
  - intros H k _ Hk. apply (push_or_frame _ _ _ H k Hk).
  - intros H k _ Hk. apply (push_or_frame _ _ _ H k Hk).
  - intros H k _ _. injection H as <-. reflexivity.
Qed.

Lemma apply_op_own field mongoQuery op v d' :
  field <> "$or" ->
  apply_op field mongoQuery op v = Ok d' ->
  field_step (js_get mongoQuery field) op v = Ok (js_get d' field).
Proof.
  intros Hf. unfold apply_op, field_step, prop.
  change (match js_get mongoQuery field with Some v => v | None => VUndefined end)
    with (value_of (js_get mongoQuery field)).
  destruct (classify op) as [|native| |native|].
  - intros H. injection H as <-. rewrite js_get_js_set, String.eqb_refl. reflexivity.
  - destruct (assign_named _ native v) as [cur'|]; simpl; [|discriminate].
    intros H. injection H as <-. rewrite !js_get_js_set, String.eqb_refl. reflexivity.
  - intros H. rewrite (push_or_frame _ _ _ H field Hf). reflexivity.
  - intros H. rewrite (push_or_frame _ _ _ H field Hf). reflexivity.
  - intros H. injection H as <-. reflexivity.
Qed.

Lemma forOwn_ops_frame field entries : forall mongoQuery d',
  forOwn_ops field entries mongoQuery = Ok d' ->
  forall k, k <> field -> k <> "$or" -> js_get d' k = js_get mongoQuery k.
Proof.
  induction entries as [|[op v] rest IH]; simpl; intros mq d' H k Hk Hko.
  - injection H as <-. reflexivity.
  - destruct (apply_op field mq op v) as [d1|] eqn:H1; [simpl in H|discriminate].
    rewrite (IH d1 d' H k Hk Hko). apply (apply_op_frame _ _ _ _ _ H1 k Hk Hko).
Qed.

Lemma forOwn_ops_own field entries : forall mongoQuery d',
  field <> "$or" ->
  forOwn_ops field entries mongoQuery = Ok d' ->
  field_steps (js_get mongoQuery field) entries = Ok (js_get d' field).
Proof.
  induction entries as [|[op v] rest IH]; simpl; intros mq d' Hf H.
  - injection H as <-. reflexivity.
  - destruct (apply_op field mq op v) as [d1|] eqn:H1; [simpl in H|discriminate].
    rewrite (apply_op_own _ _ _ _ _ Hf H1). simpl. apply (IH d1 d' Hf H).
Qed.

Lemma translate_field_frame field criteria mongoQuery d' :
  translate_field field criteria mongoQuery = Ok d' ->
  forall k, k <> field -> k <> "$or" -> js_get d' k = js_get mongoQuery k.
Proof.
  unfold translate_field.
  destruct (own_entries criteria) as [entries|]; simpl; [|discriminate].
  apply forOwn_ops_frame.
Qed.

Lemma translate_field_own field criteria mongoQuery d' :
  field <> "$or" ->
  translate_field field criteria mongoQuery = Ok d' ->
  field_value (js_get mongoQuery field) criteria = Ok (js_get d' field).
Proof.
  unfold translate_field, field_value.
  destruct (own_entries criteria) as [entries|]; simpl; [|discriminate].
  apply forOwn_ops_own.
Qed.

Lemma translate_where_frame where_ : forall mongoQuery d',
  translate_where where_ mongoQuery = Ok d' ->
  forall k, ~ In k (map fst where_) -> k <> "$or" -> js_get d' k = js_get mongoQuery k.
Proof.
  induction where_ as [|[f c] rest IH]; simpl; intros mq d' H k Hk Hko.
  - injection H as <-. reflexivity.
  - destruct (translate_field f c mq) as [d1|] eqn:H1; [simpl in H|discriminate].
    rewrite (IH d1 d' H k); [|tauto|exact Hko].
    apply (translate_field_frame _ _ _ _ H1); [|exact Hko].
    intros ->. apply Hk. left. reflexivity.
Qed.

Lemma translate_where_own where_ : forall mongoQuery d' field criteria,
  NoDup (map fst where_) ->
  translate_where where_ mongoQuery = Ok d' ->
  In (field, criteria) where_ ->
  field <> "$or" ->
  field_value (js_get mongoQuery field) criteria = Ok (js_get d' field).
Proof.
  induction where_ as [|[f c] rest IH]; simpl; intros mq d' field criteria Hnd H Hin Hf;
    [contradiction|].
  apply NoDup_cons_iff in Hnd as [Hout Hnd].
  destruct (translate_field f c mq) as [d1|] eqn:H1; [simpl in H|discriminate].
  destruct Hin as [E|Hin].
  - injection E as -> ->.
    rewrite (translate_where_frame _ _ _ H field Hout Hf).
    apply (translate_field_own _ _ _ _ Hf H1).
  - assert (Hne : field <> f).
    { intros ->. apply Hout. apply in_map_iff. exists (f, criteria). auto. }
    rewrite <- (translate_field_frame _ _ _ _ H1 field Hne Hf).
    apply (IH d1 d' field criteria Hnd H Hin Hf).
Qed.

Lemma normalized_where_NoDup reserved q :
  NoDup (map fst (where_of q)) ->
  NoDup (map fst (normalized_where reserved q)).
Proof.
  intros Hnd. unfold normalized_where.
  assert (E : match q_where q with Some w => plainCopy_obj w | None => [] end
              = plainCopy_obj (where_of q)).
  { unfold where_of. destruct (q_where q); reflexivity. }
  rewrite E. apply fold_params_keys. rewrite keys_plainCopy_obj. exact Hnd.
Qed.

(** C3 (amended). A field that is not named [$or], whatever the other
    fields of [where] are, and whose entry is an object with no equality
    operator ([==], [===], [contains]) and at least one of [!=], [!==],
    [notContains], [>], [>=], [<], [<=], [in], [notIn], gets one native
    sub-document that composes all its non-OR operators: each native key
    holds the operand of the last operator mapped to it, and there is no
    other key.  [where] is an object: no key of it stands twice. *)
Theorem comparisons_compose (reserved : list string) (q : query)
        (field : string) (entries : obj) (d : obj) :
  getQuery reserved q = Ok d ->
  NoDup (map fst (where_of q)) ->
  field <> "$or" ->
  In (field, VObj entries) (normalized_where reserved q) ->
  Forall (fun kv => is_equality (fst kv) = false) entries ->
  existsb (fun kv => is_comparison (fst kv)) entries = true ->
  exists sub,
    js_get d field = Some (VObj sub)
    /\ forall native, js_get sub native = last_operand entries native None.
Proof.
  intros Hq Hnd0 Hf Hin Hne HF.
  pose proof (normalized_where_NoDup reserved q Hnd0) as Hnd.
  unfold getQuery in Hq.
  destruct (is_reserved reserved "where"); [|discriminate].
  pose proof (translate_where_own _ _ _ field (VObj entries) Hnd Hq Hin Hf) as Hv.
  unfold field_value in Hv. simpl in Hv.
  destruct (field_steps_no_equality_new entries Hne HF) as [sub [Hs Hl]].
  rewrite Hs in Hv. injection Hv as Hv. exists sub. split; [symmetry; exact Hv|exact Hl].
Qed.

(** * Properties of the executor *)

Ltac run :=
  unfold bind, lift, log, read, write, throw, ret, getClient, run_hook, Promise_all;
  simpl.

Ltac flatten_trace :=
  repeat rewrite <- app_assoc; simpl.

Section ExecutorFacts.

Context {DB : Type} (self : Host DB).

Lemma find_no_record (m : mapper) (o : opts) (rels : list (relation * plan))
      (id before after : value) (w : world DB) :
  client self = Ok tt ->
  hook self "beforeFind" [id] = Ok before ->
  native_findOne self (collection_of self m)
    (js_set [] (idAttribute m) (toObjectID self m id))
    (with_fields (plainCopy_obj (getOpt self findOneOpts o_findOneOpts o)))
    (db w) = Ok None ->
  hook self "afterFind" [id; respond self not_found_envelope o] = Ok after ->
  find self (Plan m o rels) id w =
    (Ok (reassign after (respond self not_found_envelope o)),
     World (db w)
           (trace w ++
            [Hook "beforeFind";
             FindOne (collection_of self m)
                     (js_set [] (idAttribute m) (toObjectID self m id))
                     (with_fields (plainCopy_obj (getOpt self findOneOpts o_findOneOpts o)));
             Hook "afterFind"])).
Proof.
  intros Hc Hb Hn Ha.
  unfold find. run. rewrite Hc, Hb. simpl. rewrite Hn. simpl.
  change (js_set (Response VUndefined [] "find") "found" (VNum 0))
    with not_found_envelope.
  rewrite Ha. flatten_trace. reflexivity.
Qed.

(** C10. When [find] matches no record the call resolves: no relation
    is resolved (the only call to the store is the [findOne]), and the
    envelope has an undefined payload and a [found] count of 0. *)
Theorem find_resolves_when_nothing_matches
      (m : mapper) (o : opts) (rels : list (relation * plan))
      (id before : value) (w : world DB) :
  client self = Ok tt ->
  hook self "beforeFind" [id] = Ok before ->
  native_findOne self (collection_of self m)
    (js_set [] (idAttribute m) (toObjectID self m id))
    (with_fields (plainCopy_obj (getOpt self findOneOpts o_findOneOpts o)))
    (db w) = Ok None ->
  hook self "afterFind" [id; respond self not_found_envelope o] = Ok VUndefined ->
  exists envelope,
    find self (Plan m o rels) id w =
      (Ok (respond self envelope o),
       World (db w)
             (trace w ++
              [Hook "beforeFind";
               FindOne (collection_of self m)
                       (js_set [] (idAttribute m) (toObjectID self m id))
                       (with_fields (plainCopy_obj
                                       (getOpt self findOneOpts o_findOneOpts o)));
               Hook "afterFind"]))
    /\ prop envelope "data" = VUndefined
    /\ prop envelope "found" = VNum 0
    /\ prop envelope "op" = VStr "find".
Proof.
  intros Hc Hb Hn Ha. exists not_found_envelope.
  rewrite (find_no_record m o rels id before VUndefined w Hc Hb Hn Ha).
  repeat split.
Qed.

(** C5. When no record has the given id, [update] fails with the
    'Not Found' error of its pre-read: the [beforeUpdate] hook is not
    called, no write reaches the store, and the store is unchanged. *)
Theorem update_not_found
      (m : mapper) (id before : value) (props : obj) (o : opts) (w : world DB) :
  client self = Ok tt ->
  hook self "beforeFind" [id] = Ok before ->
  native_findOne self (collection_of self m)
    (js_set [] (idAttribute m) (toObjectID self m id))
    (with_fields (plainCopy_obj (findOneOpts self)))
    (db w) = Ok None ->
  hook self "afterFind" [id; VUndefined] = Ok VUndefined ->
  exists events,
    update self m id props o w =
      (Throw (Error "Not Found"), World (db w) (trace w ++ events))
    /\ events =
         [Hook "beforeFind";
          FindOne (collection_of self m)
                  (js_set [] (idAttribute m) (toObjectID self m id))
                  (with_fields (plainCopy_obj (findOneOpts self)));
          Hook "afterFind"]
    /\ ~ In (Hook "beforeUpdate") events
    /\ (forall c f u x, ~ In (UpdateOne c f u x) events)
    /\ (forall c f u x, ~ In (UpdateMany c f u x) events).
Proof.
  intros Hc Hb Hn Ha.
  eexists. split; [|split; [reflexivity|]].
  - unfold update. unfold bind at 1.
    rewrite (find_no_record m raw_false [] id before VUndefined w Hc Hb Hn Ha).
    reflexivity.
  - repeat split; intros; simpl; intuition discriminate.
Qed.

(** ** Relations that a bulk read cannot load *)

Lemma localKeys_query_filter (related : mapper) (keys : list value) :
  In "where" (reserved self) ->
  getQuery (reserved self) (localKeys_query self related keys)
  = Ok (in_filter (idAttribute related)
          (map plainCopy (map (toObjectID self related)
                              (List.filter truthy (unique keys))))).
Proof.
  intros Hw. unfold getQuery, normalized_where, localKeys_query. simpl.
  rewrite (proj2 (is_reserved_In _ _) Hw). apply translate_in_clause.
Qed.

Lemma start_read_localKeys (related : mapper) (keys : list value)
      (read_related : query -> M DB value) :
  In "where" (reserved self) ->
  start_read self read_related (localKeys_query self related keys)
  = Ok (read_related (localKeys_query self related keys)).
Proof.
  intros Hw. unfold start_read. rewrite (localKeys_query_filter _ _ Hw). reflexivity.
Qed.

Lemma findAll_task_by_foreignKeys m records def sub read_related :
  by_foreignKeys def = true ->
  findAll_task self m records def sub read_related = Throw unsupported.
Proof.
  unfold by_foreignKeys, findAll_task. intros H.
  apply andb_prop in H as [H Hfks]. apply andb_prop in H as [H Hlk].
  apply andb_prop in H as [Hty Hfk].
  apply negb_true_iff in Hfk, Hlk.
  rewrite Hfk, Hlk, Hty, Hfks. reflexivity.
Qed.

(** The callbacks of the other relations start their task. *)
Lemma findAll_task_starts m records def sub read_related :
  In "where" (reserved self) ->
  by_foreignKeys def = false ->
  exists task, findAll_task self m records def sub read_related = Ok task.
Proof.
  intros Hw H. unfold by_foreignKeys in H. unfold findAll_task.
  destruct (is_set (foreignKey def) && _) eqn:E1.
  { destruct (is_hasMany (type def)); eauto. }
  destruct (is_hasMany (type def) && is_set (localKeys def)) eqn:E2.
  { rewrite (start_read_localKeys _ _ _ Hw). simpl. eauto. }
  destruct (is_hasMany (type def) && is_set (foreignKeys def)) eqn:E3.
  - exfalso. apply andb_prop in E3 as [Hty Hfks].
    rewrite Hty, Hfks in *. simpl in E2. rewrite E2 in H.
    destruct (type def); try discriminate.
    rewrite andb_true_r in E1. rewrite E1 in H. discriminate.
  - destruct (type def); eauto.
Qed.

(** The loop stops at the first relation by [foreignKeys], with the
    tasks of the relations before it. *)
Lemma collect_tasks_unsupported m records (read_related : plan -> query -> M DB value)
      (earlier later : list (relation * plan)) (def : relation) (sub : plan) :
  In "where" (reserved self) ->
  existsb (fun ds => by_foreignKeys (fst ds)) earlier = false ->
  by_foreignKeys def = true ->
  let callback := fun def sub =>
                    findAll_task self m records def sub (read_related sub) in
  collect_tasks callback (earlier ++ (def, sub) :: later)
  = (fst (collect_tasks callback earlier), Some unsupported).
Proof.
  intros Hw He Hd callback. subst callback.
  induction earlier as [|[def1 sub1] rest IH]; simpl.
  - rewrite (findAll_task_by_foreignKeys _ _ _ _ _ Hd). reflexivity.
  - simpl in He. apply orb_false_iff in He as [H1 He].
    destruct (findAll_task_starts m records def1 sub1 (read_related sub1) Hw H1)
      as [task Ht].
    rewrite Ht, (IH He). destruct task; reflexivity.
Qed.

Lemma collect_tasks_throws m records (read_related : plan -> query -> M DB value)
      (rels : list (relation * plan)) :
  existsb (fun ds => by_foreignKeys (fst ds)) rels = true ->
  exists e,
    snd (collect_tasks
           (fun def sub => findAll_task self m records def sub (read_related sub))
           rels) = Some e.
Proof.
  induction rels as [|[def sub] rest IH]; simpl; [discriminate|].
  intros H.
  destruct (findAll_task self m records def sub (read_related sub)) as [t|e] eqn:Ht.
  - simpl. destruct (by_foreignKeys def) eqn:Hd.
    + rewrite (findAll_task_by_foreignKeys _ _ _ _ _ Hd) in Ht. discriminate.
    + simpl in H. apply (IH H).
  - simpl. eauto.
Qed.

(** The relations of [rels] before the first one by [foreignKeys]. *)
Lemma first_by_foreignKeys (rels : list (relation * plan)) :
  existsb (fun ds => by_foreignKeys (fst ds)) rels = true ->
  exists earlier def sub later,
    rels = earlier ++ (def, sub) :: later
    /\ existsb (fun ds => by_foreignKeys (fst ds)) earlier = false
    /\ by_foreignKeys def = true.
Proof.
  induction rels as [|[def sub] rest IH]; simpl; [discriminate|].
  destruct (by_foreignKeys def) eqn:Hd.
  - intros _. exists [], def, sub, rest. auto.
  - simpl. intros H. destruct (IH H) as [earlier [d [s' [later [E [H1 H2]]]]]].
    exists ((def, sub) :: earlier), d, s', later. subst. simpl. rewrite Hd. auto.
Qed.

(** C6. [updateMany] throws 'not supported!' on every input and calls
    nothing.  A [findAll] that has a hasMany-by-foreignKeys relation to
    load never resolves: once its own read has succeeded it fails with
    the 'not supported' error, thrown by the callback of the first such
    relation.  The relations after it are not looked at.  Those before
    it have started their task by then, and these tasks run on, so the
    store is asked what they ask; when the relation comes first, the
    only call to the store is the read of the records, which is not
    retried. *)
Theorem bulk_unsupported_operations
      (m : mapper) (o : opts) (rels : list (relation * plan)) :
  existsb (fun ds => by_foreignKeys (fst ds)) rels = true ->
  (forall m' records o' (w : world DB),
      updateMany m' records o' w = (Throw (Error "not supported!"), w))
  /\ (forall q (w : world DB),
         exists e, fst (findAll self (Plan m o rels) q w) = Throw e)
  /\ (forall q (w : world DB) mongoQuery before _records,
         getQuery (reserved self) q = Ok mongoQuery ->
         client self = Ok tt ->
         hook self "beforeFindAll" [query_value q] = Ok before ->
         native_find self (collection_of self m) mongoQuery
           (with_fields (fillIn (plainCopy_obj (getOpt self findOpts o_findOpts o))
                                (getQueryOptions (toNumber self) q)))
           (db w) = Ok _records ->
         let w1 :=
           World (db w)
                 (trace w ++
                  [Hook "beforeFindAll";
                   Find (collection_of self m) mongoQuery
                        (with_fields
                           (fillIn (plainCopy_obj (getOpt self findOpts o_findOpts o))
                                   (getQueryOptions (toNumber self) q)))]) in
         let records := _translateId self _records o in
         fst (findAll self (Plan m o rels) q w) = Throw unsupported
         /\ (forall def sub later,
                rels = (def, sub) :: later ->
                by_foreignKeys def = true ->
                findAll self (Plan m o rels) q w = (Throw unsupported, w1))
         /\ (forall earlier def sub later,
                rels = earlier ++ (def, sub) :: later ->
                existsb (fun ds => by_foreignKeys (fst ds)) earlier = false ->
                by_foreignKeys def = true ->
                findAll self (Plan m o rels) q w =
                  (Throw unsupported,
                   snd (run_tasks
                          (fst (collect_tasks
                                  (fun def sub =>
                                     findAll_task self m records def sub
                                                  (findAll self sub))
                                  earlier))
                          records w1)))).
Proof.
  intros Hrels. split; [reflexivity|]. split.
  - intros q w. simpl. run.
    destruct (getQuery (reserved self) q) as [mq|e]; [|simpl; eauto].
    destruct (client self) as [[]|e]; [|simpl; eauto].
    destruct (hook self "beforeFindAll" [query_value q]) as [b|e]; [|simpl; eauto].
    simpl.
    destruct (native_find self _ _ _ (db w)) as [recs|e]; [|simpl; eauto].
    destruct (collect_tasks_throws m (_translateId self recs o) (findAll self) rels Hrels)
      as [e He].
    unfold Promise_all. rewrite He. simpl. eauto.
  - intros q w mq b recs Hq Hc Hb Hn w1 records.
    assert (Hw : In "where" (reserved self)).
    { apply is_reserved_In. unfold getQuery in Hq.
      destruct (is_reserved (reserved self) "where"); [reflexivity|discriminate]. }
    assert (Hrun : forall earlier def sub later,
               rels = earlier ++ (def, sub) :: later ->
               existsb (fun ds => by_foreignKeys (fst ds)) earlier = false ->
               by_foreignKeys def = true ->
               findAll self (Plan m o rels) q w =
                 (Throw unsupported,
                  snd (run_tasks
                         (fst (collect_tasks
                                 (fun def sub =>
                                    findAll_task self m records def sub
                                                 (findAll self sub))
                                 earlier))
                         records w1))).
    { intros earlier def sub later -> He Hd. simpl. run.
      rewrite Hq, Hc, Hb. simpl. rewrite Hn.
      fold records.
      rewrite (collect_tasks_unsupported m records (findAll self) earlier later def sub
                 Hw He Hd).
      unfold Promise_all. simpl. flatten_trace. reflexivity. }
    split; [|split].
    + destruct (first_by_foreignKeys rels Hrels)
        as [earlier [def [sub [later [E [He Hd]]]]]].
      rewrite (Hrun earlier def sub later E He Hd). reflexivity.
    + intros def sub later E Hd.
      rewrite (Hrun [] def sub later E eq_refl Hd). reflexivity.
    + exact Hrun.
Qed.

(** ** Reads that load no relation *)

Lemma findAll_plain (m : mapper) (o : opts) (q : query) (w : world DB)
      (mongoQuery : obj) (before after : value) (_records : list obj) :
  getQuery (reserved self) q = Ok mongoQuery ->
  client self = Ok tt ->
  hook self "beforeFindAll" [query_value q] = Ok before ->
  native_find self (collection_of self m) mongoQuery (findAll_options self o q) (db w)
    = Ok _records ->
  hook self "afterFindAll"
       [query_value q;
        respond self (findAll_envelope (_translateId self _records o)) o] = Ok after ->
  findAll self (Plan m o []) q w =
    (Ok (reassign after
           (respond self (findAll_envelope (_translateId self _records o)) o)),
     World (db w)
           (trace w ++
            [Hook "beforeFindAll";
             Find (collection_of self m) mongoQuery (findAll_options self o q);
             Hook "afterFindAll"])).
Proof.
  intros Hq Hc Hb Hn Ha. simpl. run.
  rewrite Hq, Hc, Hb. simpl.
  fold (findAll_options self o q). rewrite Hn.
  fold (findAll_envelope (_translateId self _records o)). rewrite Ha.
  flatten_trace. reflexivity.
Qed.

Lemma map_result_records (m : mapper) (records : list obj) :
  map_result (fun record =>
                rbind (get_member record (idAttribute m))
                      (fun id => Ok (toObjectID self m id)))
             (map VObj records)
  = Ok (map (fun r => toObjectID self m (prop r (idAttribute m))) records).
Proof.
  induction records as [|r rest IH]; simpl; [reflexivity|].
  rewrite IH. reflexivity.
Qed.

(** ** The batch of hasMany-by-localKeys *)

Lemma respond_data (response : obj) (o : opts) :
  getOpt self raw o_raw o = false -> respond self response o = prop response "data".
Proof. intros H. unfold respond. rewrite H. reflexivity. Qed.

Lemma attached_to_listed (related : mapper) (itemKeys : list value) (items : list obj) :
  attached_to related itemKeys (map VObj items)
  = Ok (map VObj (List.filter
                    (fun r => includes itemKeys (prop r (idAttribute related))) items)).
Proof.
  induction items as [|r items IH]; simpl; [reflexivity|].
  rewrite IH. simpl. destruct (includes itemKeys _); reflexivity.
Qed.

Lemma attach_all_listed (related : mapper) (def : relation) (items records : list obj) :
  attach_all related def (arr (map VObj items)) records
  = Ok (map (fun item =>
               js_set item (localField def)
                      (arr (map VObj (List.filter (listed_by related def item) items))))
            records).
Proof.
  induction records as [|item records IH]; simpl; [reflexivity|].
  rewrite attached_to_listed. simpl. rewrite IH. reflexivity.
Qed.

Lemma prop_findAll_envelope_data (records : list obj) :
  prop (findAll_envelope records) "data" = arr (map VObj records).
Proof.
  unfold findAll_envelope. rewrite prop_js_set_other by discriminate.
  apply Response_data. discriminate.
Qed.

(** One relation by [localKeys], on any records. *)
Lemma findAll_by_localKeys
        (m related : mapper) (def : relation) (o o' : opts) (q : query)
        (w : world DB) (mongoQuery : obj) (parents children : list obj) :
  In "where" (reserved self) ->
  client self = Ok tt ->
  (forall op args, hook self op args = Ok VUndefined) ->
  getOpt self raw o_raw o' = false ->
  type def = hasMany ->
  is_set (foreignKey def) = false ->
  is_set (localKeys def) = true ->
  getQuery (reserved self) q = Ok mongoQuery ->
  native_find self (collection_of self m) mongoQuery (findAll_options self o q) (db w)
    = Ok parents ->
  let records := _translateId self parents o in
  let keys :=
    flat_map (fun item => keys_of (prop item (key_name (localKeys def)))) records in
  let batch :=
    in_filter (idAttribute related)
      (map plainCopy (map (toObjectID self related)
                          (List.filter truthy (unique keys)))) in
  native_find self (collection_of self related) batch (find_options self o') (db w)
    = Ok children ->
  let relatedItems := _translateId self children o' in
  findAll self (Plan m o [(def, Plan related o' [])]) q w =
    (Ok (respond self
           (findAll_envelope
              (map (fun item =>
                      js_set item (localField def)
                             (arr (map VObj (List.filter (listed_by related def item)
                                                         relatedItems))))
                   records)) o),
     World (db w)
           (trace w ++
            [Hook "beforeFindAll";
             Find (collection_of self m) mongoQuery (findAll_options self o q);
             Hook "beforeFindAll";
             Find (collection_of self related) batch (find_options self o');
             Hook "afterFindAll";
             Hook "afterFindAll"])).
Proof.
  intros Hw Hc Hh Hraw Hty Hfk Hlk Hq Hp records keys batch Hch relatedItems.
  pose proof (localKeys_query_filter related keys Hw) as Hq2. fold batch in Hq2.
  unfold findAll at 1; fold (@findAll DB self).
  unfold bind, lift, log, read, ret, getClient, run_hook.
  rewrite Hq, Hc, !Hh. cbn -[findAll]. fold (findAll_options self o q).
  rewrite Hp. fold records.
  unfold findAll_task. rewrite Hty, Hfk, Hlk. cbn -[findAll start_read]. fold keys.
  rewrite (start_read_localKeys related keys (findAll self (Plan related o' [])) Hw).
  unfold Promise_all. cbn -[findAll]. unfold bind, lift.
  rewrite (findAll_plain related o' (localKeys_query self related keys)
             (World (db w) _) batch VUndefined VUndefined children
             Hq2 Hc (Hh _ _) Hch (Hh _ _)).
  fold relatedItems.
  rewrite (respond_data _ o' Hraw), prop_findAll_envelope_data.
  cbn -[findAll]. rewrite attach_all_listed. cbn -[findAll].
  rewrite Hh. flatten_trace. reflexivity.
Qed.

(** C7. The batch of hasMany-by-localKeys in [findAll]: for the parents
    [{id: 1, localKeys: [10, 20]}] and [{id: 2, localKeys: [20, 30]}] one
    query goes to the related collection, with the [$in] filter over the
    keys 10, 20, 30 (the union without duplicates and falsy keys, each
    through [toObjectID]); the records 10 and 20 are attached to parent 1
    and the records 20 and 30 to parent 2. *)
Theorem localKeys_batch (o o' : opts) (w : world DB) :
  In "where" (reserved self) ->
  client self = Ok tt ->
  (forall op args, hook self op args = Ok VUndefined) ->
  getOpt self raw o_raw o' = false ->
  native_find self (collection_of self parent_mapper) [] (find_options self o) (db w)
    = Ok [parent1; parent2] ->
  native_find self (collection_of self child_mapper)
              (in_filter "id" [VNum 10; VNum 20; VNum 30]) (find_options self o') (db w)
    = Ok [child 10; child 20; child 30] ->
  let kept (r : obj) := VObj (_translateId1 self r o') in
  let data :=
    arr [VObj (js_set (_translateId1 self parent1 o) "children"
                      (arr [kept (child 10); kept (child 20)]));
         VObj (js_set (_translateId1 self parent2 o) "children"
                      (arr [kept (child 20); kept (child 30)]))] in
  findAll self (family_plan o o') (Query None []) w =
    (Ok (respond self (js_set (Response data [] "findAll") "found" (VNum 2)) o),
     World (db w)
           (trace w ++
            [Hook "beforeFindAll";
             Find (collection_of self parent_mapper) [] (find_options self o);
             Hook "beforeFindAll";
             Find (collection_of self child_mapper)
                  (in_filter "id" [VNum 10; VNum 20; VNum 30]) (find_options self o');
             Hook "afterFindAll";
             Hook "afterFindAll"])).
Proof.
  intros Hwh Hc Hh Hraw Hp Hch kept data. subst kept data.
  assert (Hq : getQuery (reserved self) (Query None []) = Ok []).
  { unfold getQuery. rewrite (proj2 (is_reserved_In _ _) Hwh). reflexivity. }
  pose proof (findAll_by_localKeys parent_mapper child_mapper children_def o o'
                (Query None []) w [] [parent1; parent2]
                [child 10; child 20; child 30]
                Hwh Hc Hh Hraw eq_refl eq_refl eq_refl Hq Hp) as H.
  cbv zeta in H. unfold family_plan.
  unfold _translateId, _translateId1 in *.
  destruct (getOpt self translateId o_translateId o);
    destruct (getOpt self translateId o_translateId o');
    (rewrite (H Hch); reflexivity).
Qed.

(** ** The bulk update *)

(** C4. [updateAll] reads the records that match the query and keeps
    their identifiers, issues one multi-record update, and reads again by
    those identifiers; the payload of its envelope is the records of that
    second read, [updated] is their number, and the payload is not the
    acknowledgement of the driver. *)
Theorem updateAll_returns_second_read
      (m : mapper) (props : obj) (q : query) (o : opts) (w : world DB)
      (mongoQuery _props cursor : obj) (records1 records2 : list obj)
      (d' : DB) :
  client self = Ok tt ->
  (forall op args, hook self op args = Ok VUndefined) ->
  In "where" (reserved self) ->
  ~ In (idAttribute m) (reserved self) ->
  getQuery (reserved self) q = Ok mongoQuery ->
  withoutRelations m (VObj props) = Ok _props ->
  native_find self (collection_of self m) mongoQuery
              (findAll_options self raw_false q) (db w) = Ok records1 ->
  let ids := map (fun r => toObjectID self m (prop r (idAttribute m)))
                 (_translateId self records1 raw_false) in
  let update := js_set (getQueryOptions (toNumber self) q) "$set" (VObj _props) in
  let options := js_set (plainCopy_obj (getOpt self updateOpts o_updateOpts o))
                        "multi" (VBool true) in
  let by_ids := in_filter (idAttribute m) (map plainCopy ids) in
  native_updateMany self (collection_of self m) mongoQuery update options (db w)
    = (Ok cursor, d') ->
  native_find self (collection_of self m) by_ids
              (findAll_options self raw_false (ids_query m ids)) d' = Ok records2 ->
  exists envelope,
    updateAll self m props q o w =
      (Ok (respond self envelope o),
       World d'
             (trace w ++
              [Hook "beforeUpdateAll";
               Hook "beforeFindAll";
               Find (collection_of self m) mongoQuery (findAll_options self raw_false q);
               Hook "afterFindAll";
               UpdateMany (collection_of self m) mongoQuery update options;
               Hook "beforeFindAll";
               Find (collection_of self m) by_ids
                    (findAll_options self raw_false (ids_query m ids));
               Hook "afterFindAll";
               Hook "afterUpdateAll"]))
    /\ prop envelope "data" = arr (map VObj (_translateId self records2 raw_false))
    /\ prop envelope "updated" = VNum (Z.of_nat (List.length records2))
    /\ prop envelope "data" <> VObj cursor.
Proof.
  intros Hc Hh Hwh Hid Hq Hp H1 ids update options by_ids Hu H2.
  pose proof (ids_query_filter (reserved self) m ids Hwh Hid) as Hq2.
  fold by_ids in Hq2.
  unfold withoutRelations, omit in Hp. simpl in Hp. injection Hp as Hp.
  eexists. split; [|split; [|split]].
  - unfold updateAll, bind, lift, log, read, write, throw, ret, getClient, run_hook.
    cbn -[findAll]. rewrite Hc, Hq, !Hh. cbn -[findAll]. rewrite Hp.
    rewrite (findAll_plain m raw_false q (World (db w) _)
                           mongoQuery VUndefined VUndefined records1
                           Hq Hc (Hh _ _) H1 (Hh _ _)).
    cbn -[findAll]. rewrite map_result_records. fold ids. fold update. fold options.
    cbn -[findAll]. rewrite Hu.
    rewrite (findAll_plain m raw_false (ids_query m ids)
               (World d' _) by_ids VUndefined VUndefined records2
               Hq2 Hc (Hh _ _) H2 (Hh _ _)).
    cbn -[findAll]. rewrite Hh. flatten_trace. reflexivity.
  - rewrite prop_js_set_other by discriminate.
    rewrite Response_data by discriminate. reflexivity.
  - rewrite prop_js_set_same. unfold _translateId.
    destruct (getOpt self translateId o_translateId raw_false);
      rewrite ?length_map; reflexivity.
  - rewrite prop_js_set_other by discriminate.
    rewrite Response_data; discriminate.
Qed.

(** ** Identifier translation on the read paths *)







(** *** Plans, level by level *)




(** *** Records that keep all but some properties *)










(** *** The tasks of the relations *)











(** *** The reads *)




End ExecutorFacts.

(** * The statements on concrete inputs *)

(** ** The translator *)

Lemma scenario_translation_witness :
  (In "where" Adapter_reserved
   /\ In "orderBy" Adapter_reserved /\ In "limit" Adapter_reserved
   /\ ~ In "status" Adapter_reserved /\ ~ In "age" Adapter_reserved
   /\ toNumber_int (VNum 10) = VNum 10)
  /\ normalized_where Adapter_reserved scenario_query =
       [("status", VObj [("==", VStr "active")]); ("age", VObj [(">", VNum 18)])]
  /\ getQuery Adapter_reserved scenario_query =
       Ok [("status", VStr "active"); ("age", VObj [("$gt", VNum 18)])]
  /\ getQueryOptions toNumber_int scenario_query =
       [("sort", arr [arr [VStr "name"; VStr "asc"]]); ("limit", VNum 10)].
Proof.
  assert (h0 : In "where" Adapter_reserved) by (simpl; tauto).
  assert (h1 : In "orderBy" Adapter_reserved) by (simpl; tauto).
  assert (h2 : In "limit" Adapter_reserved) by (simpl; tauto).
  assert (h3 : ~ In "status" Adapter_reserved) by (simpl; intuition discriminate).
  assert (h4 : ~ In "age" Adapter_reserved) by (simpl; intuition discriminate).
  assert (h5 : toNumber_int (VNum 10) = VNum 10) by reflexivity.
  exact (conj (conj h0 (conj h1 (conj h2 (conj h3 (conj h4 h5)))))
              (scenario_translation Adapter_reserved toNumber_int h0 h1 h2 h3 h4 h5)).
Defined.

(** C2, as stated, fails: two fields with an OR operator each give the
    [$or] list in processing order, so the two orders give two filters. *)
Lemma disjunction_follows_processing_order :
  let a := ("a", VObj [("|==", VNum 1)]) in
  let b := ("b", VObj [("|==", VNum 2)]) in
  Permutation [a; b] [b; a]
  /\ getQuery Adapter_reserved (Query (Some [a; b]) []) =
       Ok [("$or", arr [VObj [("a", VNum 1)]; VObj [("b", VNum 2)]])]
  /\ getQuery Adapter_reserved (Query (Some [b; a]) []) =
       Ok [("$or", arr [VObj [("b", VNum 2)]; VObj [("a", VNum 1)]])]
  /\ getQuery Adapter_reserved (Query (Some [a; b]) []) <>
     getQuery Adapter_reserved (Query (Some [b; a]) []).
Proof.
  intros a b. split; [apply perm_swap|].
  split; [reflexivity|]. split; [reflexivity|]. discriminate.
Qed.

Lemma filter_order_independent_witness :
  let q := Query (Some mixed_where) [] in
  (In "where" Adapter_reserved
   /\ NoDup (map fst (where_of q)) /\ ~ In "$or" (map fst (where_of q))
   /\ ~ In "$or" (map fst (q_params q))
   /\ Permutation (normalized_where Adapter_reserved q) (rev mixed_where))
  /\ same_filter (getQuery Adapter_reserved q) (translate_where (rev mixed_where) []).
Proof.
  intros q.
  assert (h0 : In "where" Adapter_reserved) by (simpl; tauto).
  assert (h1 : NoDup (map fst (where_of q))).
  { simpl. repeat constructor; simpl; intuition discriminate. }
  assert (h2 : ~ In "$or" (map fst (where_of q))) by (simpl; intuition discriminate).
  assert (h3 : ~ In "$or" (map fst (q_params q))) by (simpl; tauto).
  assert (h4 : Permutation (normalized_where Adapter_reserved q) (rev mixed_where))
    by apply Permutation_rev.
  exact (conj (conj h0 (conj h1 (conj h2 (conj h3 h4))))
              (filter_order_independent Adapter_reserved q (rev mixed_where)
                                        h0 h1 h2 h3 h4)).
Defined.

(** C3, as stated, fails: an equality operator is not composed, it
    replaces what the field held. *)
Lemma equality_replaces_the_subdocument :
  let q := Query (Some [("age", VObj [(">", VNum 18); ("==", VNum 5)])]) [] in
  getQuery Adapter_reserved q = Ok [("age", VNum 5)]
  /\ forall d sub, getQuery Adapter_reserved q = Ok d ->
                   js_get d "age" <> Some (VObj sub).
Proof.
  intros q. split; [reflexivity|].
  intros d sub H. vm_compute in H. injection H as <-. discriminate.
Qed.

Lemma comparisons_compose_witness :
  let entries := [(">", VNum 18); ("|==", VNum 99); ("<=", VNum 65)] in
  let q := Query (Some [("age", VObj entries); ("$or", VObj [(">", VNum 1)])]) [] in
  let d := [("age", VObj [("$gt", VNum 18); ("$lte", VNum 65)]);
            ("$or", VArr [VObj [("age", VNum 99)]] [("$gt", VNum 1)])] in
  (getQuery Adapter_reserved q = Ok d
   /\ NoDup (map fst (where_of q))
   /\ "age" <> "$or"
   /\ In ("age", VObj entries) (normalized_where Adapter_reserved q)
   /\ Forall (fun kv => is_equality (fst kv) = false) entries
   /\ existsb (fun kv => is_comparison (fst kv)) entries = true)
  /\ exists sub,
       js_get d "age" = Some (VObj sub)
       /\ forall native, js_get sub native = last_operand entries native None.
Proof.
  intros entries q d.
  assert (h1 : getQuery Adapter_reserved q = Ok d) by reflexivity.
  assert (h2 : NoDup (map fst (where_of q))).
  { simpl. repeat constructor; simpl; intuition discriminate. }
  assert (h3 : "age" <> "$or") by discriminate.
  assert (h4 : In ("age", VObj entries) (normalized_where Adapter_reserved q))
    by (left; reflexivity).
  assert (h5 : Forall (fun kv => is_equality (fst kv) = false) entries)
    by (repeat constructor).
  assert (h6 : existsb (fun kv => is_comparison (fst kv)) entries = true)
    by reflexivity.
  exact (conj (conj h1 (conj h2 (conj h3 (conj h4 (conj h5 h6)))))
              (comparisons_compose Adapter_reserved q "age" entries d
                                   h1 h2 h3 h4 h5 h6)).
Defined.

Lemma unrecognized_operator_ignored_witness :
  classify "like" = OpUnknown
  /\ (forall field mongoQuery,
         apply_op field mongoQuery "like" (VStr "A%") = Ok mongoQuery)
  /\ (forall q q', query_without "like" (VStr "A%") q q' ->
                   getQuery Adapter_reserved q = getQuery Adapter_reserved q').
Proof.
  assert (h : classify "like" = OpUnknown) by reflexivity.
  exact (conj h (unrecognized_operator_ignored Adapter_reserved "like" (VStr "A%") h)).
Defined.

(** ** The executor, on the in-memory store *)

Lemma find_resolves_when_nothing_matches_witness :
  let id := VNum 99 in
  (client memory_host = Ok tt
   /\ hook memory_host "beforeFind" [id] = Ok VUndefined
   /\ native_findOne memory_host "child" [("id", VNum 99)] [("fields", VObj [])]
                     family_db = Ok None
   /\ hook memory_host "afterFind" [id; respond memory_host not_found_envelope no_opts]
      = Ok VUndefined)
  /\ exists envelope,
       find memory_host (Plan child_mapper no_opts []) id family_world =
         (Ok (respond memory_host envelope no_opts),
          World family_db
                [Hook "beforeFind";
                 FindOne "child" [("id", VNum 99)] [("fields", VObj [])];
                 Hook "afterFind"])
       /\ prop envelope "data" = VUndefined
       /\ prop envelope "found" = VNum 0
       /\ prop envelope "op" = VStr "find".
Proof.
  intros id.
  assert (h1 : client memory_host = Ok tt) by reflexivity.
  assert (h2 : hook memory_host "beforeFind" [id] = Ok VUndefined) by reflexivity.
  assert (h3 : native_findOne memory_host "child" [("id", VNum 99)]
                              [("fields", VObj [])] family_db = Ok None) by reflexivity.
  assert (h4 : hook memory_host "afterFind"
                    [id; respond memory_host not_found_envelope no_opts]
               = Ok VUndefined) by reflexivity.
  exact (conj (conj h1 (conj h2 (conj h3 h4)))
              (find_resolves_when_nothing_matches memory_host child_mapper no_opts []
                 id VUndefined family_world h1 h2 h3 h4)).
Defined.

Lemma update_not_found_witness :
  let id := VNum 99 in
  let props := [("name", VStr "Zoe")] in
  (client memory_host = Ok tt
   /\ hook memory_host "beforeFind" [id] = Ok VUndefined
   /\ native_findOne memory_host "child" [("id", VNum 99)] [("fields", VObj [])]
                     family_db = Ok None
   /\ hook memory_host "afterFind" [id; VUndefined] = Ok VUndefined)
  /\ exists events,
       update memory_host child_mapper id props no_opts family_world =
         (Throw (Error "Not Found"), World family_db events)
       /\ events =
            [Hook "beforeFind";
             FindOne "child" [("id", VNum 99)] [("fields", VObj [])];
             Hook "afterFind"]
       /\ ~ In (Hook "beforeUpdate") events
       /\ (forall c f u x, ~ In (UpdateOne c f u x) events)
       /\ (forall c f u x, ~ In (UpdateMany c f u x) events).
Proof.
  intros id props.
  assert (h1 : client memory_host = Ok tt) by reflexivity.
  assert (h2 : hook memory_host "beforeFind" [id] = Ok VUndefined) by reflexivity.
  assert (h3 : native_findOne memory_host "child" [("id", VNum 99)]
                              [("fields", VObj [])] family_db = Ok None) by reflexivity.
  assert (h4 : hook memory_host "afterFind" [id; VUndefined] = Ok VUndefined)
    by reflexivity.
  exact (conj (conj h1 (conj h2 (conj h3 h4)))
              (update_not_found memory_host child_mapper id VUndefined props no_opts
                 family_world h1 h2 h3 h4)).
Defined.

Lemma bulk_unsupported_operations_witness :
  existsb (fun ds => by_foreignKeys (fst ds))
          [(children_def, Plan child_mapper no_opts []);
           (tags_def, Plan child_mapper no_opts [])] = true
  /\ updateMany parent_mapper [parent1] no_opts family_world =
       (Throw (Error "not supported!"), family_world)
  /\ findAll memory_host tags_plan (Query None []) family_world =
       (Throw unsupported,
        World family_db [Hook "beforeFindAll";
                         Find "parent" [] [("fields", VObj [])];
                         Hook "beforeFindAll";
                         Find "child" (in_filter "id" [VNum 10; VNum 20; VNum 30])
                              [("fields", VObj [])];
                         Hook "afterFindAll"]).
Proof.
  assert (h : existsb (fun ds => by_foreignKeys (fst ds))
                      [(children_def, Plan child_mapper no_opts []);
                       (tags_def, Plan child_mapper no_opts [])] = true)
    by reflexivity.
  destruct (bulk_unsupported_operations memory_host parent_mapper no_opts _ h)
    as [Hmany [_ Hall]].
  split; [exact h|]. split; [apply Hmany|].
  destruct (Hall (Query None []) family_world [] VUndefined [parent1; parent2]
                 eq_refl eq_refl eq_refl eq_refl) as [_ [_ Hrun]].
  exact (Hrun [(children_def, Plan child_mapper no_opts [])] tags_def
              (Plan child_mapper no_opts []) [] eq_refl eq_refl eq_refl).
Defined.

Lemma localKeys_batch_witness :
  let children (l : list Z) :=
    arr (map (fun n => VObj [("id", VNum n); ("_id", VUndefined)]) l) in
  (In "where" (reserved memory_host)
   /\ client memory_host = Ok tt
   /\ (forall op args, hook memory_host op args = Ok VUndefined)
   /\ getOpt memory_host raw o_raw no_opts = false
   /\ native_find memory_host "parent" [] [("fields", VObj [])] family_db
      = Ok [parent1; parent2]
   /\ native_find memory_host "child" (in_filter "id" [VNum 10; VNum 20; VNum 30])
                  [("fields", VObj [])] family_db
      = Ok [child 10; child 20; child 30])
  /\ findAll memory_host (family_plan no_opts no_opts) (Query None []) family_world =
       (Ok (arr [VObj (parent1 ++ [("_id", VUndefined); ("children", children [10; 20]%Z)]);
                 VObj (parent2 ++ [("_id", VUndefined); ("children", children [20; 30]%Z)])]),
        World family_db
              [Hook "beforeFindAll";
               Find "parent" [] [("fields", VObj [])];
               Hook "beforeFindAll";
               Find "child" (in_filter "id" [VNum 10; VNum 20; VNum 30])
                    [("fields", VObj [])];
               Hook "afterFindAll";
               Hook "afterFindAll"]).
Proof.
  intros children.
  assert (h0 : In "where" (reserved memory_host)) by (simpl; tauto).
  assert (h1 : client memory_host = Ok tt) by reflexivity.
  assert (h2 : forall op args, hook memory_host op args = Ok VUndefined)
    by reflexivity.
  assert (h3 : getOpt memory_host raw o_raw no_opts = false) by reflexivity.
  assert (h4 : native_find memory_host "parent" [] [("fields", VObj [])] family_db
               = Ok [parent1; parent2]) by reflexivity.
  assert (h5 : native_find memory_host "child"
                           (in_filter "id" [VNum 10; VNum 20; VNum 30])
                           [("fields", VObj [])] family_db
               = Ok [child 10; child 20; child 30]) by reflexivity.
  exact (conj (conj h0 (conj h1 (conj h2 (conj h3 (conj h4 h5)))))
              (localKeys_batch memory_host no_opts no_opts family_world
                               h0 h1 h2 h3 h4 h5)).
Defined.

Lemma updateAll_returns_second_read_witness :
  let props := [("flag", VBool true)] in
  let mongoQuery := [("status", VStr "active")] in
  let matched := [user 1 "active"; user 3 "active"; user 4 "active"] in
  let reread := [updated_user 1 "active"; updated_user 3 "active";
                 updated_user 4 "active"] in
  let ids := [VNum 1; VNum 3; VNum 4] in
  let cursor := [("modifiedCount", VNum 3)] in
  let w := World users_db [] in
  (client memory_host = Ok tt
   /\ (forall op args, hook memory_host op args = Ok VUndefined)
   /\ In "where" Adapter_reserved
   /\ ~ In "id" Adapter_reserved
   /\ getQuery Adapter_reserved active_query = Ok mongoQuery
   /\ native_find memory_host "user" mongoQuery [("fields", VObj [])] users_db
      = Ok matched
   /\ native_updateMany memory_host "user" mongoQuery [("$set", VObj props)]
                        [("multi", VBool true)] users_db
      = (Ok cursor, users_db')
   /\ native_find memory_host "user" (in_filter "id" ids) [("fields", VObj [])] users_db'
      = Ok reread)
  /\ exists envelope,
       updateAll memory_host user_mapper props active_query no_opts w =
         (Ok (arr (map (fun r => VObj (r ++ [("_id", VUndefined)])) reread)),
          World users_db'
                [Hook "beforeUpdateAll";
                 Hook "beforeFindAll";
                 Find "user" mongoQuery [("fields", VObj [])];
                 Hook "afterFindAll";
                 UpdateMany "user" mongoQuery [("$set", VObj props)]
                            [("multi", VBool true)];
                 Hook "beforeFindAll";
                 Find "user" (in_filter "id" ids) [("fields", VObj [])];
                 Hook "afterFindAll";
                 Hook "afterUpdateAll"])
       /\ prop envelope "data" =
            arr (map (fun r => VObj (r ++ [("_id", VUndefined)])) reread)
       /\ prop envelope "updated" = VNum 3
       /\ prop envelope "data" <> VObj cursor.
Proof.
  intros props mongoQuery matched reread ids cursor w.
  assert (h1 : client memory_host = Ok tt) by reflexivity.
  assert (h2 : forall op args, hook memory_host op args = Ok VUndefined)
    by reflexivity.
  assert (h3 : getQuery Adapter_reserved active_query = Ok mongoQuery) by reflexivity.
  assert (h4 : native_find memory_host "user" mongoQuery [("fields", VObj [])] users_db
               = Ok matched) by reflexivity.
  assert (h5 : native_updateMany memory_host "user" mongoQuery [("$set", VObj props)]
                                 [("multi", VBool true)] users_db
               = (Ok cursor, users_db')) by reflexivity.
  assert (hw : In "where" Adapter_reserved) by (simpl; tauto).
  assert (hi : ~ In "id" Adapter_reserved) by (simpl; intuition discriminate).
  assert (h7 : native_find memory_host "user" (in_filter "id" ids)
                           [("fields", VObj [])] users_db'
               = Ok reread) by reflexivity.
  split; [exact (conj h1 (conj h2 (conj hw (conj hi (conj h3 (conj h4 (conj h5 h7)))))))|].
  destruct (updateAll_returns_second_read memory_host user_mapper props active_query
              no_opts w mongoQuery props cursor matched reread
              users_db' h1 h2 hw hi h3 eq_refl h4 h5 h7)
    as [envelope [Hrun [Hdata [Hupdated Hack]]]].
  change (respond memory_host envelope no_opts) with (prop envelope "data") in Hrun.
  rewrite Hdata in Hrun.
  exists envelope. split; [exact Hrun|]. split; [exact Hdata|].
  split; [exact Hupdated|exact Hack].
Defined.



(** * More of the query translator *)

(** ** Reserved words *)

Lemma fold_params_unreserved reserved params : forall w,
  fold_params reserved (plainCopy_obj (unreserved reserved params)) w
  = fold_params reserved (plainCopy_obj params) w.
Proof.
  induction params as [|[k c] rest IH]; intros w; simpl; [reflexivity|].
  destruct (is_reserved reserved k) eqn:Hk; simpl; [apply IH|].
  rewrite Hk. apply IH.
Qed.

Lemma fold_params_all_reserved reserved params : forall w,
  (forall k, In k (map fst params) -> In k reserved) ->
  fold_params reserved (plainCopy_obj params) w = w.
Proof.
  induction params as [|[k c] rest IH]; intros w H; simpl; [reflexivity|].
  rewrite (proj2 (is_reserved_In reserved k)) by (apply H; left; reflexivity).
  apply IH. intros k' Hk'. apply H. right. exact Hk'.
Qed.

(** X1. The reserved words at the top level of a query ([orderBy],
    [limit], ...) never reach the filter: the query translates as it
    does without them. *)
Theorem reserved_words_are_no_filters (reserved : list string) (q : query) :
  getQuery reserved q
  = getQuery reserved (Query (q_where q) (unreserved reserved (q_params q))).
Proof.
  unfold getQuery, normalized_where. simpl.
  rewrite fold_params_unreserved. reflexivity.
Qed.

(** ** The fields of the filter *)

Lemma apply_op_keys field mongoQuery op v d k :
  apply_op field mongoQuery op v = Ok d ->
  In k (map fst d) ->
  k = field \/ k = "$or" \/ In k (map fst mongoQuery).
Proof.
  unfold apply_op, push_or.
  destruct (classify op); simpl.
  - intros H; injection H as <-. intros Hk.
    apply In_keys_js_set in Hk as [->|Hk]; auto.
  - destruct (assign_named _ _ _); simpl; [|discriminate].
    intros H; injection H as <-. intros Hk.
    apply In_keys_js_set in Hk as [->|Hk]; auto.
    apply In_keys_js_set in Hk as [->|Hk]; auto.
  - destruct (push _ _); simpl; [|discriminate].
    intros H; injection H as <-. intros Hk.
    apply In_keys_js_set in Hk as [->|Hk]; auto.
    apply In_keys_js_set in Hk as [->|Hk]; auto.
  - destruct (push _ _); simpl; [|discriminate].
    intros H; injection H as <-. intros Hk.
    apply In_keys_js_set in Hk as [->|Hk]; auto.
    apply In_keys_js_set in Hk as [->|Hk]; auto.
  - intros H; injection H as <-. auto.
Qed.

Lemma forOwn_ops_keys field entries : forall mongoQuery d k,
  forOwn_ops field entries mongoQuery = Ok d ->
  In k (map fst d) ->
  k = field \/ k = "$or" \/ In k (map fst mongoQuery).
Proof.
  induction entries as [|[op v] rest IH]; intros mq d k; simpl.
  - intros H; injection H as <-. auto.
  - destruct (apply_op field mq op v) as [mq'|] eqn:Ha; simpl; [|discriminate].
    intros H Hk. destruct (IH _ _ _ H Hk) as [E|[E|Hin]]; auto.
    apply (apply_op_keys _ _ _ _ _ _ Ha Hin).
Qed.

Lemma translate_where_keys where_ : forall mongoQuery d k,
  translate_where where_ mongoQuery = Ok d ->
  In k (map fst d) ->
  k = "$or" \/ In k (map fst where_) \/ In k (map fst mongoQuery).
Proof.
  induction where_ as [|[field c] rest IH]; intros mq d k; simpl.
  - intros H; injection H as <-. auto.
  - unfold translate_field.
    destruct (own_entries c) as [entries|]; simpl; [|discriminate].
    destruct (forOwn_ops field entries mq) as [mq'|] eqn:Hf; simpl; [|discriminate].
    intros H Hk. destruct (IH _ _ _ H Hk) as [E|[Hin|Hin]]; auto.
    destruct (forOwn_ops_keys _ _ _ _ _ Hf Hin) as [E|[E|Hin']]; auto.
Qed.

Lemma fold_params_fields reserved params : forall w x,
  In x (map fst (fold_params reserved params w)) ->
  In x (map fst w) \/ (In x (map fst params) /\ ~ In x reserved).
Proof.
  induction params as [|[k c] rest IH]; simpl; intros w x Hx; [auto|].
  destruct (is_reserved reserved k) eqn:Hk.
  - destruct (IH _ _ Hx) as [H|[H1 H2]]; auto.
  - destruct (IH _ _ Hx) as [H|[H1 H2]]; auto.
    apply In_keys_js_set in H as [->|H]; auto.
    right. split; [auto|]. intros Hin.
    apply is_reserved_In in Hin. congruence.
Qed.

(** X2. The translator never filters on a field that the query does not
    name: a key of the filter is [$or], a field of [where], or a
    top-level property that is not a reserved word. *)
Theorem filter_fields_come_from_the_query
        (reserved : list string) (q : query) (d : obj) (k : string) :
  getQuery reserved q = Ok d ->
  In k (map fst d) ->
  k = "$or"
  \/ In k (map fst (where_of q))
  \/ (In k (map fst (q_params q)) /\ ~ In k reserved).
Proof.
  unfold getQuery. destruct (is_reserved reserved "where"); [|discriminate].
  intros H Hk. destruct (translate_where_keys _ _ _ _ H Hk) as [E|[Hin|[]]]; auto.
  unfold normalized_where in Hin. apply fold_params_fields in Hin.
  rewrite keys_plainCopy_obj in Hin. destruct Hin as [Hin|Hin]; auto.
  right. left. unfold where_of. destruct (q_where q); [|destruct Hin].
  rewrite keys_plainCopy_obj in Hin. exact Hin.
Qed.

Lemma filter_fields_come_from_the_query_witness :
  getQuery Adapter_reserved scenario_query
    = Ok [("status", VStr "active"); ("age", VObj [("$gt", VNum 18)])]
  /\ In "age" (map fst [("status", VStr "active"); ("age", VObj [("$gt", VNum 18)])])
  /\ ("age" = "$or"
      \/ In "age" (map fst (where_of scenario_query))
      \/ (In "age" (map fst (q_params scenario_query))
          /\ ~ In "age" Adapter_reserved)).
Proof.
  assert (h0 : getQuery Adapter_reserved scenario_query
               = Ok [("status", VStr "active"); ("age", VObj [("$gt", VNum 18)])])
    by reflexivity.
  assert (h1 : In "age" (map fst [("status", VStr "active");
                                  ("age", VObj [("$gt", VNum 18)])]))
    by (simpl; auto).
  exact (conj h0 (conj h1
           (filter_fields_come_from_the_query Adapter_reserved scenario_query
              _ "age" h0 h1))).
Defined.

(** ** Queries of plain pairs *)

Lemma js_set_fresh o k v :
  ~ In k (map fst o) -> array_index k = None -> js_set o k v = o ++ [(k, v)].
Proof.
  intros Hk Hi. unfold js_set.
  rewrite (proj2 (js_get_None o k) Hk), Hi. reflexivity.
Qed.

Lemma isObject_plainCopy v : isObject (plainCopy v) = isObject v.
Proof. destruct v; reflexivity. Qed.

Lemma fold_params_plain_pairs reserved params : forall w,
  NoDup (map fst params) ->
  (forall k, In k (map fst params) -> ~ In k (map fst w)) ->
  Forall (fun kv => ~ In (fst kv) reserved
                    /\ array_index (fst kv) = None
                    /\ isObject (snd kv) = false) params ->
  fold_params reserved (plainCopy_obj params) w
  = w ++ map (fun kv => (fst kv, VObj [("==", plainCopy (snd kv))])) params.
Proof.
  induction params as [|[k c] rest IH]; intros w Hnd Hw HF; simpl.
  - rewrite app_nil_r. reflexivity.
  - inversion Hnd as [|? ? Hk Hnd']; subst.
    inversion HF as [|? ? [Hr [Hi Ho]] HF']; subst. simpl in *.
    rewrite (is_reserved_not_In reserved k Hr), isObject_plainCopy, Ho.
    rewrite js_set_fresh by auto.
    rewrite IH; auto.
    + rewrite <- app_assoc. reflexivity.
    + intros k' Hk' Hin. rewrite map_app in Hin. apply in_app_or in Hin.
      destruct Hin as [Hin|[<-|[]]]; [apply (Hw k'); auto|contradiction].
Qed.

Lemma translate_plain_pairs params : forall mongoQuery,
  NoDup (map fst params) ->
  (forall k, In k (map fst params) -> ~ In k (map fst mongoQuery)) ->
  Forall (fun kv : string * value => array_index (fst kv) = None) params ->
  translate_where (map (fun kv => (fst kv, VObj [("==", plainCopy (snd kv))])) params)
                  mongoQuery
  = Ok (mongoQuery ++ plainCopy_obj params).
Proof.
  induction params as [|[k c] rest IH]; intros mq Hnd Hm HF; simpl.
  - rewrite app_nil_r. reflexivity.
  - inversion Hnd as [|? ? Hk Hnd']; subst.
    inversion HF as [|? ? Hi HF']; subst. simpl in *.
    unfold translate_field, apply_op. simpl.
    rewrite js_set_fresh by auto.
    rewrite IH; auto.
    + rewrite <- app_assoc. reflexivity.
    + intros k' Hk' Hin. rewrite map_app in Hin. apply in_app_or in Hin.
      destruct Hin as [Hin|[<-|[]]]; [apply (Hm k'); auto|contradiction].
Qed.

(** X3. A query of plain pairs, [{field: value, ...}] with values that
    are not objects and fields that are neither reserved words nor array
    indices, is its own filter: each pair is an equality, and the filter
    is the copy of the query. *)
Theorem plain_pairs_translate_to_themselves (reserved : list string) (params : obj) :
  In "where" reserved ->
  NoDup (map fst params) ->
  Forall (fun kv => ~ In (fst kv) reserved
                    /\ array_index (fst kv) = None
                    /\ isObject (snd kv) = false) params ->
  getQuery reserved (Query None params) = Ok (plainCopy_obj params).
Proof.
  intros Hw Hnd HF. unfold getQuery, normalized_where. simpl.
  rewrite (proj2 (is_reserved_In reserved "where") Hw).
  rewrite fold_params_plain_pairs by (auto; intros k _ []).
  simpl. rewrite translate_plain_pairs; auto.
  eapply Forall_impl; [|exact HF]. intros kv [_ [H _]]. exact H.
Qed.

Lemma plain_pairs_translate_to_themselves_witness :
  let params := [("status", VStr "active"); ("age", VNum 18); ("tags", arr [VStr "a"])] in
  In "where" Adapter_reserved
  /\ NoDup (map fst params)
  /\ Forall (fun kv => ~ In (fst kv) Adapter_reserved
                       /\ array_index (fst kv) = None
                       /\ isObject (snd kv) = false) params
  /\ getQuery Adapter_reserved (Query None params) = Ok (plainCopy_obj params).
Proof.
  intros params.
  assert (h0 : In "where" Adapter_reserved) by (simpl; tauto).
  assert (h1 : NoDup (map fst params)).
  { repeat constructor; simpl; intuition discriminate. }
  assert (h2 : Forall (fun kv => ~ In (fst kv) Adapter_reserved
                                 /\ array_index (fst kv) = None
                                 /\ isObject (snd kv) = false) params).
  { repeat constructor; simpl; intuition discriminate. }
  exact (conj h0 (conj h1 (conj h2
           (plain_pairs_translate_to_themselves Adapter_reserved params h0 h1 h2)))).
Defined.

(** ** Criteria that are not objects *)

Lemma translate_where_app a b : forall mongoQuery,
  translate_where (a ++ b) mongoQuery
  = rbind (translate_where a mongoQuery) (translate_where b).
Proof.
  induction a as [|[field c] a IH]; intros mq; simpl; [reflexivity|].
  destruct (translate_field field c mq); simpl; [apply IH|reflexivity].
Qed.

Lemma classify_index_key i : classify (index_key i) = OpUnknown.
Proof. unfold index_key. destruct (Nat.to_uint i); reflexivity. Qed.

Lemma forOwn_ops_indexed {A} field (f : A -> value) (l : list A) : forall i mongoQuery,
  forOwn_ops field (indexed f l i) mongoQuery = Ok mongoQuery.
Proof.
  induction l as [|x l IH]; intros i mq; simpl; [reflexivity|].
  rewrite apply_op_unknown by apply classify_index_key. simpl. apply IH.
Qed.

Lemma translate_field_not_object field c mongoQuery :
  isObject c = false -> c <> VUndefined -> c <> VNull ->
  translate_field field (plainCopy c) mongoQuery = Ok mongoQuery.
Proof.
  intros Ho Hu Hn. unfold translate_field.
  destruct c; try discriminate; try contradiction; simpl; try reflexivity.
  - apply forOwn_ops_indexed.
  - rewrite app_nil_r. apply forOwn_ops_indexed.
Qed.

(** X4. Under [where], a criterion that is not an object (a number, a
    string, a boolean, an array) filters nothing: its own keys are read
    as operators and none is one, so the query translates as it does
    without the field. *)
Theorem criterion_that_is_no_object_filters_nothing
        (reserved : list string) (w1 w2 : obj) (field : string) (c : value)
        (params : obj) :
  isObject c = false -> c <> VUndefined -> c <> VNull ->
  (forall k, In k (map fst params) -> In k reserved) ->
  getQuery reserved (Query (Some (w1 ++ (field, c) :: w2)) params)
  = getQuery reserved (Query (Some (w1 ++ w2)) params).
Proof.
  intros Ho Hu Hn Hp. unfold getQuery, normalized_where. simpl.
  destruct (is_reserved reserved "where"); [|reflexivity].
  rewrite !fold_params_all_reserved by exact Hp.
  rewrite !plainCopy_obj_app. simpl. rewrite !translate_where_app.
  destruct (translate_where (plainCopy_obj w1) []) as [mq|]; simpl; [|reflexivity].
  rewrite translate_field_not_object by assumption. reflexivity.
Qed.

Lemma criterion_that_is_no_object_filters_nothing_witness :
  let w2 := [("age", VObj [(">", VNum 18)])] in
  isObject (VStr "active") = false
  /\ VStr "active" <> VUndefined
  /\ VStr "active" <> VNull
  /\ (forall k, In k (map fst [("limit", VNum 10)]) -> In k Adapter_reserved)
  /\ getQuery Adapter_reserved
       (Query (Some ([] ++ ("status", VStr "active") :: w2)) [("limit", VNum 10)])
     = getQuery Adapter_reserved (Query (Some ([] ++ w2)) [("limit", VNum 10)]).
Proof.
  intros w2.
  assert (h0 : isObject (VStr "active") = false) by reflexivity.
  assert (h1 : VStr "active" <> VUndefined) by discriminate.
  assert (h2 : VStr "active" <> VNull) by discriminate.
  assert (h3 : forall k, In k (map fst [("limit", VNum 10)]) -> In k Adapter_reserved).
  { intros k [<-|[]]. simpl. tauto. }
  exact (conj h0 (conj h1 (conj h2 (conj h3
           (criterion_that_is_no_object_filters_nothing
              Adapter_reserved [] w2 "status" (VStr "active") [("limit", VNum 10)]
              h0 h1 h2 h3))))).
Defined.

(** ** The errors of the translation *)

Lemma apply_op_TypeError field mongoQuery op v e :
  apply_op field mongoQuery op v = Throw e -> e = TypeError.
Proof.
  unfold apply_op, push_or, assign_named, push.
  destruct (classify op); simpl; try discriminate;
    match goal with |- context [or_default ?a ?b] => destruct (or_default a b) end;
    simpl; try discriminate; intros H; injection H as <-; reflexivity.
Qed.

Lemma forOwn_ops_TypeError field entries : forall mongoQuery e,
  forOwn_ops field entries mongoQuery = Throw e -> e = TypeError.
Proof.
  induction entries as [|[op v] rest IH]; intros mq e; simpl; [discriminate|].
  destruct (apply_op field mq op v) as [mq'|e'] eqn:Ha; simpl.
  - apply IH.
  - intros H; injection H as <-. apply (apply_op_TypeError _ _ _ _ _ Ha).
Qed.

Lemma translate_field_TypeError field c mongoQuery e :
  translate_field field c mongoQuery = Throw e -> e = TypeError.
Proof.
  unfold translate_field. destruct (own_entries c) as [entries|e'] eqn:Ho; simpl.
  - apply forOwn_ops_TypeError.
  - intros H; injection H as <-. destruct c; try discriminate; injection Ho as <-;
      reflexivity.
Qed.

Lemma translate_where_TypeError where_ : forall mongoQuery e,
  translate_where where_ mongoQuery = Throw e -> e = TypeError.
Proof.
  induction where_ as [|[field c] rest IH]; intros mq e; simpl; [discriminate|].
  destruct (translate_field field c mq) as [mq'|e'] eqn:Hf; simpl.
  - apply IH.
  - intros H; injection H as <-. apply (translate_field_TypeError _ _ _ _ Hf).
Qed.

(** A field of [where] that no top-level property names stays as it is. *)
Lemma In_replace_prop_other o k v k' v' :
  In (k, v) o -> k <> k' -> In (k, v) (replace_prop o k' v').
Proof.
  intros Hin Hne. induction o as [|[k0 v0] o IH]; simpl; [exact Hin|].
  destruct (String.eqb_spec k0 k') as [->|Hk].
  - destruct Hin as [E|Hin]; [injection E as <- <-; contradiction|right; exact Hin].
  - destruct Hin as [E|Hin]; [left; exact E|right; apply IH; exact Hin].
Qed.

Lemma In_insert_index o n k' v' (kv : string * value) :
  In kv o -> In kv (insert_index o n k' v').
Proof.
  intros Hin. induction o as [|[k0 v0] o IH]; simpl; [destruct Hin|].
  destruct (array_index k0) as [n'|]; [destruct (n <? n')%N|];
    try (right; exact Hin).
  destruct Hin as [E|Hin]; [left; exact E|right; apply IH; exact Hin].
Qed.

Lemma In_js_set_other o k v k' v' :
  In (k, v) o -> k <> k' -> In (k, v) (js_set o k' v').
Proof.
  intros Hin Hne. unfold js_set. destruct (js_get o k').
  - apply In_replace_prop_other; assumption.
  - destruct (array_index k'); [apply In_insert_index; exact Hin|].
    apply in_or_app. left. exact Hin.
Qed.

Lemma In_fold_params reserved params : forall w k v,
  In (k, v) w -> ~ In k (map fst params) ->
  In (k, v) (fold_params reserved params w).
Proof.
  induction params as [|[k0 c0] rest IH]; simpl; intros w k v Hin Hout; [exact Hin|].
  destruct (is_reserved reserved k0).
  - apply IH; [exact Hin|]. intros H. apply Hout. right. exact H.
  - apply IH.
    + apply In_js_set_other; [exact Hin|]. intros E. apply Hout. left. congruence.
    + intros H. apply Hout. right. exact H.
Qed.

Lemma In_normalized_where reserved where_ params field c :
  In (field, c) where_ -> ~ In field (map fst params) ->
  In (field, plainCopy c) (normalized_where reserved (Query (Some where_) params)).
Proof.
  intros Hin Hout. unfold normalized_where. simpl. apply In_fold_params.
  - unfold plainCopy_obj. apply in_map_iff. exists (field, c). split; [reflexivity|exact Hin].
  - rewrite keys_plainCopy_obj. exact Hout.
Qed.

(** A field whose translation throws makes the whole translation throw. *)
Lemma translate_where_throws_at where_ field c :
  In (field, c) where_ ->
  (forall mongoQuery, translate_field field c mongoQuery = Throw TypeError) ->
  forall mongoQuery, translate_where where_ mongoQuery = Throw TypeError.
Proof.
  intros Hin Hc. induction where_ as [|[field' c'] rest IH]; [destruct Hin|].
  intros mq. simpl.
  destruct Hin as [E|Hin].
  - injection E as -> ->. rewrite Hc. reflexivity.
  - destruct (translate_field field' c' mq) as [mq'|e] eqn:Hf; simpl.
    + apply IH. exact Hin.
    + rewrite (translate_field_TypeError _ _ _ _ Hf). reflexivity.
Qed.

(** X5. A field of [where] whose criterion is [null] or [undefined]
    makes the translation throw a TypeError, wherever the field stands
    and whatever the rest of the query is, unless a top-level property
    of the same name replaces it (at the top level the same value is an
    equality). *)
Theorem nullish_criterion_throws
        (reserved : list string) (where_ : obj) (field : string) (c : value)
        (params : obj) :
  In "where" reserved ->
  ~ In field (map fst params) ->
  In (field, c) where_ ->
  c = VUndefined \/ c = VNull ->
  getQuery reserved (Query (Some where_) params) = Throw TypeError.
Proof.
  intros Hw Hp Hin Hc. unfold getQuery.
  rewrite (proj2 (is_reserved_In reserved "where") Hw).
  apply (translate_where_throws_at _ field (plainCopy c)).
  - apply In_normalized_where; assumption.
  - intros mq. destruct Hc as [-> | ->]; reflexivity.
Qed.

Lemma nullish_criterion_throws_witness :
  let where_ := [("age", VObj [(">", VNum 18)]); ("deleted", VNull)] in
  let params := [("status", VStr "active"); ("limit", VNum 10)] in
  In "where" Adapter_reserved
  /\ ~ In "deleted" (map fst params)
  /\ In ("deleted", VNull) where_
  /\ (VNull = VUndefined \/ VNull = VNull)
  /\ getQuery Adapter_reserved (Query (Some where_) params) = Throw TypeError.
Proof.
  intros where_ params.
  assert (h0 : In "where" Adapter_reserved) by (simpl; tauto).
  assert (h1 : ~ In "deleted" (map fst params)) by (simpl; intuition discriminate).
  assert (h2 : In ("deleted", VNull) where_) by (simpl; auto).
  assert (h3 : VNull = VUndefined \/ VNull = VNull) by (right; reflexivity).
  exact (conj h0 (conj h1 (conj h2 (conj h3
           (nullish_criterion_throws Adapter_reserved where_ "deleted" VNull params
              h0 h1 h2 h3))))).
Defined.

Lemma plainCopy_primitive v : is_primitive v = true -> plainCopy v = v.
Proof. destruct v; try discriminate; reflexivity. Qed.

Lemma comparison_on_primitive_throws field mongoQuery op v x :
  is_comparison op = true ->
  is_primitive v = true -> truthy v = true ->
  apply_op field (js_set mongoQuery field v) op x = Throw TypeError.
Proof.
  unfold is_comparison, apply_op. destruct (classify op); try discriminate.
  intros _ Hp Ht. rewrite prop_js_set_same. unfold or_default. rewrite Ht.
  destruct v; try discriminate; reflexivity.
Qed.

(** X6. An equality operator followed, on the same field, by a
    comparison makes the translation throw a TypeError when the operand
    of the equality is a truthy primitive: the comparison is assigned as
    a property of that operand, in strict mode.  (The field is one of
    [where] that no top-level property replaces.) *)
Theorem comparison_after_equality_throws
        (reserved : list string) (where_ : obj) (field : string) (c1 c2 : obj)
        (op1 op2 : string) (v x : value) (params : obj) :
  In "where" reserved ->
  ~ In field (map fst params) ->
  In (field, VObj (c1 ++ (op1, v) :: (op2, x) :: c2)) where_ ->
  is_equality op1 = true ->
  is_comparison op2 = true ->
  is_primitive v = true ->
  truthy v = true ->
  getQuery reserved (Query (Some where_) params) = Throw TypeError.
Proof.
  intros Hw Hp Hin He Hc Hv Ht. unfold getQuery.
  rewrite (proj2 (is_reserved_In reserved "where") Hw).
  apply (translate_where_throws_at _ field
           (plainCopy (VObj (c1 ++ (op1, v) :: (op2, x) :: c2)))).
  - apply In_normalized_where; assumption.
  - intros mq. unfold translate_field. simpl.
    rewrite map_app. simpl. rewrite forOwn_ops_app.
    destruct (forOwn_ops field _ mq) as [mq1|e] eqn:H1; simpl.
    + rewrite (plainCopy_primitive v Hv).
      assert (E : apply_op field mq1 op1 v = Ok (js_set mq1 field v)).
      { unfold is_equality in He. unfold apply_op.
        destruct (classify op1); try discriminate. reflexivity. }
      rewrite E. simpl.
      rewrite (comparison_on_primitive_throws field mq1 op2 v (plainCopy x) Hc Hv Ht).
      reflexivity.
    + rewrite (forOwn_ops_TypeError _ _ _ _ H1). reflexivity.
Qed.

Lemma comparison_after_equality_throws_witness :
  let criteria := VObj ([] ++ ("==", VNum 5) :: (">", VNum 3) :: []) in
  let where_ := [("name", VObj [("!=", VStr "x")]); ("age", criteria)] in
  let params := [("status", VStr "active")] in
  In "where" Adapter_reserved
  /\ ~ In "age" (map fst params)
  /\ In ("age", criteria) where_
  /\ is_equality "==" = true
  /\ is_comparison ">" = true
  /\ is_primitive (VNum 5) = true
  /\ truthy (VNum 5) = true
  /\ getQuery Adapter_reserved (Query (Some where_) params) = Throw TypeError.
Proof.
  intros criteria where_ params.
  assert (h0 : In "where" Adapter_reserved) by (simpl; tauto).
  assert (h1 : ~ In "age" (map fst params)) by (simpl; intuition discriminate).
  assert (h2 : In ("age", criteria) where_) by (simpl; auto).
  exact (conj h0 (conj h1 (conj h2 (conj eq_refl (conj eq_refl (conj eq_refl
           (conj eq_refl
              (comparison_after_equality_throws Adapter_reserved where_ "age" [] []
                 "==" ">" (VNum 5) (VNum 3) params
                 h0 h1 h2 eq_refl eq_refl eq_refl eq_refl)))))))).
Defined.

(** ** The options of a query *)

Lemma prop_plainCopy_obj o k : prop (plainCopy_obj o) k = plainCopy (prop o k).
Proof.
  unfold prop. induction o as [|[k0 v0] o IH]; simpl; [reflexivity|].
  destruct (k0 =? k); [reflexivity|exact IH].
Qed.

Lemma truthy_plainCopy v : truthy (plainCopy v) = truthy v.
Proof. destruct v; reflexivity. Qed.

Lemma or_default_plainCopy a b :
  or_default (plainCopy a) (plainCopy b) = plainCopy (or_default a b).
Proof. unfold or_default. rewrite truthy_plainCopy. destruct (truthy a); reflexivity. Qed.

Lemma truthy_or_default a b : truthy (or_default a b) = truthy a || truthy b.
Proof. unfold or_default. destruct (truthy a) eqn:E; [exact E|reflexivity]. Qed.

(** X7. The options of a query depend only on its properties [orderBy],
    [sort], [skip], [offset] and [limit]: two queries that agree on them
    have the same options, whatever their filters are. *)
Theorem options_depend_on_five_properties
        (toNumber : value -> value) (q q' : query) :
  (forall k, In k option_params -> prop (q_params q) k = prop (q_params q') k) ->
  getQueryOptions toNumber q = getQueryOptions toNumber q'.
Proof.
  intros H. unfold getQueryOptions. rewrite !prop_plainCopy_obj.
  rewrite (H "orderBy"), (H "sort"), (H "skip"), (H "offset"), (H "limit");
    unfold option_params; simpl; tauto.
Qed.

Lemma options_depend_on_five_properties_witness :
  let q' := Query (Some [("age", VObj [("<", VNum 3)])])
                  [("limit", VNum 10); ("name", VStr "x"); ("orderBy", VStr "name")] in
  (forall k, In k option_params ->
             prop (q_params scenario_query) k = prop (q_params q') k)
  /\ getQueryOptions toNumber_int scenario_query = getQueryOptions toNumber_int q'.
Proof.
  intros q'.
  assert (h0 : forall k, In k option_params ->
                         prop (q_params scenario_query) k = prop (q_params q') k).
  { intros k Hk. unfold option_params in Hk. simpl in Hk.
    destruct Hk as [<-|[<-|[<-|[<-|[<-|[]]]]]]; reflexivity. }
  exact (conj h0 (options_depend_on_five_properties toNumber_int scenario_query q' h0)).
Defined.

(** X8. The options hold [sort], [skip] and [limit] and nothing else,
    each only when its source is truthy: [sort] comes from [orderBy] or
    else [sort], [skip] from [skip] or else [offset]; a [limit] or a
    [skip] of 0 is left out. *)
Theorem options_hold_what_is_truthy
        (toNumber : value -> value) (q : query) (k : string) :
  In k (map fst (getQueryOptions toNumber q)) <->
  (k = "sort" /\ (truthy (prop (q_params q) "orderBy")
                  || truthy (prop (q_params q) "sort")) = true)
  \/ (k = "skip" /\ (truthy (prop (q_params q) "skip")
                     || truthy (prop (q_params q) "offset")) = true)
  \/ (k = "limit" /\ truthy (prop (q_params q) "limit") = true).
Proof.
  unfold getQueryOptions. rewrite !prop_plainCopy_obj, !or_default_plainCopy.
  rewrite !truthy_plainCopy, !truthy_or_default.
  generalize (normalize_orderBy toNumber).
  intros f.
  destruct (truthy (prop (q_params q) "orderBy"));
    destruct (truthy (prop (q_params q) "sort"));
    destruct (truthy (prop (q_params q) "skip"));
    destruct (truthy (prop (q_params q) "offset"));
    destruct (truthy (prop (q_params q) "limit"));
    cbn;
    (split; [intros H; repeat (destruct H as [<-|H]; [tauto|]); destruct H
            |intros [[-> H]|[[-> H]|[-> H]]]; try discriminate; tauto]).
Qed.

Lemma prop_getQueryOptions_sort toNumber q :
  truthy (or_default (prop (q_params q) "orderBy") (prop (q_params q) "sort")) = true ->
  prop (getQueryOptions toNumber q) "sort"
  = normalize_orderBy toNumber
      (plainCopy (or_default (prop (q_params q) "orderBy") (prop (q_params q) "sort"))).
Proof.
  intros Ht. unfold getQueryOptions.
  rewrite !prop_plainCopy_obj, !or_default_plainCopy, !truthy_plainCopy, Ht.
  repeat match goal with
         | |- context [if ?b then _ else _] => destruct b
         end;
    repeat rewrite prop_js_set_other by discriminate;
    apply prop_js_set_same.
Qed.

(** X9. When [orderBy] (or else [sort]) is a field name or a list, the
    [sort] option is a list that holds no bare field name: a name alone
    becomes the one pair [[name, 'asc']], and a list keeps its length,
    each name in it paired with ['asc'] and every other element copied. *)
Theorem sort_pairs_every_field
        (toNumber : value -> value) (q : query) (orderBy : value) :
  or_default (prop (q_params q) "orderBy") (prop (q_params q) "sort") = orderBy ->
  truthy orderBy = true ->
  isString orderBy = true \/ (exists elems named, orderBy = VArr elems named) ->
  exists sort,
    prop (getQueryOptions toNumber q) "sort" = arr sort
    /\ Forall (fun x => isString x = false) sort
    /\ (forall s, orderBy = VStr s -> sort = [arr [VStr s; VStr "asc"]])
    /\ (forall elems named, orderBy = VArr elems named ->
          Forall2 (fun given out =>
                     match given with
                     | VStr s => out = arr [VStr s; VStr "asc"]
                     | _ => out = plainCopy given
                     end) elems sort).
Proof.
  intros E Ht Hshape.
  rewrite prop_getQueryOptions_sort by (rewrite E; exact Ht). rewrite E.
  destruct Hshape as [Hs|[elems [named ->]]].
  - destruct orderBy; try discriminate. simpl.
    exists [asc_pair s]. split; [reflexivity|]. split; [repeat constructor|].
    split; [intros s' H; injection H as <-; reflexivity|discriminate].
  - simpl. exists (map wrap_field (map plainCopy elems)).
    split; [reflexivity|]. split; [|split; [discriminate|]].
    + apply Forall_forall. intros x Hx. apply in_map_iff in Hx as [y [<- Hy]].
      apply in_map_iff in Hy as [z [<- Hz]]. destruct z; reflexivity.
    + intros elems' named' H. injection H as <- <-. clear.
      induction elems as [|x elems IH]; simpl; constructor; [|exact IH].
      destruct x; reflexivity.
Qed.

Lemma sort_pairs_every_field_witness :
  let q := Query None [("sort", arr [VStr "name"; arr [VStr "age"; VStr "desc"]])] in
  let orderBy := arr [VStr "name"; arr [VStr "age"; VStr "desc"]] in
  or_default (prop (q_params q) "orderBy") (prop (q_params q) "sort") = orderBy
  /\ truthy orderBy = true
  /\ (isString orderBy = true \/ (exists elems named, orderBy = VArr elems named))
  /\ exists sort,
       prop (getQueryOptions toNumber_int q) "sort" = arr sort
       /\ Forall (fun x => isString x = false) sort
       /\ (forall s, orderBy = VStr s -> sort = [arr [VStr s; VStr "asc"]])
       /\ (forall elems named, orderBy = VArr elems named ->
             Forall2 (fun given out =>
                        match given with
                        | VStr s => out = arr [VStr s; VStr "asc"]
                        | _ => out = plainCopy given
                        end) elems sort).
Proof.
  intros q orderBy.
  assert (h0 : or_default (prop (q_params q) "orderBy") (prop (q_params q) "sort")
               = orderBy) by reflexivity.
  assert (h1 : truthy orderBy = true) by reflexivity.
  assert (h2 : isString orderBy = true
               \/ (exists elems named, orderBy = VArr elems named)).
  { right. exists [VStr "name"; arr [VStr "age"; VStr "desc"]], []. reflexivity. }
  exact (conj h0 (conj h1 (conj h2
           (sort_pairs_every_field toNumber_int q orderBy h0 h1 h2)))).
Defined.

(** * More of the executor *)

Section MoreExecutorFacts.

Context {DB : Type} (self : Host DB) (writes : Writes DB).

(** ** What the driver is asked *)

Lemma js_get_plainCopy_obj o k :
  js_get (plainCopy_obj o) k = option_map plainCopy (js_get o k).
Proof.
  induction o as [|[k0 v0] o IH]; simpl; [reflexivity|].
  destruct (k0 =? k); [reflexivity|exact IH].
Qed.

Lemma plainCopy_defined v : v <> VUndefined -> plainCopy v <> VUndefined.
Proof. destruct v; simpl; congruence. Qed.

Lemma prop_findAll_options (o : opts) (q : query) (k : string) (v : value) :
  js_get (getOpt self findOpts o_findOpts o) k = Some v ->
  v <> VUndefined ->
  (k = "fields" -> truthy v = true) ->
  prop (findAll_options self o q) k = plainCopy v.
Proof.
  intros Hk Hv Hf. unfold findAll_options.
  assert (E : js_get (fillIn (plainCopy_obj (getOpt self findOpts o_findOpts o))
                             (getQueryOptions (toNumber self) q)) k
              = Some (plainCopy v)).
  { apply js_get_fillIn_kept; [|apply plainCopy_defined; exact Hv].
    rewrite js_get_plainCopy_obj, Hk. reflexivity. }
  unfold with_fields.
  destruct (String.eqb_spec k "fields") as [->|Hne].
  - unfold prop. rewrite E, truthy_plainCopy, (Hf eq_refl), E. reflexivity.
  - destruct (truthy (prop _ "fields")); cbv iota.
    + unfold prop. rewrite E. reflexivity.
    + rewrite prop_js_set_other by congruence. unfold prop. rewrite E. reflexivity.
Qed.

(** X10. The options that the caller or the adapter gives for the
    driver's [find] take precedence over those of the query: for
    [findOpts: {limit: 5}] and a query with [limit: 10], the driver is
    asked for 5.  ([fields] is kept when it is truthy.) *)
Theorem findOpts_take_precedence
        (m : mapper) (o : opts) (q : query) (w : world DB)
        (mongoQuery : obj) (before : value) (k : string) (v : value) :
  getQuery (reserved self) q = Ok mongoQuery ->
  client self = Ok tt ->
  hook self "beforeFindAll" [query_value q] = Ok before ->
  js_get (getOpt self findOpts o_findOpts o) k = Some v ->
  v <> VUndefined ->
  (k = "fields" -> truthy v = true) ->
  exists options rest,
    trace (snd (findAll self (Plan m o []) q w))
    = trace w ++ Hook "beforeFindAll"
              :: Find (collection_of self m) mongoQuery options :: rest
    /\ prop options k = plainCopy v.
Proof.
  intros Hq Hc Hb Hk Hv Hf.
  exists (findAll_options self o q).
  simpl. run. rewrite Hq, Hc, Hb. simpl.
  fold (findAll_options self o q).
  destruct (native_find self _ _ _ (db w)) as [records|e].
  - exists [Hook "afterFindAll"].
    split; [|apply prop_findAll_options; assumption].
    simpl. destruct (hook self "afterFindAll" _); simpl; flatten_trace; reflexivity.
  - exists []. split; [|apply prop_findAll_options; assumption].
    simpl. flatten_trace. reflexivity.
Qed.

(** ** Calls that cannot start *)

(** X11. With a query that does not translate no operation reaches the
    store: [findAll] and [updateAll] fail before any hook is called, and
    [destroyAll], which translates the query inside its chain, fails
    after its [beforeDestroyAll] hook. *)
Theorem untranslatable_query_reaches_no_store (q : query) (e : error) :
  getQuery (reserved self) q = Throw e ->
  (forall p w, findAll self p q w = (Throw e, w))
  /\ (forall m props o w,
         client self = Ok tt -> updateAll self m props q o w = (Throw e, w))
  /\ (forall m o w before,
         client self = Ok tt ->
         hook self "beforeDestroyAll" [query_value q] = Ok before ->
         destroyAll self writes m q o w
         = (Throw e, World (db w) (trace w ++ [Hook "beforeDestroyAll"]))).
Proof.
  intros Hq. split; [|split].
  - intros [m o rels] w. simpl. run. rewrite Hq. reflexivity.
  - intros m props o w Hc. unfold updateAll. run. rewrite Hc, Hq. reflexivity.
  - intros m o w before Hc Hb. unfold destroyAll. run. rewrite Hc, Hb, Hq.
    reflexivity.
Qed.

(** X12. When the connection to the store has failed, every operation
    rejects with the error of the connection, and calls neither a hook
    nor the store.  ([findAll] translates its query first.) *)
Theorem no_connection_no_call (e : error) :
  client self = Throw e ->
  (forall p id w, find self p id w = (Throw e, w))
  /\ (forall p q w mongoQuery,
         getQuery (reserved self) q = Ok mongoQuery ->
         findAll self p q w = (Throw e, w))
  /\ (forall m id props o w, update self m id props o w = (Throw e, w))
  /\ (forall m props q o w, updateAll self m props q o w = (Throw e, w))
  /\ (forall m props o w, create self writes m props o w = (Throw e, w))
  /\ (forall m props o w, createMany self writes m props o w = (Throw e, w))
  /\ (forall m id o w, destroy self writes m id o w = (Throw e, w))
  /\ (forall m q o w, destroyAll self writes m q o w = (Throw e, w)).
Proof.
  intros Hc. repeat split.
  - intros [m o rels] id w. unfold find. run. rewrite Hc. reflexivity.
  - intros [m o rels] q w mq Hq. simpl. run. rewrite Hq, Hc. reflexivity.
  - intros m id props o w. unfold update, find. run. rewrite Hc. reflexivity.
  - intros m props q o w. unfold updateAll. run. rewrite Hc. reflexivity.
  - intros m props o w. unfold create. run. rewrite Hc. reflexivity.
  - intros m props o w. unfold createMany. run. rewrite Hc. reflexivity.
  - intros m id o w. unfold destroy. run. rewrite Hc. reflexivity.
  - intros m q o w. unfold destroyAll. run. rewrite Hc. reflexivity.
Qed.

(** ** An update that finds its record *)

Lemma find_one_record (m : mapper) (o : opts) (id before after : value)
      (_record : obj) (w : world DB) :
  client self = Ok tt ->
  hook self "beforeFind" [id] = Ok before ->
  native_findOne self (collection_of self m)
    (js_set [] (idAttribute m) (toObjectID self m id))
    (with_fields (plainCopy_obj (getOpt self findOneOpts o_findOneOpts o)))
    (db w) = Ok (Some _record) ->
  hook self "afterFind"
       [id; respond self (found_envelope (_translateId1 self _record o)) o] = Ok after ->
  find self (Plan m o []) id w =
    (Ok (reassign after
           (respond self (found_envelope (_translateId1 self _record o)) o)),
     World (db w)
           (trace w ++
            [Hook "beforeFind";
             FindOne (collection_of self m)
                     (js_set [] (idAttribute m) (toObjectID self m id))
                     (with_fields (plainCopy_obj (getOpt self findOneOpts o_findOneOpts o)));
             Hook "afterFind"])).
Proof.
  intros Hc Hb Hn Ha.
  unfold find. run. rewrite Hc, Hb. simpl. rewrite Hn. simpl.
  fold (found_envelope (_translateId1 self _record o)).
  rewrite Ha. flatten_trace. reflexivity.
Qed.

Lemma respond_raw_false (response : obj) :
  respond self response raw_false = prop response "data".
Proof. reflexivity. Qed.

Lemma prop_found_envelope_data (record : obj) :
  prop (found_envelope record) "data" = VObj record.
Proof.
  unfold found_envelope. rewrite prop_js_set_other by discriminate.
  apply Response_data. discriminate.
Qed.

(** X13. An [update] that finds its record sends one [$set] of the
    properties without the relation fields, filtered by the identifier,
    and reads the record again: the payload is the record of that second
    read, and [updated] is 1, also when the second read finds nothing. *)
Theorem update_returns_the_record_read_back
        (m : mapper) (id : value) (props : obj) (o : opts) (w : world DB)
        (_record _props cursor : obj) (d' : DB) (reread : option obj) :
  client self = Ok tt ->
  (forall op args, hook self op args = Ok VUndefined) ->
  let by_id := js_set [] (idAttribute m) (toObjectID self m id) in
  let options := with_fields (plainCopy_obj (findOneOpts self)) in
  let set_ := [("$set", VObj _props)] in
  let updateOpts_ := plainCopy_obj (getOpt self updateOpts o_updateOpts o) in
  native_findOne self (collection_of self m) by_id options (db w) = Ok (Some _record) ->
  withoutRelations m (VObj props) = Ok _props ->
  native_updateOne self (collection_of self m) by_id set_ updateOpts_ (db w)
    = (Ok cursor, d') ->
  native_findOne self (collection_of self m) by_id options d' = Ok reread ->
  exists envelope,
    update self m id props o w =
      (Ok (respond self envelope o),
       World d'
             (trace w ++
              [Hook "beforeFind";
               FindOne (collection_of self m) by_id options;
               Hook "afterFind";
               Hook "beforeUpdate";
               UpdateOne (collection_of self m) by_id set_ updateOpts_;
               Hook "beforeFind";
               FindOne (collection_of self m) by_id options;
               Hook "afterFind";
               Hook "afterUpdate"]))
    /\ (forall r, reread = Some r ->
                  prop envelope "data" = VObj (_translateId1 self r raw_false))
    /\ prop envelope "updated" = VNum 1
    /\ prop envelope "op" = VStr "update".
Proof.
  intros Hc Hh by_id options set_ updateOpts_ H1 Hp Hu H2.
  unfold withoutRelations, omit in Hp. simpl in Hp. injection Hp as Hp.
  assert (F1 : find self (Plan m raw_false []) id w
               = (Ok (VObj (_translateId1 self _record raw_false)),
                  World (db w)
                        (trace w ++ [Hook "beforeFind";
                                     FindOne (collection_of self m) by_id options;
                                     Hook "afterFind"]))).
  { rewrite (find_one_record m raw_false id VUndefined VUndefined _record w
               Hc (Hh _ _) H1 (Hh _ _)).
    rewrite respond_raw_false, prop_found_envelope_data. reflexivity. }
  destruct reread as [r|].
  - eexists. split; [|split; [|split]].
    + unfold update, bind, lift, log, read, write, throw, ret, getClient, run_hook.
      rewrite F1. cbn -[find js_set]. rewrite !Hh, Hc. cbn -[find js_set]. rewrite Hp.
      fold by_id. fold set_. fold updateOpts_. rewrite Hu.
      rewrite (find_one_record m raw_false id VUndefined VUndefined r (World d' _)
                 Hc (Hh _ _) H2 (Hh _ _)).
      rewrite respond_raw_false, prop_found_envelope_data.
      cbn -[find js_set]. rewrite Hh. flatten_trace. reflexivity.
    + intros r' E. injection E as <-.
      rewrite prop_js_set_other by discriminate.
      apply Response_data. discriminate.
    + apply prop_js_set_same.
    + rewrite prop_js_set_other by discriminate.
      unfold Response. apply prop_js_set_same.
  - eexists. split; [|split; [|split]].
    + unfold update, bind, lift, log, read, write, throw, ret, getClient, run_hook.
      rewrite F1. cbn -[find js_set]. rewrite !Hh, Hc. cbn -[find js_set]. rewrite Hp.
      fold by_id. fold set_. fold updateOpts_. rewrite Hu.
      rewrite (find_no_record self m raw_false [] id VUndefined VUndefined (World d' _)
                 Hc (Hh _ _) H2 (Hh _ _)).
      cbn -[find js_set]. rewrite Hh. flatten_trace. reflexivity.
    + discriminate.
    + apply prop_js_set_same.
    + rewrite prop_js_set_other by discriminate.
      unfold Response. apply prop_js_set_same.
Qed.

(** ** Records attached by the keys they list *)

(** X14. A [findAll] that loads a hasMany relation by [localKeys], on
    any records: one query to the related collection, by [$in] over the
    truthy keys the records list, each once; every record then gets, in
    its local field, exactly the related records whose identifier it
    lists, in the order they were read.  No record is added, dropped or
    reordered. *)
Theorem findAll_attaches_listed_records
        (m related : mapper) (def : relation) (o o' : opts) (q : query)
        (w : world DB) (mongoQuery : obj) (parents children : list obj) :
  In "where" (reserved self) ->
  client self = Ok tt ->
  (forall op args, hook self op args = Ok VUndefined) ->
  getOpt self raw o_raw o' = false ->
  type def = hasMany ->
  is_set (foreignKey def) = false ->
  is_set (localKeys def) = true ->
  getQuery (reserved self) q = Ok mongoQuery ->
  native_find self (collection_of self m) mongoQuery (findAll_options self o q) (db w)
    = Ok parents ->
  let records := _translateId self parents o in
  let keys :=
    flat_map (fun item => keys_of (prop item (key_name (localKeys def)))) records in
  let batch :=
    in_filter (idAttribute related)
      (map plainCopy (map (toObjectID self related)
                          (List.filter truthy (unique keys)))) in
  native_find self (collection_of self related) batch (find_options self o') (db w)
    = Ok children ->
  let relatedItems := _translateId self children o' in
  findAll self (Plan m o [(def, Plan related o' [])]) q w =
    (Ok (respond self
           (findAll_envelope
              (map (fun item =>
                      js_set item (localField def)
                             (arr (map VObj (List.filter (listed_by related def item)
                                                         relatedItems))))
                   records)) o),
     World (db w)
           (trace w ++
            [Hook "beforeFindAll";
             Find (collection_of self m) mongoQuery (findAll_options self o q);
             Hook "beforeFindAll";
             Find (collection_of self related) batch (find_options self o');
             Hook "afterFindAll";
             Hook "afterFindAll"])).
Proof.
  intros Hw Hc Hh Hraw Hty Hfk Hlk Hq Hp records keys batch Hch relatedItems.
  exact (findAll_by_localKeys self m related def o o' q w mongoQuery parents children
           Hw Hc Hh Hraw Hty Hfk Hlk Hq Hp Hch).
Qed.

(** ** A single read that loads by foreign keys *)

Lemma contains_query_filter (key : string) (keys : value) :
  In "where" (reserved self) ->
  getQuery (reserved self) (Query (Some [(key, VObj [("contains", keys)])]) [])
  = Ok [(key, plainCopy keys)].
Proof.
  intros Hw. unfold getQuery, normalized_where. simpl.
  rewrite (proj2 (is_reserved_In _ _) Hw).
  unfold translate_field, apply_op. simpl. rewrite js_set_empty. reflexivity.
Qed.

(** X15. [find], unlike [findAll], loads a hasMany relation by
    [foreignKeys]: it reads the related collection once, filtered by the
    equality of the [foreignKeys] field with the keys that the base
    adapter makes from the record, and puts what it reads in the local
    field of the record. *)
Theorem find_loads_by_foreignKeys
        (m related : mapper) (def : relation) (o o' : opts) (id : value)
        (w : world DB) (_record : obj) (children : list obj) :
  In "where" (reserved self) ->
  client self = Ok tt ->
  (forall op args, hook self op args = Ok VUndefined) ->
  getOpt self raw o_raw o' = false ->
  by_foreignKeys def = true ->
  let by_id := js_set [] (idAttribute m) (toObjectID self m id) in
  let options := with_fields (plainCopy_obj (getOpt self findOneOpts o_findOneOpts o)) in
  native_findOne self (collection_of self m) by_id options (db w) = Ok (Some _record) ->
  let record := _translateId1 self _record o in
  let by_keys := [(key_name (foreignKeys def),
                   plainCopy (makeHasManyForeignKeys self m def record))] in
  native_find self (collection_of self related) by_keys (find_options self o') (db w)
    = Ok children ->
  find self (Plan m o [(def, Plan related o' [])]) id w =
    (Ok (respond self
           (found_envelope
              (js_set record (localField def)
                      (arr (map VObj (_translateId self children o'))))) o),
     World (db w)
           (trace w ++
            [Hook "beforeFind";
             FindOne (collection_of self m) by_id options;
             Hook "beforeFindAll";
             Find (collection_of self related) by_keys (find_options self o');
             Hook "afterFindAll";
             Hook "afterFind"])).
Proof.
  intros Hw Hc Hh Hraw Hdef by_id options H1 record by_keys Hch.
  pose proof (contains_query_filter (key_name (foreignKeys def))
                (makeHasManyForeignKeys self m def record) Hw) as Hq2.
  fold by_keys in Hq2.
  unfold by_foreignKeys in Hdef.
  apply andb_prop in Hdef as [Hdef Hfks]. apply andb_prop in Hdef as [Hdef Hlk].
  apply andb_prop in Hdef as [Hty Hfk]. apply negb_true_iff in Hfk, Hlk.
  unfold find, bind, lift, log, read, ret, getClient, run_hook.
  rewrite Hc, !Hh. cbn -[findAll js_set]. fold by_id. fold options. rewrite H1.
  fold record. unfold Promise_all, collect_tasks, find_task.
  rewrite Hfk, Hlk, Hty, Hfks. cbn -[findAll js_set start_read].
  unfold start_read. rewrite Hq2. cbn -[findAll js_set].
  unfold bind, ret.
  rewrite (findAll_plain self related o' _ (World (db w) _) by_keys
             VUndefined VUndefined children Hq2 Hc (Hh _ _) Hch (Hh _ _)).
  rewrite (respond_data self _ o' Hraw), prop_findAll_envelope_data.
  cbn -[findAll js_set].
  fold (found_envelope (js_set record (localField def)
                               (arr (map VObj (_translateId self children o'))))).
  rewrite Hh. flatten_trace. reflexivity.
Qed.

(** ** The write path *)

Lemma map_result_translate_element (docs : list obj) :
  map_result (translate_element self) (map VObj docs)
  = Ok (map VObj (map (translate_record self) docs)).
Proof.
  induction docs as [|doc docs IH]; simpl; [reflexivity|].
  rewrite IH. reflexivity.
Qed.

Lemma _translateId_any_records (docs : list obj) (o : opts) :
  _translateId_any self (arr (map VObj docs)) o
  = Ok (arr (map VObj (_translateId self docs o))).
Proof.
  unfold _translateId_any, _translateId.
  destruct (getOpt self translateId o_translateId o); [|reflexivity].
  simpl. rewrite map_result_translate_element. reflexivity.
Qed.

Lemma js_get_fillIn_missing src : forall dest k,
  NoDup (map fst src) ->
  js_get dest k = None \/ js_get dest k = Some VUndefined ->
  prop (fillIn dest src) k = prop src k.
Proof.
  induction src as [|[k0 v0] src IH]; simpl; intros dest k Hnd Hk.
  - unfold prop. destruct Hk as [-> | ->]; reflexivity.
  - inversion Hnd as [|? ? Hout Hnd']; subst.
    destruct (String.eqb_spec k0 k) as [->|Hne].
    + assert (E : forall d, js_get d k = Some v0 -> prop (fillIn d src) k = v0).
      { intros d Hd. destruct v0.
        - rewrite (IH d k Hnd' (or_intror Hd)). unfold prop.
          rewrite (proj2 (js_get_None src k) Hout). reflexivity.
        - unfold prop. rewrite (js_get_fillIn_kept src d k _ Hd); [reflexivity|discriminate].
        - unfold prop. rewrite (js_get_fillIn_kept src d k _ Hd); [reflexivity|discriminate].
        - unfold prop. rewrite (js_get_fillIn_kept src d k _ Hd); [reflexivity|discriminate].
        - unfold prop. rewrite (js_get_fillIn_kept src d k _ Hd); [reflexivity|discriminate].
        - unfold prop. rewrite (js_get_fillIn_kept src d k _ Hd); [reflexivity|discriminate].
        - unfold prop. rewrite (js_get_fillIn_kept src d k _ Hd); [reflexivity|discriminate]. }
      unfold prop at 2. simpl. rewrite String.eqb_refl.
      destruct Hk as [Hk|Hk]; rewrite Hk; apply E;
        rewrite js_get_js_set, String.eqb_refl; reflexivity.
    + assert (P : prop ((k0, v0) :: src) k = prop src k).
      { unfold prop. simpl. destruct (String.eqb_spec k0 k); [contradiction|reflexivity]. }
      rewrite P.
      assert (S : js_get (js_set dest k0 v0) k = js_get dest k).
      { rewrite js_get_js_set. destruct (String.eqb_spec k0 k); [contradiction|reflexivity]. }
      destruct (js_get dest k0) as [[]|]; apply IH; auto; rewrite S; exact Hk.
Qed.

(** What an envelope holds besides its payload: the acknowledgement of
    the driver. *)
Lemma prop_Response_meta (data : value) (meta : obj) (op k : string) :
  NoDup (map fst meta) -> k <> "data" -> k <> "op" ->
  prop (Response data meta op) k = prop meta k.
Proof.
  intros Hnd Hd Ho. unfold Response.
  rewrite prop_js_set_other by congruence.
  apply js_get_fillIn_missing; [exact Hnd|].
  left. cbn [js_get]. destruct (String.eqb_spec "data" k); [congruence|reflexivity].
Qed.

Lemma prop_Response_no_data (meta : obj) (op : string) :
  NoDup (map fst meta) -> js_get meta "data" = None ->
  prop (Response VUndefined meta op) "data" = VUndefined.
Proof.
  intros Hnd Hm. unfold Response.
  rewrite prop_js_set_other by discriminate.
  rewrite js_get_fillIn_missing; [|exact Hnd|right; reflexivity].
  unfold prop. rewrite Hm. reflexivity.
Qed.

Lemma prop_Response_op (data : value) (meta : obj) (op : string) :
  prop (Response data meta op) "op" = VStr op.
Proof. unfold Response. apply prop_js_set_same. Qed.

(** X16. [destroy] removes by the identifier and resolves without a
    payload, whatever the driver removed, also nothing: [data] is
    undefined.  The envelope hands over the acknowledgement of the
    driver, but for its [connection], which is cleared. *)
Theorem destroy_resolves_with_no_payload
        (m : mapper) (id before : value) (o : write_opts) (w : world DB)
        (cursor : obj) (d' : DB) :
  client self = Ok tt ->
  hook self "beforeDestroy" [id] = Ok before ->
  (forall args, hook self "afterDestroy" args = Ok VUndefined) ->
  NoDup (map fst cursor) ->
  js_get cursor "data" = None ->
  native_deleteOne writes (collection_of self m)
    (js_set [] (idAttribute m) (toObjectID self m id))
    (plainCopy_obj (getOpt_w writes removeOpts o_removeOpts o)) (db w)
    = (Ok cursor, d') ->
  exists envelope,
    destroy self writes m id o w =
      (Ok (respond self envelope (o_read o)),
       World d' (trace w ++ [Hook "beforeDestroy"; Hook "afterDestroy"]))
    /\ prop envelope "data" = VUndefined
    /\ prop envelope "op" = VStr "destroy"
    /\ prop envelope "connection" = VUndefined
    /\ forall k, k <> "data" -> k <> "op" -> k <> "connection" ->
                 prop envelope k = prop cursor k.
Proof.
  intros Hc Hb Ha Hnd Hdata Hdel.
  exists (Response VUndefined (js_set cursor "connection" VUndefined) "destroy").
  assert (Hnd' : NoDup (map fst (js_set cursor "connection" VUndefined)))
    by (apply NoDup_js_set; exact Hnd).
  split; [|split; [|split; [|split]]].
  - unfold destroy, bind, lift, log, read, write, ret, getClient, run_hook.
    rewrite Hc, Hb. cbn -[js_set]. rewrite Hdel, Ha. cbn -[js_set].
    flatten_trace. reflexivity.
  - apply prop_Response_no_data; [exact Hnd'|].
    rewrite js_get_js_set. simpl. exact Hdata.
  - apply prop_Response_op.
  - rewrite prop_Response_meta by (auto; discriminate). apply prop_js_set_same.
  - intros k H1 H2 H3. rewrite prop_Response_meta by auto.
    apply prop_js_set_other. congruence.
Qed.

(** X17. [destroyAll] removes by the filter that [findAll] reads by, the
    translation of the query, and hands the options of the query
    ([sort], [skip], [limit]) to the driver where the removal options
    do not set them; it resolves without a payload. *)
Theorem destroyAll_removes_by_the_filter
        (m : mapper) (q : query) (before : value) (o : write_opts) (w : world DB)
        (mongoQuery cursor : obj) (d' : DB) :
  client self = Ok tt ->
  hook self "beforeDestroyAll" [query_value q] = Ok before ->
  (forall args, hook self "afterDestroyAll" args = Ok VUndefined) ->
  getQuery (reserved self) q = Ok mongoQuery ->
  NoDup (map fst cursor) ->
  js_get cursor "data" = None ->
  native_deleteMany writes (collection_of self m) mongoQuery
    (fillIn (plainCopy_obj (getOpt_w writes removeOpts o_removeOpts o))
            (getQueryOptions (toNumber self) q)) (db w)
    = (Ok cursor, d') ->
  exists envelope,
    destroyAll self writes m q o w =
      (Ok (respond self envelope (o_read o)),
       World d' (trace w ++ [Hook "beforeDestroyAll"; Hook "afterDestroyAll"]))
    /\ prop envelope "data" = VUndefined
    /\ prop envelope "op" = VStr "destroyAll"
    /\ prop envelope "connection" = VUndefined.
Proof.
  intros Hc Hb Ha Hq Hnd Hdata Hdel.
  exists (Response VUndefined (js_set cursor "connection" VUndefined) "destroyAll").
  assert (Hnd' : NoDup (map fst (js_set cursor "connection" VUndefined)))
    by (apply NoDup_js_set; exact Hnd).
  split; [|split; [|split]].
  - unfold destroyAll, bind, lift, log, read, write, ret, getClient, run_hook.
    rewrite Hc, Hb. cbn -[js_set]. rewrite Hq. cbn -[js_set].
    rewrite Hdel, Ha. cbn -[js_set]. flatten_trace. reflexivity.
  - apply prop_Response_no_data; [exact Hnd'|].
    rewrite js_get_js_set. simpl. exact Hdata.
  - apply prop_Response_op.
  - rewrite prop_Response_meta by (auto; discriminate). apply prop_js_set_same.
Qed.

(** ** Relation fields *)

Lemma omit_fields (keys : list string) (k : string) (entries : obj) : forall acc,
  NoDup (map fst entries) ->
  js_get (fold_left (fun _props kv =>
                       if existsb (String.eqb (fst kv)) keys then _props
                       else js_set _props (fst kv) (snd kv))
                    entries acc) k
  = if existsb (String.eqb k) keys then js_get acc k
    else match js_get entries k with
         | Some v => Some v
         | None => js_get acc k
         end.
Proof.
  induction entries as [|[k0 v0] rest IH]; intros acc Hnd; simpl.
  - destruct (existsb _ keys); reflexivity.
  - inversion Hnd as [|? ? Hout Hnd']; subst. rewrite (IH _ Hnd').
    destruct (String.eqb_spec k0 k) as [->|Hne].
    + rewrite (proj2 (js_get_None rest k) Hout).
      destruct (existsb (String.eqb k) keys); [reflexivity|].
      rewrite js_get_js_set, String.eqb_refl. reflexivity.
    + assert (E : js_get (if existsb (String.eqb k0) keys then acc
                          else js_set acc k0 v0) k = js_get acc k).
      { destruct (existsb (String.eqb k0) keys); [reflexivity|].
        rewrite js_get_js_set.
        destruct (String.eqb_spec k0 k); [contradiction|reflexivity]. }
      rewrite E. reflexivity.
Qed.

(** X18. What goes to the store on a write is the record without its
    relation fields, and with every other property as given. *)
Theorem withoutRelations_drops_the_relation_fields
        (m : mapper) (props _props : obj) (k : string) :
  NoDup (map fst props) ->
  withoutRelations m (VObj props) = Ok _props ->
  js_get _props k
  = if existsb (String.eqb k) (relationFields m) then None else js_get props k.
Proof.
  intros Hnd H. unfold withoutRelations, omit in H. simpl in H. injection H as <-.
  rewrite (omit_fields _ k props [] Hnd). simpl.
  destruct (existsb _ _); [reflexivity|]. destruct (js_get props k); reflexivity.
Qed.

(** ** Inserts *)

(** X19. [create] inserts the properties, as the [beforeCreate] hook
    leaves them, without the relation fields, and resolves with the
    first record that the driver reports, its identifier translated;
    [created] is 1, or 0 when the driver reports no record. *)
Theorem create_resolves_with_the_inserted_record
        (m : mapper) (props : obj) (before : value) (o : write_opts) (w : world DB)
        (_props cursor : obj) (d' : DB) (docs : list obj) :
  client self = Ok tt ->
  hook self "beforeCreate" [VObj props] = Ok before ->
  (forall args, hook self "afterCreate" args = Ok VUndefined) ->
  withoutRelations m (reassign before (VObj props)) = Ok _props ->
  native_insertOne writes (collection_of self m) _props
    (plainCopy_obj (getOpt_w writes insertOpts o_insertOpts o)) (db w)
    = (Ok cursor, d') ->
  prop cursor "ops" = arr (map VObj docs) ->
  exists envelope,
    create self writes m props o w =
      (Ok (respond self envelope (o_read o)),
       World d' (trace w ++ [Hook "beforeCreate"; Hook "afterCreate"]))
    /\ (forall doc rest, docs = doc :: rest ->
          prop envelope "data" = VObj (_translateId1 self doc (o_read o)))
    /\ prop envelope "created" = VNum (match docs with [] => 0 | _ => 1 end)
    /\ prop envelope "op" = VStr "create".
Proof.
  intros Hc Hb Ha Hp Hi Hops.
  eexists. split; [|split; [|split]].
  - unfold create, bind, lift, log, read, write, ret, getClient, run_hook.
    rewrite Hc, Hb. cbn -[js_set withoutRelations]. rewrite Hp.
    cbn -[js_set withoutRelations]. rewrite Hi.
    unfold cursor_records. rewrite Hops. cbn -[js_set _translateId_any arr].
    rewrite _translateId_any_records.
    replace (truthy (arr (map VObj docs))) with true by reflexivity.
    cbn -[js_set arr first_record truthy].
    rewrite Ha. cbn -[js_set arr first_record truthy]. flatten_trace. reflexivity.
  - intros doc rest ->. rewrite prop_js_set_other by discriminate.
    unfold _translateId, _translateId1.
    destruct (getOpt self translateId o_translateId (o_read o));
      (rewrite Response_data; [reflexivity|discriminate]).
  - rewrite prop_js_set_same. unfold _translateId.
    destruct (getOpt self translateId o_translateId (o_read o));
      destruct docs; reflexivity.
  - rewrite prop_js_set_other by discriminate. apply prop_Response_op.
Qed.

Lemma get_member_length (l : list value) :
  get_member (arr l) "length" = Ok (VNum (Z.of_nat (List.length l))).
Proof. reflexivity. Qed.

(** X20. [createMany] inserts every record without its relation fields
    in one call, and resolves with the records that the driver reports,
    their identifiers translated; [created] is their number. *)
Theorem createMany_resolves_with_the_inserted_records
        (m : mapper) (props before : value) (o : write_opts) (w : world DB)
        (records : list value) (named : obj) (_props : list obj)
        (cursor : obj) (d' : DB) (docs : list obj) :
  client self = Ok tt ->
  hook self "beforeCreateMany" [or_default props (VObj [])] = Ok before ->
  (forall args, hook self "afterCreateMany" args = Ok VUndefined) ->
  reassign before (or_default props (VObj [])) = VArr records named ->
  map_result (withoutRelations m) records = Ok _props ->
  native_insertMany writes (collection_of self m) _props
    (plainCopy_obj (getOpt_w writes insertManyOpts o_insertManyOpts o)) (db w)
    = (Ok cursor, d') ->
  prop cursor "ops" = arr (map VObj docs) ->
  exists envelope,
    createMany self writes m props o w =
      (Ok (respond self envelope (o_read o)),
       World d' (trace w ++ [Hook "beforeCreateMany"; Hook "afterCreateMany"]))
    /\ prop envelope "data" = arr (map VObj (_translateId self docs (o_read o)))
    /\ prop envelope "created" = VNum (Z.of_nat (List.length docs))
    /\ prop envelope "op" = VStr "createMany".
Proof.
  intros Hc Hb Ha Hr Hp Hi Hops.
  eexists. split; [|split; [|split]].
  - unfold createMany, bind, lift, log, read, write, ret, getClient, run_hook.
    rewrite Hc, Hb. cbn -[js_set withoutRelations]. rewrite Hr.
    cbn -[js_set withoutRelations]. rewrite Hp.
    cbn -[js_set withoutRelations]. rewrite Hi.
    unfold cursor_records. rewrite Hops. cbn -[js_set _translateId_any arr].
    rewrite _translateId_any_records.
    replace (truthy (arr (map VObj docs))) with true by reflexivity.
    cbn -[js_set arr first_record truthy get_member].
    rewrite get_member_length. cbn -[js_set arr first_record truthy].
    rewrite Ha. cbn -[js_set arr first_record truthy]. flatten_trace. reflexivity.
  - rewrite prop_js_set_other by discriminate.
    apply Response_data. discriminate.
  - rewrite prop_js_set_same. unfold _translateId.
    destruct (getOpt self translateId o_translateId (o_read o));
      rewrite ?length_map; reflexivity.
  - rewrite prop_js_set_other by discriminate. apply prop_Response_op.
Qed.

(** X21. [createMany] given anything but a list (nothing, one record)
    rejects with a TypeError once its [beforeCreateMany] hook has run,
    and does not reach the store. *)
Theorem createMany_wants_a_list
        (m : mapper) (props before : value) (o : write_opts) (w : world DB) :
  client self = Ok tt ->
  hook self "beforeCreateMany" [or_default props (VObj [])] = Ok before ->
  (forall elems named,
      reassign before (or_default props (VObj [])) <> VArr elems named) ->
  createMany self writes m props o w =
    (Throw TypeError, World (db w) (trace w ++ [Hook "beforeCreateMany"])).
Proof.
  intros Hc Hb Hn.
  unfold createMany, bind, lift, log, read, write, ret, getClient, run_hook.
  rewrite Hc, Hb. cbn -[js_set withoutRelations].
  destruct (reassign before (or_default props (VObj []))) eqn:E;
    try reflexivity.
  exfalso. apply (Hn elems named). reflexivity.
Qed.

(** ** Identifiers *)

(** X22. [toObjectID] turns an identifier into an ObjectID if it is not
    one already: applying it twice is applying it once. *)
Theorem toObjectID_idempotent (m : mapper) (id : value) :
  toObjectID self m (toObjectID self m id) = toObjectID self m id.
Proof.
  unfold toObjectID. destruct id; try reflexivity.
  destruct ((idAttribute m =? "_id") && ObjectID_isValid self s) eqn:E;
    [reflexivity|]. rewrite E. reflexivity.
Qed.

(** X23. The round trip of an identifier: when the identifier attribute
    is [_id] and the string [s] is a valid ObjectID, [toObjectID] makes
    the native ObjectID of it, and a record stored under that ObjectID
    comes back from [_translateId] with the string that [toString]
    gives for the ObjectID; this is [s] itself exactly when [toString]
    gives [s] back. *)
Theorem identifier_round_trip (m : mapper) (s : string) (r : obj) (o : opts) :
  getOpt self translateId o_translateId o = true ->
  idAttribute m = "_id" ->
  ObjectID_isValid self s = true ->
  let stored := toObjectID self m (VStr s) in
  let returned := prop (_translateId1 self (js_set r "_id" stored) o) "_id" in
  stored = ObjectID s
  /\ isObjectID stored = true
  /\ returned = VStr (js_toString self (ObjectID s))
  /\ (returned = VStr s <-> js_toString self (ObjectID s) = s).
Proof.
  intros Ht Hid Hv stored returned.
  assert (Hs : stored = ObjectID s).
  { unfold stored, toObjectID. rewrite Hid, Hv. reflexivity. }
  assert (Hr : returned = VStr (js_toString self (ObjectID s))).
  { unfold returned, _translateId1, translate_record. rewrite Ht, Hs.
    rewrite !prop_js_set_same. reflexivity. }
  split; [exact Hs|]. split; [rewrite Hs; reflexivity|].
  split; [exact Hr|]. rewrite Hr. split.
  - intros E. injection E as E. exact E.
  - intros ->. reflexivity.
Qed.

(** X24. [_translateId] keeps the number and the order of the records
    and touches nothing but [_id]; a record that has no [_id] gets one
    of its own, holding [undefined]. *)
Theorem translateId_touches_only_the_identifier (records : list obj) (o : opts) :
  Forall2 (fun r r' =>
             (forall k, k <> "_id" -> js_get r' k = js_get r k)
             /\ (js_get r "_id" = None ->
                 js_get r' "_id"
                 = if getOpt self translateId o_translateId o
                   then Some VUndefined else None))
          records (_translateId self records o).
Proof.
  unfold _translateId.
  destruct (getOpt self translateId o_translateId o).
  - induction records as [|r records IH]; simpl; constructor; [|exact IH].
    split.
    + intros k Hk. unfold translate_record. rewrite js_get_js_set.
      destruct (String.eqb_spec "_id" k); [congruence|reflexivity].
    + intros Hn. unfold translate_record, prop. rewrite Hn. simpl.
      rewrite js_get_js_set. reflexivity.
  - induction records as [|r records IH]; constructor; [|exact IH].
    split; auto.
Qed.

(** ** The keys of a batch *)

Lemma strict_eq_primitive (x y : value) :
  is_primitive x = true -> (strict_eq x y = true <-> x = y).
Proof.
  destruct x; try discriminate; intros _; destruct y; simpl;
    try (split; [discriminate|congruence]); try tauto.
  - rewrite Bool.eqb_true_iff. split; congruence.
  - rewrite Z.eqb_eq. split; congruence.
  - rewrite String.eqb_eq. split; congruence.
Qed.

Lemma follows_iff_In (x : value) (l : list value) :
  is_primitive x = true -> (existsb (strict_eq x) l = true <-> In x l).
Proof.
  intros Hx. rewrite existsb_exists. split.
  - intros [y [Hy E]]. apply (strict_eq_primitive x y Hx) in E. subst. exact Hy.
  - intros Hin. exists x. split; [exact Hin|].
    apply (strict_eq_primitive x x Hx). reflexivity.
Qed.

Lemma In_unique (l : list value) :
  Forall (fun x => is_primitive x = true) l ->
  forall y, In y (unique l) <-> In y l.
Proof.
  induction l as [|x l IH]; intros HF y; simpl; [tauto|].
  inversion HF as [|? ? Hx HF']; subst.
  destruct (existsb (strict_eq x) l) eqn:E.
  - rewrite (IH HF'). apply (follows_iff_In x l Hx) in E.
    split; [auto|]. intros [<-|H]; assumption.
  - simpl. rewrite (IH HF'). tauto.
Qed.

Lemma NoDup_unique (l : list value) :
  Forall (fun x => is_primitive x = true) l -> NoDup (unique l).
Proof.
  induction l as [|x l IH]; intros HF; simpl; [constructor|].
  inversion HF as [|? ? Hx HF']; subst.
  destruct (existsb (strict_eq x) l) eqn:E; [apply IH; exact HF'|].
  constructor; [|apply IH; exact HF'].
  rewrite (In_unique l HF'). intros Hin.
  apply (follows_iff_In x l Hx) in Hin. congruence.
Qed.

(** X25. The query that loads a hasMany relation by [localKeys] asks
    for every truthy key that the records list, once: no key twice, no
    falsy key, no key that no record lists.  (The keys are primitives:
    numbers and strings.) *)
Theorem localKeys_query_lists_each_key_once (related : mapper) (keys : list value) :
  Forall (fun x => is_primitive x = true) keys ->
  exists batch,
    localKeys_query self related keys
    = Query (Some [(idAttribute related,
                    VObj [("in", arr (map (toObjectID self related) batch))])]) []
    /\ NoDup batch
    /\ forall x, In x batch <-> In x keys /\ truthy x = true.
Proof.
  intros HF. exists (List.filter truthy (unique keys)).
  split; [reflexivity|]. split.
  - apply NoDup_filter. apply NoDup_unique. exact HF.
  - intros x. rewrite filter_In, (In_unique keys HF). tauto.
Qed.

(** ** What a bulk update sends *)

(** X26. [updateAll] sends the driver one update with [multi] set, whose
    update document is the options of the query with [$set] added: a
    [sort], [skip] or [limit] of the query stands in the update document
    next to [$set], which holds the properties without the relation
    fields. *)
Theorem updateAll_sends_the_query_options_with_the_update
        (m : mapper) (props : obj) (q : query) (o : opts) (w : world DB)
        (mongoQuery _props cursor : obj) (records1 records2 : list obj)
        (d' : DB) :
  client self = Ok tt ->
  (forall op args, hook self op args = Ok VUndefined) ->
  In "where" (reserved self) ->
  ~ In (idAttribute m) (reserved self) ->
  getQuery (reserved self) q = Ok mongoQuery ->
  withoutRelations m (VObj props) = Ok _props ->
  native_find self (collection_of self m) mongoQuery
              (findAll_options self raw_false q) (db w) = Ok records1 ->
  let ids := map (fun r => toObjectID self m (prop r (idAttribute m)))
                 (_translateId self records1 raw_false) in
  let update := js_set (getQueryOptions (toNumber self) q) "$set" (VObj _props) in
  let options := js_set (plainCopy_obj (getOpt self updateOpts o_updateOpts o))
                        "multi" (VBool true) in
  native_updateMany self (collection_of self m) mongoQuery update options (db w)
    = (Ok cursor, d') ->
  native_find self (collection_of self m)
              (in_filter (idAttribute m) (map plainCopy ids))
              (findAll_options self raw_false (ids_query m ids)) d' = Ok records2 ->
  In (UpdateMany (collection_of self m) mongoQuery update options)
     (trace (snd (updateAll self m props q o w)))
  /\ (forall c f u x,
         In (UpdateMany c f u x) (trace (snd (updateAll self m props q o w))) ->
         ~ In (UpdateMany c f u x) (trace w) ->
         u = update /\ x = options)
  /\ prop update "$set" = VObj _props
  /\ (forall k, k <> "$set" ->
                prop update k = prop (getQueryOptions (toNumber self) q) k)
  /\ prop options "multi" = VBool true.
Proof.
  intros Hc Hh Hwh Hid Hq Hp H1 ids update options Hu H2.
  pose proof (ids_query_filter (reserved self) m ids Hwh Hid) as Hq2.
  unfold withoutRelations, omit in Hp. simpl in Hp. injection Hp as Hp.
  assert (Hrun : trace (snd (updateAll self m props q o w))
                 = trace w ++
                   [Hook "beforeUpdateAll";
                    Hook "beforeFindAll";
                    Find (collection_of self m) mongoQuery
                         (findAll_options self raw_false q);
                    Hook "afterFindAll";
                    UpdateMany (collection_of self m) mongoQuery update options;
                    Hook "beforeFindAll";
                    Find (collection_of self m)
                         (in_filter (idAttribute m) (map plainCopy ids))
                         (findAll_options self raw_false (ids_query m ids));
                    Hook "afterFindAll";
                    Hook "afterUpdateAll"]).
  { unfold updateAll, bind, lift, log, read, write, throw, ret, getClient, run_hook.
    cbn -[findAll]. rewrite Hc, Hq, !Hh. cbn -[findAll]. rewrite Hp.
    rewrite (findAll_plain self m raw_false q (World (db w) _)
                           mongoQuery VUndefined VUndefined records1
                           Hq Hc (Hh _ _) H1 (Hh _ _)).
    cbn -[findAll]. rewrite map_result_records. fold ids. fold update. fold options.
    cbn -[findAll]. rewrite Hu.
    rewrite (findAll_plain self m raw_false (ids_query m ids)
               (World d' _) _ VUndefined VUndefined records2
               Hq2 Hc (Hh _ _) H2 (Hh _ _)).
    cbn -[findAll]. rewrite Hh. flatten_trace. reflexivity. }
  rewrite Hrun. split; [|split; [|split; [|split]]].
  - apply in_or_app. right. simpl. tauto.
  - intros c f u x Hin Hout. apply in_app_or in Hin as [Hin|Hin]; [contradiction|].
    simpl in Hin.
    repeat (destruct Hin as [Hin|Hin]; [try discriminate|]); try contradiction.
    injection Hin as <- <- <- <-. split; reflexivity.
  - apply prop_js_set_same.
  - intros k Hk. apply prop_js_set_other. congruence.
  - apply prop_js_set_same.
Qed.

End MoreExecutorFacts.

(** * The further properties on concrete inputs *)

Lemma findOpts_take_precedence_witness :
  let o := Opts None None (Some [("limit", VNum 5)]) None None in
  let q := Query None [("limit", VNum 10)] in
  let w := World users_db [] in
  (getQuery (reserved memory_host) q = Ok [])
  /\ (client memory_host = Ok tt)
  /\ (hook memory_host "beforeFindAll" [query_value q] = Ok VUndefined)
  /\ (js_get (getOpt memory_host findOpts o_findOpts o) "limit" = Some (VNum 5))
  /\ (VNum 5 <> VUndefined)
  /\ ("limit" = "fields" -> truthy (VNum 5) = true)
  /\ (exists options rest,
       trace (snd (findAll memory_host (Plan user_mapper o []) q w))
       = trace w ++ Hook "beforeFindAll"
                 :: Find (collection_of memory_host user_mapper) [] options :: rest
       /\ prop options "limit" = plainCopy (VNum 5)).
Proof.
  intros o q w.
  assert (h0 : getQuery (reserved memory_host) q = Ok []).
  { reflexivity. }
  assert (h1 : client memory_host = Ok tt).
  { reflexivity. }
  assert (h2 : hook memory_host "beforeFindAll" [query_value q] = Ok VUndefined).
  { reflexivity. }
  assert (h3 : js_get (getOpt memory_host findOpts o_findOpts o) "limit" = Some (VNum 5)).
  { reflexivity. }
  assert (h4 : VNum 5 <> VUndefined).
  { discriminate. }
  assert (h5 : "limit" = "fields" -> truthy (VNum 5) = true).
  { reflexivity. }
  exact (conj h0 (conj h1 (conj h2 (conj h3 (conj h4 (conj h5 (findOpts_take_precedence memory_host user_mapper o q w [] VUndefined "limit" (VNum 5) h0 h1 h2 h3 h4 h5))))))).
Defined.

Lemma untranslatable_query_reaches_no_store_witness :
  let q := Query (Some [("deleted", VNull)]) [] in
  (getQuery (reserved memory_host) q = Throw TypeError)
  /\ ((forall p w, findAll memory_host p q w = (Throw TypeError, w))
      /\ (forall m props o w,
             client memory_host = Ok tt ->
             updateAll memory_host m props q o w = (Throw TypeError, w))
      /\ (forall m o w before,
             client memory_host = Ok tt ->
             hook memory_host "beforeDestroyAll" [query_value q] = Ok before ->
             destroyAll memory_host memory_writes m q o w
             = (Throw TypeError, World (db w) (trace w ++ [Hook "beforeDestroyAll"])))).
Proof.
  intros q.
  assert (h0 : getQuery (reserved memory_host) q = Throw TypeError).
  { reflexivity. }
  exact (conj h0 (untranslatable_query_reaches_no_store memory_host memory_writes q TypeError h0)).
Defined.

Lemma no_connection_no_call_witness :
  (client offline_host = Throw connection_refused)
  /\ ((forall p id w, find offline_host p id w = (Throw connection_refused, w))
      /\ (forall p q w mongoQuery,
             getQuery (reserved offline_host) q = Ok mongoQuery ->
             findAll offline_host p q w = (Throw connection_refused, w))
      /\ (forall m id props o w,
             update offline_host m id props o w = (Throw connection_refused, w))
      /\ (forall m props q o w,
             updateAll offline_host m props q o w = (Throw connection_refused, w))
      /\ (forall m props o w,
             create offline_host memory_writes m props o w
             = (Throw connection_refused, w))
      /\ (forall m props o w,
             createMany offline_host memory_writes m props o w
             = (Throw connection_refused, w))
      /\ (forall m id o w,
             destroy offline_host memory_writes m id o w
             = (Throw connection_refused, w))
      /\ (forall m q o w,
             destroyAll offline_host memory_writes m q o w
             = (Throw connection_refused, w))).
Proof.
  assert (h0 : client offline_host = Throw connection_refused).
  { reflexivity. }
  exact (conj h0 (no_connection_no_call offline_host memory_writes connection_refused h0)).
Defined.

Lemma update_returns_the_record_read_back_witness :
  let id := VNum 1 in
  let props := [("status", VStr "inactive")] in
  let w := World users_db [] in
  let by_id := [("id", VNum 1)] in
  let options := [("fields", VObj [])] in
  let set_ := [("$set", VObj props)] in
  let cursor := [("modifiedCount", VNum 1)] in
  let d' := [("user", [user 1 "inactive"; user 2 "inactive"; user 3 "active"; user 4 "active"])] in
  (client memory_host = Ok tt)
  /\ (forall op args, hook memory_host op args = Ok VUndefined)
  /\ (native_findOne memory_host "user" by_id options (db w) = Ok (Some (user 1 "active")))
  /\ (withoutRelations user_mapper (VObj props) = Ok props)
  /\ (native_updateOne memory_host "user" by_id set_ [] (db w) = (Ok cursor, d'))
  /\ (native_findOne memory_host "user" by_id options d' = Ok (Some (user 1 "inactive")))
  /\ (exists envelope,
       update memory_host user_mapper id props no_opts w =
         (Ok (respond memory_host envelope no_opts),
          World d'
                (trace w ++
                 [Hook "beforeFind"; FindOne "user" by_id options; Hook "afterFind";
                  Hook "beforeUpdate"; UpdateOne "user" by_id set_ [];
                  Hook "beforeFind"; FindOne "user" by_id options; Hook "afterFind";
                  Hook "afterUpdate"]))
       /\ (forall r, Some (user 1 "inactive") = Some r ->
                     prop envelope "data" = VObj (_translateId1 memory_host r raw_false))
       /\ prop envelope "updated" = VNum 1
       /\ prop envelope "op" = VStr "update").
Proof.
  intros id props w by_id options set_ cursor d'.
  assert (h0 : client memory_host = Ok tt).
  { reflexivity. }
  assert (h1 : forall op args, hook memory_host op args = Ok VUndefined).
  { reflexivity. }
  assert (h2 : native_findOne memory_host "user" by_id options (db w) = Ok (Some (user 1 "active"))).
  { reflexivity. }
  assert (h3 : withoutRelations user_mapper (VObj props) = Ok props).
  { reflexivity. }
  assert (h4 : native_updateOne memory_host "user" by_id set_ [] (db w) = (Ok cursor, d')).
  { reflexivity. }
  assert (h5 : native_findOne memory_host "user" by_id options d' = Ok (Some (user 1 "inactive"))).
  { reflexivity. }
  exact (conj h0 (conj h1 (conj h2 (conj h3 (conj h4 (conj h5 (update_returns_the_record_read_back memory_host user_mapper id props no_opts w (user 1 "active") props cursor d' (Some (user 1 "inactive")) h0 h1 h2 h3 h4 h5))))))).
Defined.

Lemma findAll_attaches_listed_records_witness :
  let q := Query None [] in
  let parents := [parent1; parent2] in
  let children := [child 10; child 20; child 30] in
  let batch := in_filter "id" [VNum 10; VNum 20; VNum 30] in
  let options := [("fields", VObj [])] in
  (In "where" (reserved memory_host))
  /\ (client memory_host = Ok tt)
  /\ (forall op args, hook memory_host op args = Ok VUndefined)
  /\ (getOpt memory_host raw o_raw no_opts = false)
  /\ (type children_def = hasMany)
  /\ (is_set (foreignKey children_def) = false)
  /\ (is_set (localKeys children_def) = true)
  /\ (getQuery (reserved memory_host) q = Ok [])
  /\ (native_find memory_host "parent" [] options (db family_world) = Ok parents)
  /\ (native_find memory_host "child" batch options (db family_world) = Ok children)
  /\ (let records := _translateId memory_host parents no_opts in
     let relatedItems := _translateId memory_host children no_opts in
     findAll memory_host (Plan parent_mapper no_opts
                               [(children_def, Plan child_mapper no_opts [])])
             q family_world =
       (Ok (respond memory_host
              (findAll_envelope
                 (map (fun item =>
                         js_set item "children"
                                (arr (map VObj
                                        (List.filter
                                           (listed_by child_mapper children_def item)
                                           relatedItems))))
                      records)) no_opts),
        World family_db
              [Hook "beforeFindAll"; Find "parent" [] options;
               Hook "beforeFindAll"; Find "child" batch options;
               Hook "afterFindAll"; Hook "afterFindAll"])).
Proof.
  intros q parents children batch options.
  assert (h0 : In "where" (reserved memory_host)).
  { simpl; tauto. }
  assert (h1 : client memory_host = Ok tt).
  { reflexivity. }
  assert (h2 : forall op args, hook memory_host op args = Ok VUndefined).
  { reflexivity. }
  assert (h3 : getOpt memory_host raw o_raw no_opts = false).
  { reflexivity. }
  assert (h4 : type children_def = hasMany).
  { reflexivity. }
  assert (h5 : is_set (foreignKey children_def) = false).
  { reflexivity. }
  assert (h6 : is_set (localKeys children_def) = true).
  { reflexivity. }
  assert (h7 : getQuery (reserved memory_host) q = Ok []).
  { reflexivity. }
  assert (h8 : native_find memory_host "parent" [] options (db family_world) = Ok parents).
  { reflexivity. }
  assert (h9 : native_find memory_host "child" batch options (db family_world) = Ok children).
  { reflexivity. }
  exact (conj h0 (conj h1 (conj h2 (conj h3 (conj h4 (conj h5 (conj h6 (conj h7 (conj h8 (conj h9 (findAll_attaches_listed_records memory_host parent_mapper child_mapper children_def no_opts no_opts q family_world [] parents children h0 h1 h2 h3 h4 h5 h6 h7 h8 h9))))))))))).
Defined.

Lemma find_loads_by_foreignKeys_witness :
  let id := VNum 1 in
  let by_id := [("id", VNum 1)] in
  let options := [("fields", VObj [])] in
  let by_keys := [("parent_ids", VUndefined)] in
  let children := [child 10; child 20; child 30; child 40] in
  (In "where" (reserved memory_host))
  /\ (client memory_host = Ok tt)
  /\ (forall op args, hook memory_host op args = Ok VUndefined)
  /\ (getOpt memory_host raw o_raw no_opts = false)
  /\ (by_foreignKeys tags_def = true)
  /\ (native_findOne memory_host "parent" by_id options (db family_world) = Ok (Some parent1))
  /\ (native_find memory_host "child" by_keys options (db family_world) = Ok children)
  /\ (find memory_host (Plan parent_mapper no_opts [(tags_def, Plan child_mapper no_opts [])])
          id family_world =
       (Ok (respond memory_host
              (found_envelope
                 (js_set (_translateId1 memory_host parent1 no_opts) "tags"
                         (arr (map VObj (_translateId memory_host children no_opts)))))
              no_opts),
        World family_db
              [Hook "beforeFind"; FindOne "parent" by_id options;
               Hook "beforeFindAll"; Find "child" by_keys options;
               Hook "afterFindAll"; Hook "afterFind"])).
Proof.
  intros id by_id options by_keys children.
  assert (h0 : In "where" (reserved memory_host)).
  { simpl; tauto. }
  assert (h1 : client memory_host = Ok tt).
  { reflexivity. }
  assert (h2 : forall op args, hook memory_host op args = Ok VUndefined).
  { reflexivity. }
  assert (h3 : getOpt memory_host raw o_raw no_opts = false).
  { reflexivity. }
  assert (h4 : by_foreignKeys tags_def = true).
  { reflexivity. }
  assert (h5 : native_findOne memory_host "parent" by_id options (db family_world) = Ok (Some parent1)).
  { reflexivity. }
  assert (h6 : native_find memory_host "child" by_keys options (db family_world) = Ok children).
  { reflexivity. }
  exact (conj h0 (conj h1 (conj h2 (conj h3 (conj h4 (conj h5 (conj h6 (find_loads_by_foreignKeys memory_host parent_mapper child_mapper tags_def no_opts no_opts id family_world parent1 children h0 h1 h2 h3 h4 h5 h6)))))))).
Defined.

Lemma destroy_resolves_with_no_payload_witness :
  let id := VNum 2 in
  let w := World users_db [] in
  let cursor := [("deletedCount", VNum 1); ("connection", VStr "socket")] in
  let d' := [("user", [user 1 "active"; user 3 "active"; user 4 "active"])] in
  (client memory_host = Ok tt)
  /\ (hook memory_host "beforeDestroy" [id] = Ok VUndefined)
  /\ (forall args, hook memory_host "afterDestroy" args = Ok VUndefined)
  /\ (NoDup (map fst cursor))
  /\ (js_get cursor "data" = None)
  /\ (native_deleteOne memory_writes "user" [("id", VNum 2)] [] (db w) = (Ok cursor, d'))
  /\ (exists envelope,
       destroy memory_host memory_writes user_mapper id no_write_opts w =
         (Ok (respond memory_host envelope no_opts),
          World d' (trace w ++ [Hook "beforeDestroy"; Hook "afterDestroy"]))
       /\ prop envelope "data" = VUndefined
       /\ prop envelope "op" = VStr "destroy"
       /\ prop envelope "connection" = VUndefined
       /\ forall k, k <> "data" -> k <> "op" -> k <> "connection" ->
                    prop envelope k = prop cursor k).
Proof.
  intros id w cursor d'.
  assert (h0 : client memory_host = Ok tt).
  { reflexivity. }
  assert (h1 : hook memory_host "beforeDestroy" [id] = Ok VUndefined).
  { reflexivity. }
  assert (h2 : forall args, hook memory_host "afterDestroy" args = Ok VUndefined).
  { reflexivity. }
  assert (h3 : NoDup (map fst cursor)).
  { repeat constructor; simpl; intuition discriminate. }
  assert (h4 : js_get cursor "data" = None).
  { reflexivity. }
  assert (h5 : native_deleteOne memory_writes "user" [("id", VNum 2)] [] (db w) = (Ok cursor, d')).
  { reflexivity. }
  exact (conj h0 (conj h1 (conj h2 (conj h3 (conj h4 (conj h5 (destroy_resolves_with_no_payload memory_host memory_writes user_mapper id VUndefined no_write_opts w cursor d' h0 h1 h2 h3 h4 h5))))))).
Defined.

Lemma destroyAll_removes_by_the_filter_witness :
  let w := World users_db [] in
  let mongoQuery := [("status", VStr "active")] in
  let cursor := [("deletedCount", VNum 3); ("connection", VStr "socket")] in
  let d' := [("user", [user 2 "inactive"])] in
  (client memory_host = Ok tt)
  /\ (hook memory_host "beforeDestroyAll" [query_value active_query] = Ok VUndefined)
  /\ (forall args, hook memory_host "afterDestroyAll" args = Ok VUndefined)
  /\ (getQuery (reserved memory_host) active_query = Ok mongoQuery)
  /\ (NoDup (map fst cursor))
  /\ (js_get cursor "data" = None)
  /\ (native_deleteMany memory_writes "user" mongoQuery [] (db w) = (Ok cursor, d'))
  /\ (exists envelope,
       destroyAll memory_host memory_writes user_mapper active_query no_write_opts w =
         (Ok (respond memory_host envelope no_opts),
          World d' (trace w ++ [Hook "beforeDestroyAll"; Hook "afterDestroyAll"]))
       /\ prop envelope "data" = VUndefined
       /\ prop envelope "op" = VStr "destroyAll"
       /\ prop envelope "connection" = VUndefined).
Proof.
  intros w mongoQuery cursor d'.
  assert (h0 : client memory_host = Ok tt).
  { reflexivity. }
  assert (h1 : hook memory_host "beforeDestroyAll" [query_value active_query] = Ok VUndefined).
  { reflexivity. }
  assert (h2 : forall args, hook memory_host "afterDestroyAll" args = Ok VUndefined).
  { reflexivity. }
  assert (h3 : getQuery (reserved memory_host) active_query = Ok mongoQuery).
  { reflexivity. }
  assert (h4 : NoDup (map fst cursor)).
  { repeat constructor; simpl; intuition discriminate. }
  assert (h5 : js_get cursor "data" = None).
  { reflexivity. }
  assert (h6 : native_deleteMany memory_writes "user" mongoQuery [] (db w) = (Ok cursor, d')).
  { reflexivity. }
  exact (conj h0 (conj h1 (conj h2 (conj h3 (conj h4 (conj h5 (conj h6 (destroyAll_removes_by_the_filter memory_host memory_writes user_mapper active_query VUndefined no_write_opts w mongoQuery cursor d' h0 h1 h2 h3 h4 h5 h6)))))))).
Defined.

Lemma withoutRelations_drops_the_relation_fields_witness :
  let props := [("id", VNum 1); ("children", arr [VObj (child 10)]); ("name", VStr "Ann")] in
  let _props := [("id", VNum 1); ("name", VStr "Ann")] in
  (NoDup (map fst props))
  /\ (withoutRelations parent_mapper (VObj props) = Ok _props)
  /\ (js_get _props "children"
     = if existsb (String.eqb "children") (relationFields parent_mapper)
       then None else js_get props "children").
Proof.
  intros props _props.
  assert (h0 : NoDup (map fst props)).
  { repeat constructor; simpl; intuition discriminate. }
  assert (h1 : withoutRelations parent_mapper (VObj props) = Ok _props).
  { reflexivity. }
  exact (conj h0 (conj h1 (withoutRelations_drops_the_relation_fields parent_mapper props _props "children" h0 h1))).
Defined.

Lemma create_resolves_with_the_inserted_record_witness :
  let props := [("id", VNum 3); ("children", arr [VObj (child 10)])] in
  let _props := [("id", VNum 3)] in
  let cursor := [("insertedCount", VNum 1); ("ops", arr [VObj _props]); ("connection", VStr "socket")] in
  let d' := [("parent", [parent1; parent2; _props]); ("child", [child 10; child 20; child 30; child 40])] in
  (client memory_host = Ok tt)
  /\ (hook memory_host "beforeCreate" [VObj props] = Ok VUndefined)
  /\ (forall args, hook memory_host "afterCreate" args = Ok VUndefined)
  /\ (withoutRelations parent_mapper (reassign VUndefined (VObj props)) = Ok _props)
  /\ (native_insertOne memory_writes "parent" _props [] (db family_world) = (Ok cursor, d'))
  /\ (prop cursor "ops" = arr (map VObj [_props]))
  /\ (exists envelope,
       create memory_host memory_writes parent_mapper props no_write_opts family_world =
         (Ok (respond memory_host envelope no_opts),
          World d' (trace family_world ++ [Hook "beforeCreate"; Hook "afterCreate"]))
       /\ (forall doc rest, [_props] = doc :: rest ->
              prop envelope "data" = VObj (_translateId1 memory_host doc no_opts))
       /\ prop envelope "created" = VNum 1
       /\ prop envelope "op" = VStr "create").
Proof.
  intros props _props cursor d'.
  assert (h0 : client memory_host = Ok tt).
  { reflexivity. }
  assert (h1 : hook memory_host "beforeCreate" [VObj props] = Ok VUndefined).
  { reflexivity. }
  assert (h2 : forall args, hook memory_host "afterCreate" args = Ok VUndefined).
  { reflexivity. }
  assert (h3 : withoutRelations parent_mapper (reassign VUndefined (VObj props)) = Ok _props).
  { reflexivity. }
  assert (h4 : native_insertOne memory_writes "parent" _props [] (db family_world) = (Ok cursor, d')).
  { reflexivity. }
  assert (h5 : prop cursor "ops" = arr (map VObj [_props])).
  { reflexivity. }
  exact (conj h0 (conj h1 (conj h2 (conj h3 (conj h4 (conj h5 (create_resolves_with_the_inserted_record memory_host memory_writes parent_mapper props VUndefined no_write_opts family_world _props cursor d' [_props] h0 h1 h2 h3 h4 h5))))))).
Defined.

Lemma createMany_resolves_with_the_inserted_records_witness :
  let records := [VObj [("id", VNum 3); ("children", arr [VObj (child 10)])]; VObj [("id", VNum 4)]] in
  let _props := [[("id", VNum 3)]; [("id", VNum 4)]] in
  let cursor := [("insertedCount", VNum 2); ("ops", arr (map VObj _props)); ("connection", VStr "socket")] in
  let d' := [("parent", [parent1; parent2; [("id", VNum 3)]; [("id", VNum 4)]]); ("child", [child 10; child 20; child 30; child 40])] in
  (client memory_host = Ok tt)
  /\ (hook memory_host "beforeCreateMany" [or_default (arr records) (VObj [])] = Ok VUndefined)
  /\ (forall args, hook memory_host "afterCreateMany" args = Ok VUndefined)
  /\ (reassign VUndefined (or_default (arr records) (VObj [])) = VArr records [])
  /\ (map_result (withoutRelations parent_mapper) records = Ok _props)
  /\ (native_insertMany memory_writes "parent" _props [] (db family_world) = (Ok cursor, d'))
  /\ (prop cursor "ops" = arr (map VObj _props))
  /\ (exists envelope,
       createMany memory_host memory_writes parent_mapper (arr records) no_write_opts
                  family_world =
         (Ok (respond memory_host envelope no_opts),
          World d' (trace family_world
                    ++ [Hook "beforeCreateMany"; Hook "afterCreateMany"]))
       /\ prop envelope "data" = arr (map VObj (_translateId memory_host _props no_opts))
       /\ prop envelope "created" = VNum (Z.of_nat (List.length _props))
       /\ prop envelope "op" = VStr "createMany").
Proof.
  intros records _props cursor d'.
  assert (h0 : client memory_host = Ok tt).
  { reflexivity. }
  assert (h1 : hook memory_host "beforeCreateMany" [or_default (arr records) (VObj [])] = Ok VUndefined).
  { reflexivity. }
  assert (h2 : forall args, hook memory_host "afterCreateMany" args = Ok VUndefined).
  { reflexivity. }
  assert (h3 : reassign VUndefined (or_default (arr records) (VObj [])) = VArr records []).
  { reflexivity. }
  assert (h4 : map_result (withoutRelations parent_mapper) records = Ok _props).
  { reflexivity. }
  assert (h5 : native_insertMany memory_writes "parent" _props [] (db family_world) = (Ok cursor, d')).
  { reflexivity. }
  assert (h6 : prop cursor "ops" = arr (map VObj _props)).
  { reflexivity. }
  exact (conj h0 (conj h1 (conj h2 (conj h3 (conj h4 (conj h5 (conj h6 (createMany_resolves_with_the_inserted_records memory_host memory_writes parent_mapper (arr records) VUndefined no_write_opts family_world records [] _props cursor d' _props h0 h1 h2 h3 h4 h5 h6)))))))).
Defined.

Lemma createMany_wants_a_list_witness :
  (client memory_host = Ok tt)
  /\ (hook memory_host "beforeCreateMany" [or_default VUndefined (VObj [])] = Ok VUndefined)
  /\ (forall elems named, reassign VUndefined (or_default VUndefined (VObj [])) <> VArr elems named)
  /\ (createMany memory_host memory_writes parent_mapper VUndefined no_write_opts family_world =
       (Throw TypeError,
        World (db family_world) (trace family_world ++ [Hook "beforeCreateMany"]))).
Proof.
  assert (h0 : client memory_host = Ok tt).
  { reflexivity. }
  assert (h1 : hook memory_host "beforeCreateMany" [or_default VUndefined (VObj [])] = Ok VUndefined).
  { reflexivity. }
  assert (h2 : forall elems named, reassign VUndefined (or_default VUndefined (VObj [])) <> VArr elems named).
  { intros elems named; discriminate. }
  exact (conj h0 (conj h1 (conj h2 (createMany_wants_a_list memory_host memory_writes parent_mapper VUndefined VUndefined no_write_opts family_world h0 h1 h2)))).
Defined.

Lemma identifier_round_trip_witness :
  let s := "507f1f77bcf86cd799439011" in
  let r := [("name", VStr "Ann")] in
  let stored := toObjectID memory_host user_by_oid (VStr s) in
  let returned := prop (_translateId1 memory_host (js_set r "_id" stored) no_opts) "_id" in
  (getOpt memory_host translateId o_translateId no_opts = true
   /\ idAttribute user_by_oid = "_id"
   /\ ObjectID_isValid memory_host s = true)
  /\ (stored = ObjectID s
      /\ isObjectID stored = true
      /\ returned = VStr (js_toString memory_host (ObjectID s))
      /\ (returned = VStr s <-> js_toString memory_host (ObjectID s) = s))
  /\ js_toString memory_host (ObjectID s) = s
  /\ js_toString memory_host (ObjectID "abcdefghijkl") = "6162636465666768696a6b6c".
Proof.
  intros s r stored returned.
  assert (h0 : getOpt memory_host translateId o_translateId no_opts = true)
    by reflexivity.
  assert (h1 : idAttribute user_by_oid = "_id") by reflexivity.
  assert (h2 : ObjectID_isValid memory_host s = true) by reflexivity.
  exact (conj (conj h0 (conj h1 h2))
              (conj (identifier_round_trip memory_host user_by_oid s r no_opts h0 h1 h2)
                    (conj eq_refl eq_refl))).
Defined.

Lemma localKeys_query_lists_each_key_once_witness :
  let keys := [VNum 10; VNum 20; VNum 0; VNum 20; VNum 30] in
  (Forall (fun x => is_primitive x = true) keys)
  /\ (exists batch,
       localKeys_query memory_host child_mapper keys
       = Query (Some [(idAttribute child_mapper,
                       VObj [("in", arr (map (toObjectID memory_host child_mapper)
                                             batch))])]) []
       /\ NoDup batch
       /\ forall x, In x batch <-> In x keys /\ truthy x = true).
Proof.
  intros keys.
  assert (h0 : Forall (fun x => is_primitive x = true) keys).
  { repeat constructor. }
  exact (conj h0 (localKeys_query_lists_each_key_once memory_host child_mapper keys h0)).
Defined.

Lemma updateAll_sends_the_query_options_with_the_update_witness :
  let props := [("flag", VBool true)] in
  let q := Query None [("status", VStr "active"); ("limit", VNum 2)] in
  let w := World users_db [] in
  let mongoQuery := [("status", VStr "active")] in
  let matched := [user 1 "active"; user 3 "active"; user 4 "active"] in
  let reread := [updated_user 1 "active"; updated_user 3 "active"; updated_user 4 "active"] in
  let ids := [VNum 1; VNum 3; VNum 4] in
  let update := [("limit", VNum 2); ("$set", VObj props)] in
  let options := [("multi", VBool true)] in
  let cursor := [("modifiedCount", VNum 3)] in
  (client memory_host = Ok tt)
  /\ (forall op args, hook memory_host op args = Ok VUndefined)
  /\ (In "where" (reserved memory_host))
  /\ (~ In (idAttribute user_mapper) (reserved memory_host))
  /\ (getQuery (reserved memory_host) q = Ok mongoQuery)
  /\ (withoutRelations user_mapper (VObj props) = Ok props)
  /\ (native_find memory_host "user" mongoQuery (findAll_options memory_host raw_false q) (db w) = Ok matched)
  /\ (native_updateMany memory_host "user" mongoQuery update options (db w) = (Ok cursor, users_db'))
  /\ (native_find memory_host "user" (in_filter "id" ids) (findAll_options memory_host raw_false (ids_query user_mapper ids)) users_db' = Ok reread)
  /\ (In (UpdateMany "user" mongoQuery update options)
        (trace (snd (updateAll memory_host user_mapper props q no_opts w)))
     /\ (forall c f u x,
            In (UpdateMany c f u x)
               (trace (snd (updateAll memory_host user_mapper props q no_opts w))) ->
            ~ In (UpdateMany c f u x) (trace w) ->
            u = update /\ x = options)
     /\ prop update "$set" = VObj props
     /\ (forall k, k <> "$set" ->
                   prop update k = prop (getQueryOptions (toNumber memory_host) q) k)
     /\ prop options "multi" = VBool true).
Proof.
  intros props q w mongoQuery matched reread ids update options cursor.
  assert (h0 : client memory_host = Ok tt).
  { reflexivity. }
  assert (h1 : forall op args, hook memory_host op args = Ok VUndefined).
  { reflexivity. }
  assert (h2 : In "where" (reserved memory_host)).
  { simpl; tauto. }
  assert (h3 : ~ In (idAttribute user_mapper) (reserved memory_host)).
  { simpl; intuition discriminate. }
  assert (h4 : getQuery (reserved memory_host) q = Ok mongoQuery).
  { reflexivity. }
  assert (h5 : withoutRelations user_mapper (VObj props) = Ok props).
  { reflexivity. }
  assert (h6 : native_find memory_host "user" mongoQuery (findAll_options memory_host raw_false q) (db w) = Ok matched).
  { reflexivity. }
  assert (h7 : native_updateMany memory_host "user" mongoQuery update options (db w) = (Ok cursor, users_db')).
  { reflexivity. }
  assert (h8 : native_find memory_host "user" (in_filter "id" ids) (findAll_options memory_host raw_false (ids_query user_mapper ids)) users_db' = Ok reread).
  { reflexivity. }
  exact (conj h0 (conj h1 (conj h2 (conj h3 (conj h4 (conj h5 (conj h6 (conj h7 (conj h8 (updateAll_sends_the_query_options_with_the_update memory_host user_mapper props q no_opts w mongoQuery props cursor matched reread users_db' h0 h1 h2 h3 h4 h5 h6 h7 h8)))))))))).
Defined.
